(** * Tree-inference engine of the tab tree extension

    A shallow embedding of

      - [webextensions/common/bookmark.js]: the bulk-create suppression
        counter, the debounced collector of freshly created bookmarks and
        the grouper that folds a dragged tab tree into one folder;
      - [webextensions/background/handle-new-tabs.js]: the listeners for
        tab creation, tab update and attachment to another window.

    JavaScript's cooperative scheduling is written out: an [async] function
    is cut at the [await]s where the module state can change under it, each
    piece is one atomic transition of the engine state, and the callbacks
    queued by [setTimeout] live in an explicit timer queue. *)

From Stdlib Require Import ZArith List String Ascii Bool Lia PeanoNat.
From stdpp Require Import base option list gmap strings.
Import ListNotations.

Local Open Scope string_scope.
Local Open Scope Z_scope.

(** ** Outcome of an asynchronous call *)

(** The promise of an [async] function is either fulfilled or rejected
    (an exception escaped the body). *)
Inductive Settled : Type :=
| Fulfilled
| Rejected.

Module Bookmark.

(** *** Data *)

(** A bookmark node as delivered by [browser.bookmarks.onCreated]. *)
Record BookmarkTreeNode : Type := mkNode {
  bk_id : string;
  bk_parentId : string;
  bk_title : string;
  bk_url : string;
  bk_index : nat
}.

(** What this module reads of a tab: its title and URL, the tree level stored in
    the [kLEVEL] attribute ([None] when the attribute is missing, read as
    ['0']), and whether it is a group tab. *)
Record Tab : Type := mkTab {
  tab_title : string;
  tab_url : string;
  tab_level : option nat;
  tab_isGroupTab : bool
}.

(** [configs.lastDraggedTabs]. *)
Record DraggedTabs : Type := mkDragged {
  tabIds : list nat;
  urlsDigest : string
}.

(** Requests sent to [browser.bookmarks]. *)
Record CreateDetails : Type := mkCreate {
  c_folder : bool;
  c_parentId : option string;
  c_index : option nat;
  c_title : string;
  c_url : option string
}.

Inductive BookmarkOp : Type :=
| OpCreate (d : CreateDetails)
| OpMove (id : string) (parentId : string) (index : nat)
| OpRemove (id : string)
| OpUpdate (id : string) (title : string).

(** How [browser.bookmarks.create(...).catch(ApiTabs.createErrorHandler())]
    settles.  The handler lives in [api-tabs.js]; both of its possible
    behaviours on a failed creation are kept: it swallows the error (the
    awaited value is [undefined]) or it throws it again. *)
Inductive CreateOutcome : Type :=
| Created (folder : BookmarkTreeNode)
| Swallowed
| Rethrown.

(** *** Titles *)

(** [level] times the marker character. *)
Fixpoint markers (level : nat) : string :=
  match level with
  | O => ""
  | S n => String ">" (markers n)
  end.

Fixpoint dropMarkers (s : string) : string :=
  match s with
  | String ">" rest => dropMarkers rest
  | _ => s
  end.

(** [title.replace(/^>+ /, '')]: a leading run of markers followed by one
    space is removed; anything else is left alone. *)
Definition stripMarkerPrefix (title : string) : string :=
  match title with
  | String ">" rest =>
      match dropMarkers rest with
      | String " " body => body
      | _ => title
      end
  | _ => title
  end.

(** [/^>/.test(title)] *)
Definition startsWithMarker (title : string) : bool :=
  match title with
  | String ">" _ => true
  | _ => false
  end.

(** [parseInt(tab.$TST.getAttribute(Constants.kLEVEL) || '0')] *)
Definition levelOf (tab : Tab) : nat :=
  match tab_level tab with
  | Some n => n
  | None => O
  end.

(** [Math.min(...levels)]; the value on the empty list is never used, the
    loop over the tabs being empty as well. *)
Definition minLevel (tabs : list Tab) : nat :=
  match tabs with
  | [] => O
  | t :: rest => fold_left Nat.min (map levelOf rest) (levelOf t)
  end.

Definition titleWithTreeStructure (minLevel : nat) (tab : Tab) : string :=
  let level := (levelOf tab - minLevel)%nat in
  let prefix := markers level in
  if String.eqb prefix ""
  then stripMarkerPrefix (tab_title tab)
  else prefix ++ " " ++ tab_title tab.

Definition getTitlesWithTreeStructure (tabs : list Tab) : list string :=
  map (titleWithTreeStructure (minLevel tabs)) tabs.

Arguments getTitlesWithTreeStructure : simpl never.

(** [urls.join('\n')] *)
Fixpoint join (sep : string) (parts : list string) : string :=
  match parts with
  | [] => ""
  | [p] => p
  | p :: rest => p ++ sep ++ join sep rest
  end.

Definition newline : string := String (ascii_of_nat 10) "".

(** *** Engine state *)

Inductive TimerAction : Type :=
| Flush                      (* the callback of reserveToGroupCreatedBookmarks *)
| Decrement (amount : Z).    (* wait(150).then(() => mCreatingCount -= amount) *)

Record Timer : Type := mkTimer {
  t_id : positive;
  t_due : nat;
  t_action : TimerAction
}.

(** An [async] call suspended on [browser.bookmarks.create] after it has
    raised [mCreatingCount]. *)
Inductive Task : Type :=
| InBookmarkTab
| InBookmarkTabs (toBeCreatedCount : Z) (tabs : list Tab) (titles : list string)
| InGroup (bookmarks : list BookmarkTreeNode) (lastDraggedTabs : DraggedTabs).

Record Engine : Type := mkEngine {
  mCreatingCount : Z;
  mCreatedBookmarks : list BookmarkTreeNode;
  reserved : option positive;          (* reserveToGroupCreatedBookmarks.reserved *)
  lastDraggedTabs : option DraggedTabs; (* configs.lastDraggedTabs *)
  now : nat;
  nextTimerId : positive;
  timers : list Timer;
  running : list Task;
  issued : list BookmarkOp
}.

Definition initial : Engine :=
  mkEngine 0 [] None None 0 1%positive [] [] [].

Definition setCount (c : Z) (e : Engine) : Engine :=
  mkEngine c (mCreatedBookmarks e) (reserved e) (lastDraggedTabs e) (now e)
           (nextTimerId e) (timers e) (running e) (issued e).

Definition setCreated (l : list BookmarkTreeNode) (e : Engine) : Engine :=
  mkEngine (mCreatingCount e) l (reserved e) (lastDraggedTabs e) (now e)
           (nextTimerId e) (timers e) (running e) (issued e).

Definition setReserved (r : option positive) (e : Engine) : Engine :=
  mkEngine (mCreatingCount e) (mCreatedBookmarks e) r (lastDraggedTabs e) (now e)
           (nextTimerId e) (timers e) (running e) (issued e).

Definition setDragged (d : option DraggedTabs) (e : Engine) : Engine :=
  mkEngine (mCreatingCount e) (mCreatedBookmarks e) (reserved e) d (now e)
           (nextTimerId e) (timers e) (running e) (issued e).

Definition setNow (n : nat) (e : Engine) : Engine :=
  mkEngine (mCreatingCount e) (mCreatedBookmarks e) (reserved e) (lastDraggedTabs e) n
           (nextTimerId e) (timers e) (running e) (issued e).

Definition setTimers (next : positive) (ts : list Timer) (e : Engine) : Engine :=
  mkEngine (mCreatingCount e) (mCreatedBookmarks e) (reserved e) (lastDraggedTabs e) (now e)
           next ts (running e) (issued e).

Definition setRunning (r : list Task) (e : Engine) : Engine :=
  mkEngine (mCreatingCount e) (mCreatedBookmarks e) (reserved e) (lastDraggedTabs e) (now e)
           (nextTimerId e) (timers e) r (issued e).

Definition issue (ops : list BookmarkOp) (e : Engine) : Engine :=
  mkEngine (mCreatingCount e) (mCreatedBookmarks e) (reserved e) (lastDraggedTabs e) (now e)
           (nextTimerId e) (timers e) (running e) (issued e ++ ops).

(** [setTimeout(action, delay)]: returns the new timer's id. *)
Definition setTimeout (action : TimerAction) (delay : nat) (e : Engine) : positive * Engine :=
  let id := nextTimerId e in
  (id, setTimers (Pos.succ id)
                 (timers e ++ [mkTimer id (now e + delay)%nat action]) e).

Definition keeps (id : positive) (t : Timer) : bool := negb (Pos.eqb (t_id t) id).

(** [clearTimeout(id)] *)
Definition clearTimeout (id : positive) (e : Engine) : Engine :=
  setTimers (nextTimerId e) (List.filter (keeps id) (timers e)) e.

(** [wait(150).then(() => { mCreatingCount -= amount })] *)
Definition scheduleDecrement (amount : Z) (e : Engine) : Engine :=
  snd (setTimeout (Decrement amount) 150 e).

(** *** Collecting created bookmarks *)

Definition reserveToGroupCreatedBookmarks (e : Engine) : Engine :=
  let e1 := match reserved e with
            | Some id => clearTimeout id e
            | None => e
            end in
  let (id, e2) := setTimeout Flush 250 e1 in
  setReserved (Some id) e2.

(** [onBookmarksCreated], from the point where the permission query has
    answered [granted]: the counter is read after that [await]. *)
Definition onBookmarksCreated (granted : bool) (bookmark : BookmarkTreeNode)
    (e : Engine) : Engine :=
  if negb granted || (0 <? mCreatingCount e)
  then e
  else reserveToGroupCreatedBookmarks
         (setCreated (mCreatedBookmarks e ++ [bookmark]) e).

(** *** Grouping *)

(** Answers of the collaborators while a flush runs. *)
Record Host : Type := mkHost {
  getChildren : string -> option (list BookmarkTreeNode); (* [None]: the promise rejects *)
  moveSucceeds : string -> bool;                          (* browser.bookmarks.move *)
  Tab_get : nat -> option Tab                             (* Tab.get(id), [None] for undefined *)
}.

Inductive Progress : Type :=
| Done (r : Settled)
| AwaitingFolder (bookmarks : list BookmarkTreeNode) (last : DraggedTabs).

(** The loop of [browser.bookmarks.move] calls; [folder] is [None] when the
    awaited creation gave [undefined], and [folder.id] then throws. *)
Fixpoint moveAll (h : Host) (folder : option BookmarkTreeNode)
    (bookmarks : list BookmarkTreeNode) (movedCount : nat) (e : Engine)
    : Engine * bool :=
  match bookmarks with
  | [] => (e, true)
  | b :: rest =>
      match folder with
      | None => (e, false)
      | Some f =>
          let e1 := issue [OpMove (bk_id b) (bk_id f) movedCount] e in
          if moveSucceeds h (bk_id b)
          then moveAll h folder rest (S movedCount) e1
          else (e1, false)
      end
  end.

(** The final loop: [titles[i]] against [tabs[i].title], a missing
    [tabs[i]] throws. *)
Fixpoint saveTitles (bookmarks : list BookmarkTreeNode) (tabs : list Tab)
    (titles : list string) (e : Engine) : Engine * Settled :=
  match bookmarks with
  | [] => (e, Fulfilled)
  | b :: bs =>
      match tabs, titles with
      | t :: ts, title :: titles' =>
          saveTitles bs ts titles'
            (if String.eqb title (tab_title t)
             then e
             else issue [OpUpdate (bk_id b) title] e)
      | _, _ => (e, Rejected)
      end
  end.

(** [titles.filter(title => !/^>/.test(title)).length] *)
Definition unmarkedCount (titles : list string) : nat :=
  List.length (List.filter (fun title => negb (startsWithMarker title)) titles).

(** Lines 513-530: titles from the dragged tabs, the group tab's bookmark
    dropped, titles saved. *)
Definition retitle (h : Host) (bookmarks : list BookmarkTreeNode)
    (last : DraggedTabs) (e : Engine) : Engine * Settled :=
  match mapM (Tab_get h) (tabIds last) with
  | None => (e, Rejected)
  | Some tabs =>
      let titles := getTitlesWithTreeStructure tabs in
      match tabs with
      | [] => (e, Rejected)
      | first :: restTabs =>
          if tab_isGroupTab first && (unmarkedCount titles =? 1)%nat
          then
            match bookmarks with
            | [] => (e, Rejected)
            | b0 :: restBookmarks =>
                saveTitles restBookmarks restTabs
                  (getTitlesWithTreeStructure restTabs)
                  (issue [OpRemove (bk_id b0)] e)
            end
          else saveTitles bookmarks tabs titles e
      end
  end.

Definition folderOf (outcome : CreateOutcome) : option BookmarkTreeNode :=
  match outcome with
  | Created f => Some f
  | _ => None
  end.

Section Digest.

(** [sha1sum] of [common.js]; nothing depends on which function it is. *)
Variable sha1sum : string -> string.

Definition digestOf (bookmarks : list BookmarkTreeNode) : string :=
  sha1sum (join newline (map bk_url bookmarks)).

(** Number of distinct parents, the [size] of the [Set] of parent ids. *)
Definition parentCount (bookmarks : list BookmarkTreeNode) : nat :=
  List.length (nodup String.string_dec (map bk_parentId bookmarks)).

Definition groupFolderDetails (first : BookmarkTreeNode) : CreateDetails :=
  mkCreate true (Some (bk_parentId first)) (Some (bk_index first))
           (bk_title first) None.

(** [tryGroupCreatedBookmarks] up to the [await] of the folder creation. *)
Definition tryGroup_begin (h : Host) (e : Engine) : Engine * Progress :=
  let bookmarks := mCreatedBookmarks e in
  let e1 := setCreated [] e in
  let last := lastDraggedTabs e1 in
  let digest := digestOf bookmarks in
  let e2 := setDragged None e1 in
  match last with
  | None => (e2, Done Rejected)
  | Some last =>
      if negb (String.eqb digest (urlsDigest last)) then (e2, Done Fulfilled)
      else if (List.length bookmarks <? 2)%nat then (e2, Done Fulfilled)
      else if (1 <? parentCount bookmarks)%nat then (e2, Done Fulfilled)
      else
        match bookmarks with
        | [] => (e2, Done Rejected)
        | first :: _ =>
            match getChildren h (bk_parentId first) with
            | None => (e2, Done Rejected)
            | Some allChildren =>
                if (List.length allChildren =? List.length bookmarks)%nat
                then (e2, Done Fulfilled)
                else
                  (issue [OpCreate (groupFolderDetails first)]
                         (setCount (mCreatingCount e2 + 1) e2),
                   AwaitingFolder bookmarks last)
            end
        end
  end.

(** [tryGroupCreatedBookmarks] once the folder creation has settled. *)
Definition tryGroup_resume (h : Host) (bookmarks : list BookmarkTreeNode)
    (last : DraggedTabs) (outcome : CreateOutcome) (e : Engine)
    : Engine * Settled :=
  match outcome with
  | Rethrown => (e, Rejected)
  | _ =>
      let e1 := scheduleDecrement 1 e in
      match moveAll h (folderOf outcome) bookmarks 0 e1 with
      | (e2, false) => (e2, Rejected)
      | (e2, true) => retitle h bookmarks last e2
      end
  end.

(** One whole flush, nothing else running in between. *)
Definition tryGroupCreatedBookmarks (h : Host) (outcome : CreateOutcome)
    (e : Engine) : Engine * Settled :=
  match tryGroup_begin h e with
  | (e1, Done r) => (e1, r)
  | (e1, AwaitingFolder bookmarks last) =>
      tryGroup_resume h bookmarks last outcome e1
  end.

(** *** Bookmarking tabs on request *)

Record DialogResult : Type := mkDialogResult {
  buttonIndex : nat;
  v_title : string;
  v_url : string;
  v_parentId : option string
}.

(** [options.showDialog] unset, the dialog answered, or it threw. *)
Inductive Dialog : Type :=
| NoDialog
| Shown (result : DialogResult)
| DialogThrew.

(** [bookmarkTab] up to the [await] of the creation; [parent] is the answer
    of [getItemById].  [None]: the call has ended (it returned [null]). *)
Definition bookmarkTab_begin (granted : bool) (parent : option BookmarkTreeNode)
    (dialog : Dialog) (tab : Tab) (e : Engine) : Engine * option Task :=
  if negb granted then (e, None)
  else
    let start (title url : string) (parentId : option string) :=
      (issue [OpCreate (mkCreate false parentId None title (Some url))]
             (setCount (mCreatingCount e + 1) e),
       Some InBookmarkTab) in
    match dialog with
    | NoDialog => start (tab_title tab) (tab_url tab) (option_map bk_id parent)
    | Shown r =>
        if negb (buttonIndex r =? 0)%nat then (e, None)
        else start (v_title r) (v_url r) (v_parentId r)
    | DialogThrew => (e, None)
    end.

Definition bookmarkTab_resume (outcome : CreateOutcome) (e : Engine)
    : Engine * Settled :=
  match outcome with
  | Rethrown => (e, Rejected)
  | _ => (scheduleDecrement 1 e, Fulfilled)
  end.

(** [bookmarkTabs] up to the [await] of the folder creation.  [title] is
    the expanded [configs.bookmarkTreeFolderName], [index] is
    [options.index] when it applies.  With no tab, [tabs[0].title] throws
    before anything happens. *)
Definition bookmarkTabs_begin (granted : bool) (parent : option BookmarkTreeNode)
    (title : string) (index : option nat) (dialog : Dialog) (tabs : list Tab)
    (e : Engine) : Engine * option Task :=
  if negb granted then (e, None)
  else
    match tabs with
    | [] => (e, None)
    | _ :: _ =>
        let start (title : string) (parentId : option string) :=
          let toBeCreatedCount := Z.of_nat (List.length tabs) + 1 in
          let e1 := setCount (mCreatingCount e + toBeCreatedCount) e in
          let titles := getTitlesWithTreeStructure tabs in
          (issue [OpCreate (mkCreate true parentId index title None)] e1,
           Some (InBookmarkTabs toBeCreatedCount tabs titles)) in
        match dialog with
        | NoDialog => start title (option_map bk_id parent)
        | Shown r =>
            if negb (buttonIndex r =? 0)%nat then (e, None)
            else start (v_title r) (v_parentId r)
        | DialogThrew => (e, None)
        end
    end.

(** The loop creating one bookmark per tab under [folder]; failures of the
    single creations are suppressed, a missing [folder] throws. *)
Fixpoint createAll (folder : option BookmarkTreeNode) (tabs : list Tab)
    (titles : list string) (i : nat) (e : Engine) : Engine * bool :=
  match tabs with
  | [] => (e, true)
  | t :: ts =>
      match folder with
      | None => (e, false)
      | Some f =>
          createAll folder ts (tl titles) (S i)
            (issue [OpCreate (mkCreate false (Some (bk_id f)) (Some i)
                                       (hd "" titles) (Some (tab_url t)))] e)
      end
  end.

Definition bookmarkTabs_resume (toBeCreatedCount : Z) (tabs : list Tab)
    (titles : list string) (outcome : CreateOutcome) (e : Engine)
    : Engine * Settled :=
  match outcome with
  | Rethrown => (e, Rejected)
  | _ =>
      match createAll (folderOf outcome) tabs titles 0 e with
      | (e1, false) => (e1, Rejected)
      | (e1, true) => (scheduleDecrement toBeCreatedCount e1, Fulfilled)
      end
  end.

(** *** The event loop *)

Inductive Event : Type :=
| BookmarkCreated (granted : bool) (bookmark : BookmarkTreeNode)
| DragRecorded (d : DraggedTabs)
| CallBookmarkTab (granted : bool) (parent : option BookmarkTreeNode)
    (dialog : Dialog) (tab : Tab)
| CallBookmarkTabs (granted : bool) (parent : option BookmarkTreeNode)
    (title : string) (index : option nat) (dialog : Dialog) (tabs : list Tab)
| CreateSettled (i : nat) (outcome : CreateOutcome) (h : Host)
| TimerFired (id : positive) (h : Host)
| Tick.

Definition suspend (r : Engine * option Task) : Engine :=
  match r with
  | (e, Some t) => setRunning (running e ++ [t]) e
  | (e, None) => e
  end.

Fixpoint removeNth {A : Type} (i : nat) (l : list A) : list A :=
  match l, i with
  | [], _ => []
  | _ :: rest, O => rest
  | x :: rest, S j => x :: removeNth j rest
  end.

Definition isDue (e : Engine) (t : Timer) : bool := (t_due t <=? now e)%nat.

Definition hasId (id : positive) (t : Timer) : bool := Pos.eqb (t_id t) id.

(** Resuming a suspended call with the outcome of its creation. *)
Definition resume (h : Host) (t : Task) (outcome : CreateOutcome) (e : Engine)
    : Engine * Settled :=
  match t with
  | InBookmarkTab => bookmarkTab_resume outcome e
  | InBookmarkTabs n tabs titles => bookmarkTabs_resume n tabs titles outcome e
  | InGroup bookmarks last => tryGroup_resume h bookmarks last outcome e
  end.

(** The callback of a timer. *)
Definition fire (h : Host) (action : TimerAction) (e : Engine) : Engine :=
  match action with
  | Flush =>
      match tryGroup_begin h (setReserved None e) with
      | (e1, Done _) => e1
      | (e1, AwaitingFolder bookmarks last) =>
          setRunning (running e1 ++ [InGroup bookmarks last]) e1
      end
  | Decrement amount => setCount (mCreatingCount e - amount) e
  end.

(** One turn of the event loop.  Time passes only when no callback is due. *)
Definition step (e : Engine) (ev : Event) : Engine :=
  match ev with
  | BookmarkCreated granted bookmark => onBookmarksCreated granted bookmark e
  | DragRecorded d => setDragged (Some d) e
  | CallBookmarkTab granted parent dialog tab =>
      suspend (bookmarkTab_begin granted parent dialog tab e)
  | CallBookmarkTabs granted parent title index dialog tabs =>
      suspend (bookmarkTabs_begin granted parent title index dialog tabs e)
  | CreateSettled i outcome h =>
      match nth_error (running e) i with
      | Some t => fst (resume h t outcome (setRunning (removeNth i (running e)) e))
      | None => e
      end
  | TimerFired id h =>
      match List.find (hasId id) (timers e) with
      | Some t =>
          if isDue e t
          then fire h (t_action t) (clearTimeout id e)
          else e
      | None => e
      end
  | Tick =>
      if existsb (isDue e) (timers e) then e else setNow (S (now e)) e
  end.

Definition run (e : Engine) (evs : list Event) : Engine := fold_left step evs e.

(** Whether a suspended call, resumed with this outcome, ends by an
    exception before it has scheduled its decrement: the creation threw, or
    [bookmarkTabs] reads [folder.id] of [undefined]. *)
Definition leaks (t : Task) (outcome : CreateOutcome) : bool :=
  match t, outcome with
  | _, Rethrown => true
  | InBookmarkTabs _ (_ :: _) _, Swallowed => true
  | _, _ => false
  end.

Definition aborts (e : Engine) (ev : Event) : bool :=
  match ev with
  | CreateSettled i outcome _ =>
      match nth_error (running e) i with
      | Some t => leaks t outcome
      | None => false
      end
  | _ => false
  end.

(** Every suspended call of the run got past its creation. *)
Fixpoint clean (e : Engine) (evs : list Event) : bool :=
  match evs with
  | [] => true
  | ev :: rest => negb (aborts e ev) && clean (step e ev) rest
  end.

(** *** Parents of a batch *)

Definition sameParent (bookmarks : list BookmarkTreeNode) : Prop :=
  forall b1 b2, In b1 bookmarks -> In b2 bookmarks ->
    bk_parentId b1 = bk_parentId b2.

(** The group-tab case of line 515, for a first tab followed by two tabs
    one level deeper. *)
Definition groupTabOnTop (tA : Tab) : bool :=
  tab_isGroupTab tA && negb (startsWithMarker (stripMarkerPrefix (tab_title tA))).

(** *** The counter and the timers along a run *)

Definition isFlush (t : Timer) : bool :=
  match t_action t with
  | Flush => true
  | Decrement _ => false
  end.

(** What firing the timer takes from the counter. *)
Definition decrementOf (t : Timer) : Z :=
  match t_action t with
  | Flush => 0
  | Decrement amount => amount
  end.

(** What a suspended call has added to the counter. *)
Definition share (t : Task) : Z :=
  match t with
  | InBookmarkTab => 1
  | InBookmarkTabs toBeCreatedCount _ _ => toBeCreatedCount
  | InGroup _ _ => 1
  end.

Definition sumZ (l : list Z) : Z := fold_right Z.add 0 l.

(** The increments not yet taken back: those of the calls still suspended
    and those whose decrement is waiting in the timer queue. *)
Definition owed (e : Engine) : Z :=
  sumZ (map share (running e)) + sumZ (map decrementOf (timers e)).

Definition flushTimers (e : Engine) : list Timer :=
  List.filter isFlush (timers e).

(** The fields the invariant speaks about. *)
Definition core (e : Engine)
    : Z * option positive * nat * positive * list Timer * list Task :=
  (mCreatingCount e, reserved e, now e, nextTimerId e, timers e, running e).

Record Inv (e : Engine) : Prop := mkInv {
  inv_fresh : Forall (fun t => (t_id t < nextTimerId e)%positive) (timers e);
  inv_nodup : List.NoDup (map t_id (timers e));
  inv_flush : forall t, In t (timers e) ->
                (isFlush t = true <-> reserved e = Some (t_id t));
  inv_reserved : forall id, reserved e = Some id -> (id < nextTimerId e)%positive;
  inv_share : Forall (fun t => 0 <= share t) (running e);
  inv_decrement : Forall (fun t => 0 <= decrementOf t) (timers e);
  inv_due : Forall (fun t => (now e <= t_due t)%nat /\
                             (isFlush t = false -> t_due t <= now e + 150)%nat)
                   (timers e)
}.

(** The part of the counter that no suspended call and no waiting
    decrement accounts for. *)
Definition slack (e : Engine) : Z := mCreatingCount e - owed e.

(** What the event adds to the slack: the share of a call that ends
    without scheduling its decrement. *)
Definition leak (e : Engine) (ev : Event) : Z :=
  match ev with
  | CreateSettled i outcome _ =>
      match nth_error (running e) i with
      | Some t => if leaks t outcome then share t else 0
      | None => 0
      end
  | _ => 0
  end.

(** What the calls of a run that ended by an exception have left in the
    counter. *)
Fixpoint leaked (e : Engine) (evs : list Event) : Z :=
  match evs with
  | [] => 0
  | ev :: rest => leak e ev + leaked (step e ev) rest
  end.

(** No call is running at any point of the continuation. *)
Fixpoint idle (e : Engine) (evs : list Event) : bool :=
  match evs with
  | [] => true
  | ev :: rest =>
      match running (step e ev) with
      | [] => idle (step e ev) rest
      | _ :: _ => false
      end
  end.

End Digest.

(** *** Concrete flushes *)

Definition plainDigest (s : string) : string := s.

Definition bookmarkA := mkNode "a" "toolbar" "A" "http://a.example/" 1.
Definition bookmarkB := mkNode "b" "toolbar" "B" "http://a.example/b" 2.
Definition bookmarkC := mkNode "c" "toolbar" "C" "http://a.example/c" 3.
Definition sibling1 := mkNode "s1" "toolbar" "Before" "http://s1.example/" 0.
Definition sibling2 := mkNode "s2" "toolbar" "After" "http://s2.example/" 4.
Definition newFolder := mkNode "f" "toolbar" "A" "" 1.

Definition tabA := mkTab "A" "http://a.example/" (Some 0%nat) false.
Definition tabB := mkTab "B" "http://a.example/b" (Some 1%nat) false.
Definition tabC := mkTab "C" "http://a.example/c" (Some 1%nat) false.
Definition groupTabA := mkTab "A" "http://a.example/" (Some 0%nat) true.

Definition draggedABC : DraggedTabs :=
  mkDragged [1; 2; 3]%nat
    (digestOf plainDigest [bookmarkA; bookmarkB; bookmarkC]).

Definition hostWith (first : Tab) (children : list BookmarkTreeNode) : Host :=
  mkHost (fun _ => Some children) (fun _ => true)
         (fun id => match id with
                    | 1%nat => Some first
                    | 2%nat => Some tabB
                    | 3%nat => Some tabC
                    | _ => None
                    end).

(** The state in which the debounce timer finds the engine after the three
    bookmarks of the drag have arrived. *)
Definition collectedABC : Engine :=
  run plainDigest initial
    [DragRecorded draggedABC;
     BookmarkCreated true bookmarkA;
     BookmarkCreated true bookmarkB;
     BookmarkCreated true bookmarkC].

Definition fiveChildren : list BookmarkTreeNode :=
  [sibling1; bookmarkA; bookmarkB; bookmarkC; sibling2].

(** Two bookmarks of a drag, the first of them deleted again before the
    debounce timer fires: the parent then has one child, fewer than the
    batch. *)
Definition draggedAB : DraggedTabs :=
  mkDragged [1; 2]%nat (digestOf plainDigest [bookmarkA; bookmarkB]).

Definition collectedAB : Engine :=
  run plainDigest initial
    [DragRecorded draggedAB;
     BookmarkCreated true bookmarkA;
     BookmarkCreated true bookmarkB].

Definition hostAfterDeletion : Host :=
  mkHost (fun _ => Some [bookmarkB])
         (fun id => negb (String.eqb id "a"))
         (fun id => match id with
                    | 1%nat => Some tabA
                    | 2%nat => Some tabB
                    | _ => None
                    end).

Definition flushHost : Host := hostWith tabA fiveChildren.

(** The drag, the three bookmarks, the debounce delay, the flush and the
    creation of the folder. *)
Definition groupingRun : list Event :=
  [DragRecorded draggedABC;
   BookmarkCreated true bookmarkA;
   BookmarkCreated true bookmarkB;
   BookmarkCreated true bookmarkC] ++
  repeat Tick 250 ++
  [TimerFired 3%positive flushHost;
   CreateSettled 0 (Created newFolder) flushHost].

(** The grace delay passes, the decrement fires, one more unit passes. *)
Definition graceRun : list Event :=
  repeat Tick 150 ++ [TimerFired 4%positive flushHost; Tick].

(** [bookmarkTabs] for one tab, the creation of its folder failing. *)
Definition failedFolderRun : list Event :=
  [CallBookmarkTabs true None "Tabs" None NoDialog [tabA];
   CreateSettled 0 Swallowed flushHost].

(** *** Text for the dialogs *)

(** [text.replace(/c/g, entity)] for a single character [c]. *)
Fixpoint replaceChar (c : ascii) (entity : string) (text : string) : string :=
  match text with
  | "" => ""
  | String x rest =>
      if Ascii.eqb x c
      then entity ++ replaceChar c entity rest
      else String x (replaceChar c entity rest)
  end.

(** [sanitizeForHTMLText]: the three replacements, in the order of the
    source. *)
Definition sanitizeForHTMLText (text : string) : string :=
  replaceChar ">" "&gt;" (replaceChar "<" "&lt;" (replaceChar "&" "&amp;" text)).

Fixpoint occurs (c : ascii) (text : string) : bool :=
  match text with
  | "" => false
  | String x rest => Ascii.eqb x c || occurs c rest
  end.

(** What one character becomes. *)
Definition entityOf (x : ascii) : string :=
  if Ascii.eqb x "&" then "&amp;"
  else if Ascii.eqb x "<" then "&lt;"
  else if Ascii.eqb x ">" then "&gt;"
  else String x "".

(** Reading the three entities back; used to show that no two texts are
    sanitized to the same one. *)
Fixpoint unescape (text : string) : string :=
  match text with
  | String "&" (String "a" (String "m" (String "p" (String ";" rest)))) =>
      String "&" (unescape rest)
  | String "&" (String "l" (String "t" (String ";" rest))) =>
      String "<" (unescape rest)
  | String "&" (String "g" (String "t" (String ";" rest))) =>
      String ">" (unescape rest)
  | String x rest => String x (unescape rest)
  | "" => ""
  end.

(** *** Vocabulary for the properties of a flush *)

(** The same tab, [k] levels deeper. *)
Definition deeper (k : nat) (tab : Tab) : Tab :=
  mkTab (tab_title tab) (tab_url tab) (Some (levelOf tab + k)%nat)
        (tab_isGroupTab tab).

(** The bookmark a request changes; a creation changes none. *)
Definition targetOf (op : BookmarkOp) : option string :=
  match op with
  | OpCreate _ => None
  | OpMove id _ _ => Some id
  | OpRemove id => Some id
  | OpUpdate id _ => Some id
  end.

Definition isCreate (op : BookmarkOp) : bool :=
  match op with
  | OpCreate _ => true
  | _ => false
  end.

Definition isMove (op : BookmarkOp) : bool :=
  match op with
  | OpMove _ _ _ => true
  | _ => false
  end.

(** The bookmarks moved one after the other into [folder], the first to
    index [start]. *)
Fixpoint movesInto (folder : string) (bookmarks : list BookmarkTreeNode)
    (start : nat) : list BookmarkOp :=
  match bookmarks with
  | [] => []
  | b :: rest => OpMove (bk_id b) folder start :: movesInto folder rest (S start)
  end.

(** The counter is held up: a call is suspended or a decrement waits. *)
Definition holding (e : Engine) : Prop :=
  running e <> [] \/ exists t, In t (timers e) /\ isFlush t = false.

(** Every share and every waiting decrement is at least one. *)
Definition Positive (e : Engine) : Prop :=
  Forall (fun t => 1 <= share t) (running e) /\
  Forall (fun t => isFlush t = false -> 1 <= decrementOf t) (timers e).

(** A pending batch has its debounce timer in the queue, due within 250
    units. *)
Definition Armed (e : Engine) : Prop :=
  mCreatedBookmarks e <> [] ->
  exists t, In t (timers e) /\ isFlush t = true /\ reserved e = Some (t_id t) /\
            (t_due t <= now e + 250)%nat.

(** Requests that rename or remove a bookmark of the list. *)
Definition retitles (bookmarks : list BookmarkTreeNode) (op : BookmarkOp) : Prop :=
  isMove op = false /\ isCreate op = false /\
  exists b, In b bookmarks /\ targetOf op = Some (bk_id b).

(** Events that neither start nor resume a call nor fire a timer. *)
Definition quiet (ev : Event) : bool :=
  match ev with
  | BookmarkCreated _ _ | DragRecorded _ | Tick => true
  | _ => false
  end.

(** The bookmarks that the created-bookmark events of a list deliver with
    the permission granted. *)
Fixpoint delivered (evs : list Event) : list BookmarkTreeNode :=
  match evs with
  | [] => []
  | BookmarkCreated true b :: rest => b :: delivered rest
  | _ :: rest => delivered rest
  end.

(** *** Tracking *)

(** The listeners of [browser.bookmarks.onCreated]. *)
Inductive Listener : Type :=
| OnBookmarksCreated
| OtherListener (n : nat).

Definition isOurs (l : Listener) : bool :=
  match l with
  | OnBookmarksCreated => true
  | OtherListener _ => false
  end.

(** [browser.bookmarks.onCreated.hasListener(onBookmarksCreated)] *)
Definition hasListener (listeners : list Listener) : bool := existsb isOurs listeners.

(** [startTracking], from the point where the permission query has
    answered [granted]. *)
Definition startTracking (granted : bool) (listeners : list Listener)
    : list Listener :=
  if granted && negb (hasListener listeners)
  then (listeners ++ [OnBookmarksCreated])%list
  else listeners.

End Bookmark.

Module NewTabs.

Local Open Scope nat_scope.

(** *** Data *)

Definition Behavior := nat.   (* the attach-behavior constants of constants.js *)

(** What the listeners read of a tab. *)
Record Tab : Type := mkTab {
  id : nat;
  windowId : nat;
  url : string;
  cookieStoreId : string;
  uniqueId : string;
  parentNode : nat   (* the container element the tab sits in *)
}.

(** The provisional markers kept on [tab.$TST]. *)
Record TST : Type := mkTST {
  isNewTab : bool;
  possibleOpenerTab : option nat
}.

Definition fresh : TST := mkTST false None.

Record Configs : Type := mkConfigs {
  autoAttach : bool;
  autoAttachOnNewTabCommand : Behavior;
  autoAttachOnOpenedWithOwner : Behavior;
  autoAttachSameSiteOrphan : Behavior;
  autoGroupNewTabsFromPinned : bool;
  insertNewTabFromPinnedTabAtEnd : bool;  (* insertNewTabFromPinnedTabAt == kINSERT_END *)
  inheritContextualIdentityToNewChildTab : bool;
  inheritContextualIdentityToSameSiteOrphan : bool;
  syncParentTabAndOpenerTab : bool
}.

(** Answers of the collaborators ([tabs.js], [tree.js], [tabs-move.js]) to
    one listener call. *)
Record Registry : Type := mkRegistry {
  getActiveTab : nat -> option Tab;
  getOpenerTab : Tab -> option Tab;
  getNextTab : Tab -> option Tab;
  getParentTab : Tab -> option Tab;        (* asked when the listener runs *)
  parentAfterAttach : Tab -> option Tab;   (* [Tabs.getParentTab] once
                                              [Tree.behaveAutoAttachedTab] has resolved *)
  getLastTab : nat -> option Tab;
  getTabElementById : nat -> option Tab;
  isNewTabCommandTab : Tab -> bool;
  isPinned : Tab -> bool;
  trackedWindows : gmap nat (list nat);   (* window id to its [openedNewTabs] *)
  behaveAutoAttachedTab : Tab -> option Tab -> Behavior -> bool -> bool;
                                          (* base tab, behavior, dontMove; resolves to [moved] *)
  moveTabAfter : Tab -> option Tab -> bool  (* resolves to [moved] *)
}.

(** Calls made on the collaborators. *)
Inductive Action : Type :=
| SetOriginalOpener (tab : Tab) (uniqueId : string)
| BehaveAutoAttachedTab (tab : Tab) (baseTab : option Tab) (behavior : Behavior)
    (dontMove : bool)
| MoveTabAfter (tab : Tab) (reference : option Tab)
| OpenNewTab (parent : Tab) (insertBefore : Tab) (cookieStoreId : string)
| RemoveTab (tab : Tab)
| AttachTabTo (child : Tab) (parent : Tab).

(** What a listener hands back: a boolean, or a promise of one. *)
Inductive Returned : Type :=
| Now (b : bool)
| Later (b : bool).

Definition valueOf (r : Returned) : bool :=
  match r with
  | Now b => b
  | Later b => b
  end.

Record CreatingInfo : Type := mkCreatingInfo {
  duplicatedInternally : bool;
  activeTab : option Tab;
  maybeOrphan : bool;
  positionedBySelf : bool
}.

Definition sameTab (a b : Tab) : bool := id a =? id b.

(** *** New tabs *)

(** [handleNewTabFromActiveTab]: the value the promise resolves to, and the
    calls made.  [Tabs.getParentTab] is asked once the attachment has
    resolved: the answer is [parentAfterAttach], which need not be the one a
    listener got before the call. *)
Definition handleNewTabFromActiveTab (r : Registry) (tab : Tab) (activeTab : Tab)
    (autoAttachBehavior : Behavior) (inheritContextualIdentity : bool)
    : bool * list Action :=
  let moved := behaveAutoAttachedTab r tab (Some activeTab) autoAttachBehavior false in
  let attach :=
    BehaveAutoAttachedTab tab (Some activeTab) autoAttachBehavior false in
  match parentAfterAttach r tab with
  | None => (moved, [attach])
  | Some parent =>
      if negb inheritContextualIdentity
         || negb (String.eqb (cookieStoreId tab) "firefox-default")
         || String.eqb (cookieStoreId tab) (cookieStoreId parent)
      then (moved, [attach])
      else (moved,
            [attach;
             OpenNewTab parent tab (cookieStoreId activeTab);
             RemoveTab tab])
  end.

(** [(info.activeTab && info.activeTab.$TST.element) || Tabs.getActiveTab(...)] *)
Definition possibleOpener (r : Registry) (tab : Tab) (info : CreatingInfo) : option Tab :=
  match activeTab info with
  | Some t => Some t
  | None => getActiveTab r (windowId tab)
  end.

(** The [Tabs.onCreating] listener. *)
Definition onCreating (c : Configs) (r : Registry) (tab : Tab) (info : CreatingInfo)
    (tst : TST) : Returned * TST * list Action :=
  if duplicatedInternally info then (Now true, tst, [])
  else
    let possibleOpenerTab := possibleOpener r tab info in
    match getOpenerTab r tab with
    | None =>
        match possibleOpenerTab, getNextTab r tab with
        | Some candidate, None =>
            if maybeOrphan info then (Now true, tst, [])
            else if isNewTabCommandTab r tab then
              if negb (positionedBySelf info) then
                let (moved, actions) :=
                  handleNewTabFromActiveTab r tab candidate
                    (autoAttachOnNewTabCommand c)
                    (inheritContextualIdentityToNewChildTab c) in
                (Later (negb moved), tst, actions)
              else (Now false, tst, [])
            else
              (Now true,
               mkTST true
                     (if negb (sameTab candidate tab)
                      then Some (id candidate)
                      else NewTabs.possibleOpenerTab tst),
               [])
        | _, _ => (Now true, tst, [])
        end
    | Some opener =>
        let mark := SetOriginalOpener tab (uniqueId opener) in
        if isPinned r opener && (parentNode opener =? parentNode tab) then
          if autoGroupNewTabsFromPinned c then (Now false, tst, [mark])
          else if insertNewTabFromPinnedTabAtEnd c then
            let last := getLastTab r (windowId tab) in
            (Later (negb (moveTabAfter r tab last)), tst,
             [mark; MoveTabAfter tab last])
          else (Now true, tst, [mark])
        else if negb (maybeOrphan info) && autoAttach c then
          (Later (negb (behaveAutoAttachedTab r tab (Some opener)
                                              (autoAttachOnOpenedWithOwner c)
                                              (positionedBySelf info))),
           tst,
           [mark;
            BehaveAutoAttachedTab tab (Some opener)
              (autoAttachOnOpenedWithOwner c) (positionedBySelf info)])
        else (Now true, tst, [mark])
    end.

(** What the collaborator answered to a call that may move the tab. *)
Definition answeredMoved (r : Registry) (a : Action) : bool :=
  match a with
  | BehaveAutoAttachedTab tab baseTab behavior dontMove =>
      behaveAutoAttachedTab r tab baseTab behavior dontMove
  | MoveTabAfter tab reference => moveTabAfter r tab reference
  | _ => false
  end.

(** The engine repositioned the tab: one of its calls answered [moved]. *)
Definition repositioned (r : Registry) (actions : list Action) : bool :=
  existsb (answeredMoved r) actions.

(** *** Updated tabs *)

Definition inRange (lo hi : nat) (c : ascii) : bool :=
  (lo <=? nat_of_ascii c) && (nat_of_ascii c <=? hi).

(** [\w] *)
Definition isWordChar (c : ascii) : bool :=
  inRange 48 57 c || inRange 65 90 c || inRange 97 122 c || inRange 95 95 c.

Definition notSlash (c : ascii) : bool := negb (Ascii.eqb c "/").

(** What [.] does not match, among 8-bit characters. *)
Definition isLineTerminator (c : ascii) : bool :=
  inRange 10 10 c || inRange 13 13 c.

Fixpoint takeWhile (p : ascii -> bool) (s : string) : string :=
  match s with
  | String c rest => if p c then String c (takeWhile p rest) else ""
  | "" => ""
  end.

Fixpoint dropWhile (p : ascii -> bool) (s : string) : string :=
  match s with
  | String c rest => if p c then dropWhile p rest else s
  | "" => ""
  end.

Fixpoint anyChar (p : ascii -> bool) (s : string) : bool :=
  match s with
  | String c rest => p c || anyChar p rest
  | "" => false
  end.

(** The first group of [/^\w+:\/\/([^\/]+)(?:$|\/.*$)/], when it matches. *)
Definition siteOf (url : string) : option string :=
  match takeWhile isWordChar url with
  | "" => None
  | _ =>
      match dropWhile isWordChar url with
      | String ":" (String "/" (String "/" rest)) =>
          match takeWhile notSlash rest with
          | "" => None
          | host =>
              match dropWhile notSlash rest with
              | "" => Some host
              | String _ path =>
                  if anyChar isLineTerminator path then None else Some host
              end
          end
      | _ => None
      end
  end.

Record ChangeInfo : Type := mkChangeInfo {
  hasOpenerTabId : bool;      (* 'openerTabId' in changeInfo *)
  changedUrl : option string;
  status : option string
}.

(** [changeInfo.url || changeInfo.status == 'complete'] *)
Definition navigated (ch : ChangeInfo) : bool :=
  match changedUrl ch with
  | Some u => negb (String.eqb u "")
  | None => false
  end
  || match status ch with
     | Some s => String.eqb s "complete"
     | None => false
     end.

(** The callback waiting for [Tabs.waitUntilAllTabsAreCreated]. *)
Definition syncParentAndOpener (c : Configs) (r : Registry) (tab : Tab)
    (ch : ChangeInfo) : list Action :=
  if hasOpenerTabId ch && syncParentTabAndOpenerTab c then
    match getOpenerTab r tab with
    | None => []
    | Some parent =>
        if negb (windowId parent =? windowId tab)
           || match getParentTab r tab with
              | Some p => sameTab parent p
              | None => false
              end
        then []
        else [AttachTabTo tab parent]
    end
  else [].

(** The second half of the [Tabs.onUpdated] listener, for a tab still
    marked as new. *)
Definition resolveNewTab (c : Configs) (r : Registry) (tab : Tab) (tst : TST)
    : Settled * list Action :=
  let possibleOpenerTab :=
    match possibleOpenerTab tst with
    | Some opener => getTabElementById r opener
    | None => None
    end in
  match trackedWindows r !! windowId tab with
  | None => (Rejected, [])
  | Some toBeGroupedTabs =>
      match getParentTab r tab, possibleOpenerTab with
      | None, Some opener =>
          if existsb (Nat.eqb (id tab)) toBeGroupedTabs then (Fulfilled, [])
          else if isNewTabCommandTab r tab then
            (Fulfilled,
             snd (handleNewTabFromActiveTab r tab opener
                    (autoAttachOnNewTabCommand c)
                    (inheritContextualIdentityToNewChildTab c)))
          else
            match siteOf (url opener), siteOf (url tab) with
            | Some openerTabSite, Some newTabSite =>
                if String.eqb openerTabSite newTabSite then
                  (Fulfilled,
                   snd (handleNewTabFromActiveTab r tab opener
                          (autoAttachSameSiteOrphan c)
                          (inheritContextualIdentityToSameSiteOrphan c)))
                else (Fulfilled, [])
            | _, _ => (Fulfilled, [])
            end
      | _, _ => (Fulfilled, [])
      end
  end.

(** The [Tabs.onUpdated] listener. *)
Definition onUpdated (c : Configs) (r : Registry) (tab : Tab) (ch : ChangeInfo)
    (tst : TST) : Settled * TST * list Action :=
  let deferred := syncParentAndOpener c r tab ch in
  if navigated ch && isNewTab tst then
    let (result, actions) := resolveNewTab c r tab tst in
    (result, mkTST false None, (actions ++ deferred)%list)
  else (Fulfilled, tst, deferred).

(** A tab's life after its creation: the update events it receives, each
    with the configuration and the answers of the moment. *)
Record Update : Type := mkUpdate {
  u_configs : Configs;
  u_registry : Registry;
  u_tab : Tab;
  u_change : ChangeInfo
}.

Fixpoint updates (evs : list Update) (tst : TST) : TST * list Action :=
  match evs with
  | [] => (tst, [])
  | ev :: rest =>
      let '(_, tst1, actions) :=
        onUpdated (u_configs ev) (u_registry ev) (u_tab ev) (u_change ev) tst in
      let (tst2, more) := updates rest tst1 in
      (tst2, (actions ++ more)%list)
  end.

(** An attachment asked of [Tree.behaveAutoAttachedTab]. *)
Definition isAttachment (a : Action) : bool :=
  match a with
  | BehaveAutoAttachedTab _ _ _ _ => true
  | _ => false
  end.

Definition attachments (actions : list Action) : nat :=
  List.length (List.filter isAttachment actions).

(** *** Tabs attached to another window *)

Record World : Type := mkWorld {
  windows : gmap nat (list nat);   (* window id to its tabs, in order *)
  parents : gmap nat nat           (* tab id to the id of its parent *)
}.

Record AttachedInfo : Type := mkAttachedInfo {
  a_windowId : option nat;      (* info.windowId *)
  applyTreeBehavior : bool;     (* the answer of Tree.shouldApplyTreeBehavior(info) *)
  descendants : list nat
}.

Definition truthy (n : option nat) : bool :=
  match n with
  | Some (S _) => true
  | _ => false
  end.

(** Whether a move that fails on the attempts [fails] says gets through
    within [retries] further attempts, starting with attempt [k]. *)
Fixpoint getsThrough (fails : nat -> bool) (k retries : nat) : bool :=
  if negb (fails k) then true
  else
    match retries with
    | O => false
    | S fewer => getsThrough fails (S k) fewer
    end.

Definition without (gone : list nat) (l : list nat) : list nat :=
  List.filter (fun t => negb (existsb (Nat.eqb t) gone)) l.

Fixpoint insertAfterTab (anchor : nat) (new : list nat) (l : list nat) : list nat :=
  match l with
  | [] => []
  | t :: rest =>
      if t =? anchor then t :: (new ++ rest)%list
      else t :: insertAfterTab anchor new rest
  end.

(** Modelled from the spec: [Tree.moveTabs] of [tree.js], which is not among
    the sources.  Every tab of [tabs] is moved into the destination window
    immediately after [insertAfter], in the order of [tabs]; a move that
    fails is tried again, up to [retries] times, and a tab whose move never
    gets through stays where it is.  The moved tabs are returned. *)
Definition moveTabs (retries : nat) (fails : nat -> nat -> bool) (tabs : list nat)
    (destinationWindowId : nat) (insertAfter : nat) (w : World)
    : list nat * World :=
  let moved := List.filter (fun t => getsThrough (fails t) 0 retries) tabs in
  let cleared := without moved <$> windows w in
  let destination := default [] (cleared !! destinationWindowId) in
  (moved,
   mkWorld (<[destinationWindowId := insertAfterTab insertAfter moved destination]> cleared)
           (parents w)).

(** Modelled from the spec: [Tree.attachTabTo] of [tree.js], called with
    [dontMove]: it establishes [parentId] and moves nothing. *)
Definition attachTabTo (child parent : nat) (w : World) : World :=
  mkWorld (windows w) (<[child := parent]> (parents w)).

(** The [Tabs.onAttached] listener. *)
Definition onAttached (retries : nat) (fails : nat -> nat -> bool) (tab : Tab)
    (info : AttachedInfo) (w : World) : World :=
  if negb (truthy (a_windowId info)) || negb (applyTreeBehavior info) then w
  else
    let (movedTabs, w1) :=
      moveTabs retries fails (descendants info) (windowId tab) (id tab) w in
    fold_left (fun w' movedTab => attachTabTo movedTab (id tab) w') movedTabs w1.

(** *** Concrete events *)

Definition activePage : Tab :=
  mkTab 1 1 "https://example.org/" "firefox-default" "unique-1" 0.
Definition newPage : Tab :=
  mkTab 2 1 "https://example.org/news" "firefox-default" "unique-2" 0.
Definition nextPage : Tab :=
  mkTab 3 1 "https://example.net/" "firefox-default" "unique-3" 0.

Definition someConfigs : Configs :=
  mkConfigs true 1 2 3 false false false false false.

(** A registry in which the new tab has no opener; [next] is the tab after
    it, [moved] what the tree module answers. *)
Definition registryWith (opener next : option Tab) (moved : bool) : Registry :=
  mkRegistry (fun _ => Some activePage) (fun _ => opener) (fun _ => next)
             (fun _ => None) (fun _ => None) (fun _ => None)
             (fun n => if n =? 1 then Some activePage else None)
             (fun _ => false) (fun _ => false)
             {[ 1 := [] ]}
             (fun _ _ _ _ => moved) (fun _ _ => moved).

Definition plainInfo : CreatingInfo := mkCreatingInfo false None false false.

Definition pageLoaded : Update :=
  mkUpdate someConfigs (registryWith None None true) newPage
           (mkChangeInfo false None (Some "complete")).

(** Window 1 has received tab 10; its descendants 21 and 22 are still in
    window 2, and the move has cut them loose.  The first attempt to move
    tab 22 fails. *)
Definition twoWindows : World :=
  mkWorld {[ 1 := [10; 11]; 2 := [20; 21; 22] ]} ∅.

Definition movedTab : Tab :=
  mkTab 10 1 "https://example.org/" "firefox-default" "unique-10" 0.

Definition secondFailsOnce (tab attempt : nat) : bool :=
  (tab =? 22) && (attempt =? 0).

(** *** Vocabulary for the properties of the listeners *)

Fixpoint everyChar (p : ascii -> bool) (s : string) : bool :=
  match s with
  | String c rest => p c && everyChar p rest
  | "" => true
  end.

(** What the [Tabs.onCreated] listener reads of its [info]. *)
Record CreatedInfo : Type := mkCreatedInfo {
  duplicated : bool;
  originalTab : option Tab;
  byInternalOperation : bool;   (* info.duplicatedInternally *)
  keepsPosition : bool          (* info.positionedBySelf *)
}.

(** Calls made by the [Tabs.onCreated] listener: the duplicating state
    added to the tab, or a call on the tree module. *)
Inductive CreatedCall : Type :=
| AddDuplicatingState (tab : Tab)
| Ask (a : Action).

(** The [Tabs.onCreated] listener; [autoAttachOnDuplicated] is the
    configured behavior. *)
Definition onCreated (autoAttachOnDuplicated : Behavior) (tab : Tab)
    (info : CreatedInfo) : list CreatedCall :=
  if negb (duplicated info) then []
  else if byInternalOperation info then [AddDuplicatingState tab]
  else [Ask (BehaveAutoAttachedTab tab (originalTab info) autoAttachOnDuplicated
                                   (keepsPosition info))].

Definition asksToAttach (call : CreatedCall) : bool :=
  match call with
  | Ask a => isAttachment a
  | AddDuplicatingState _ => false
  end.

End NewTabs.

(** ** Facts about [bookmark.js] *)

Module BookmarkFacts.

Import Bookmark.

Section Facts.

Variable sha1sum : string -> string.

(** *** What the pieces of a flush touch *)

Lemma issue_nil (e : Engine) : issue [] e = e.
Proof. destruct e; unfold issue; simpl. now rewrite app_nil_r. Qed.

Lemma issue_issue (a b : list BookmarkOp) (e : Engine) :
  issue b (issue a e) = issue (a ++ b) e.
Proof. unfold issue; simpl. now rewrite app_assoc. Qed.

Lemma moveAll_issues (h : Host) folder bookmarks n e :
  exists ops, fst (moveAll h folder bookmarks n e) = issue ops e.
Proof.
  revert n e. induction bookmarks as [|b rest IH]; intros n e; simpl.
  - exists []. now rewrite issue_nil.
  - destruct folder as [f|]; [|exists []; now rewrite issue_nil].
    destruct (moveSucceeds h (bk_id b)).
    + destruct (IH (S n) (issue [OpMove (bk_id b) (bk_id f) n] e)) as [ops Hops].
      rewrite Hops, issue_issue. eauto.
    + simpl. eauto.
Qed.

Lemma saveTitles_issues bookmarks tabs titles e :
  exists ops, fst (saveTitles bookmarks tabs titles e) = issue ops e.
Proof.
  revert tabs titles e.
  induction bookmarks as [|b rest IH]; intros tabs titles e; simpl.
  - exists []. now rewrite issue_nil.
  - destruct tabs as [|t ts]; [exists []; now rewrite issue_nil|].
    destruct titles as [|title titles']; [exists []; now rewrite issue_nil|].
    destruct (String.eqb title (tab_title t)).
    + apply IH.
    + destruct (IH ts titles' (issue [OpUpdate (bk_id b) title] e)) as [ops Hops].
      rewrite Hops, issue_issue. eauto.
Qed.

Lemma retitle_issues (h : Host) bookmarks last e :
  exists ops, fst (retitle h bookmarks last e) = issue ops e.
Proof.
  unfold retitle.
  destruct (mapM (Tab_get h) (tabIds last)) as [tabs|];
    [|exists []; now rewrite issue_nil].
  destruct tabs as [|first restTabs]; [exists []; now rewrite issue_nil|].
  destruct (tab_isGroupTab first && _).
  - destruct bookmarks as [|b0 restBookmarks]; [exists []; now rewrite issue_nil|].
    destruct (saveTitles_issues restBookmarks restTabs
                (getTitlesWithTreeStructure restTabs)
                (issue [OpRemove (bk_id b0)] e)) as [ops Hops].
    rewrite Hops, issue_issue. eauto.
  - apply saveTitles_issues.
Qed.

Lemma createAll_issues folder tabs titles i e :
  exists ops, fst (createAll folder tabs titles i e) = issue ops e.
Proof.
  revert titles i e. induction tabs as [|t ts IH]; intros titles i e; simpl.
  - exists []. now rewrite issue_nil.
  - destruct folder as [f|]; [|exists []; now rewrite issue_nil].
    edestruct IH as [ops Hops]. rewrite Hops, issue_issue. eauto.
Qed.

(** A resumed grouping schedules its decrement unless the creation threw,
    and otherwise only issues requests. *)
Lemma tryGroup_resume_shape (h : Host) bookmarks last outcome e :
  exists ops,
    fst (tryGroup_resume h bookmarks last outcome e) =
      match outcome with
      | Rethrown => e
      | _ => issue ops (scheduleDecrement 1 e)
      end.
Proof.
  unfold tryGroup_resume.
  destruct outcome as [f| |]; [| |exists []; reflexivity].
  all: match goal with
       | |- context [moveAll ?h ?f ?b ?n ?e0] =>
           destruct (moveAll_issues h f b n e0) as [ops1 H1];
           destruct (moveAll h f b n e0) as [e2 [|]] eqn:Hm; simpl in H1; subst e2
       end.
  all: try (simpl; eauto).
  all: match goal with
       | |- context [retitle ?h ?b ?l ?e0] =>
           destruct (retitle_issues h b l e0) as [ops2 H2]; rewrite H2, issue_issue; eauto
       end.
Qed.

(** The part of a flush before the creation either ends or has raised the
    counter by one and asked for exactly one folder. *)
Lemma tryGroup_begin_shape (h : Host) (e : Engine) :
  let cleared := setDragged None (setCreated [] e) in
  match tryGroup_begin sha1sum h e with
  | (e1, Done _) => e1 = cleared
  | (e1, AwaitingFolder bookmarks last) =>
      bookmarks = mCreatedBookmarks e /\
      lastDraggedTabs e = Some last /\
      exists first rest,
        bookmarks = first :: rest /\
        e1 = issue [OpCreate (groupFolderDetails first)]
                   (setCount (mCreatingCount e + 1) cleared)
  end.
Proof.
  unfold tryGroup_begin; simpl.
  destruct (lastDraggedTabs e) as [last|]; [|reflexivity].
  destruct (negb _); [reflexivity|].
  destruct (_ <? 2)%nat; [reflexivity|].
  destruct (1 <? _)%nat; [reflexivity|].
  destruct (mCreatedBookmarks e) as [|first rest] eqn:Hb; [reflexivity|].
  destruct (getChildren h (bk_parentId first)) as [children|]; [|reflexivity].
  destruct (_ =? _)%nat; [reflexivity|].
  repeat split; eauto.
Qed.

(** *** Parents of a batch *)

Lemma nodup_at_most_one (l : list string) :
  (List.length (nodup String.string_dec l) <= 1)%nat <->
  (forall x y, In x l -> In y l -> x = y).
Proof.
  split.
  - intros Hlen x y Hx Hy.
    apply (nodup_In String.string_dec) in Hx, Hy.
    destruct (nodup String.string_dec l) as [|z [|z' r]]; simpl in *;
      [tauto | | lia].
    destruct Hx as [<-|[]], Hy as [<-|[]]. reflexivity.
  - intros Hall.
    pose proof (NoDup_nodup String.string_dec l) as Hnd.
    destruct (nodup String.string_dec l) as [|z [|z' r]] eqn:Hn; simpl; try lia.
    exfalso.
    assert (Hz : In z l) by (apply (nodup_In String.string_dec); rewrite Hn; simpl; auto).
    assert (Hz' : In z' l) by (apply (nodup_In String.string_dec); rewrite Hn; simpl; auto).
    pose proof (Hall z z' Hz Hz') as ->.
    apply NoDup_cons_iff in Hnd. simpl in Hnd. tauto.
Qed.

Lemma parentCount_sameParent (bookmarks : list BookmarkTreeNode) :
  (1 <? parentCount bookmarks)%nat = false <-> sameParent bookmarks.
Proof.
  rewrite Nat.ltb_ge. unfold parentCount, sameParent.
  rewrite nodup_at_most_one. split.
  - intros H b1 b2 H1 H2. apply H; apply in_map; assumption.
  - intros H x y Hx Hy.
    apply in_map_iff in Hx as [b1 [<- H1]].
    apply in_map_iff in Hy as [b2 [<- H2]]. now apply H.
Qed.

(** While the bookmarks of the batch are still children of their parent,
    a child count that differs from the size of the batch exceeds it. *)
Lemma differs_is_exceeds_while_batch_present
    (bookmarks children : list BookmarkTreeNode) :
  List.NoDup (map bk_id bookmarks) ->
  incl (map bk_id bookmarks) (map bk_id children) ->
  List.length children <> List.length bookmarks ->
  (List.length bookmarks < List.length children)%nat.
Proof.
  intros Hnd Hincl Hne.
  pose proof (NoDup_incl_length Hnd Hincl) as Hle.
  rewrite !length_map in Hle. lia.
Qed.

(** *** Claims about one flush *)

(** C1. Every flush leaves the last-dragged-tabs record cleared, whether
    the digest matches or not; and when the digest of the batch's URLs,
    joined in arrival order, differs from the record's [urlsDigest], the
    flush returns without issuing any request to the bookmark store (and
    without touching the counter or the timers). *)
Theorem flush_clears_record_and_aborts_on_mismatch
    (h : Host) (outcome : CreateOutcome) (e : Engine) :
  lastDraggedTabs (fst (tryGroupCreatedBookmarks sha1sum h outcome e)) = None /\
  forall last,
    lastDraggedTabs e = Some last ->
    digestOf sha1sum (mCreatedBookmarks e) <> urlsDigest last ->
    tryGroupCreatedBookmarks sha1sum h outcome e
      = (setDragged None (setCreated [] e), Fulfilled) /\
    issued (fst (tryGroupCreatedBookmarks sha1sum h outcome e)) = issued e.
Proof.
  split.
  - unfold tryGroupCreatedBookmarks.
    pose proof (tryGroup_begin_shape h e) as Hb.
    destruct (tryGroup_begin sha1sum h e) as [e1 [r|bookmarks last]]; simpl in Hb.
    + now subst e1.
    + destruct Hb as (_ & _ & first & rest & _ & ->).
      destruct (tryGroup_resume_shape h bookmarks last outcome
                  (issue [OpCreate (groupFolderDetails first)]
                     (setCount (mCreatingCount e + 1)
                        (setDragged None (setCreated [] e))))) as [ops Hops].
      rewrite Hops. now destruct outcome.
  - intros last Hlast Hdigest.
    assert (Hflush : tryGroupCreatedBookmarks sha1sum h outcome e
                     = (setDragged None (setCreated [] e), Fulfilled)).
    { unfold tryGroupCreatedBookmarks, tryGroup_begin; simpl.
      rewrite Hlast.
      apply String.eqb_neq in Hdigest. now rewrite Hdigest. }
    now rewrite Hflush.
Qed.

(** C10. A flush that finds no last-dragged-tabs record ends by an
    exception at the digest comparison; by then the pending batch and the
    record slot are cleared, and no create, move, update or remove has been
    issued. *)
Theorem flush_without_record_throws
    (h : Host) (outcome : CreateOutcome) (e : Engine) :
  lastDraggedTabs e = None ->
  snd (tryGroupCreatedBookmarks sha1sum h outcome e) = Rejected /\
  mCreatedBookmarks (fst (tryGroupCreatedBookmarks sha1sum h outcome e)) = [] /\
  lastDraggedTabs (fst (tryGroupCreatedBookmarks sha1sum h outcome e)) = None /\
  issued (fst (tryGroupCreatedBookmarks sha1sum h outcome e)) = issued e /\
  mCreatingCount (fst (tryGroupCreatedBookmarks sha1sum h outcome e)) = mCreatingCount e.
Proof.
  intros Hnone.
  unfold tryGroupCreatedBookmarks, tryGroup_begin; simpl.
  rewrite Hnone. simpl. auto.
Qed.

(** C3, as the code has it. A flush issues a request to the bookmark store
    only if the record's digest matches, the batch holds at least two
    bookmarks, all of them have the same parent, and the number of
    children of that parent differs from the size of the batch.  If a
    record exists and the batch is shorter than two, or spans several
    parents, or its parent has exactly as many children as the batch has
    bookmarks, the flush returns normally and has issued nothing. *)
Theorem flush_mutates_only_past_guards
    (h : Host) (outcome : CreateOutcome) (e : Engine) :
  let bookmarks := mCreatedBookmarks e in
  (issued (fst (tryGroupCreatedBookmarks sha1sum h outcome e)) <> issued e ->
   (2 <= List.length bookmarks)%nat /\
   sameParent bookmarks /\
   exists last first rest children,
     lastDraggedTabs e = Some last /\
     digestOf sha1sum bookmarks = urlsDigest last /\
     bookmarks = first :: rest /\
     getChildren h (bk_parentId first) = Some children /\
     List.length children <> List.length bookmarks) /\
  (forall last,
     lastDraggedTabs e = Some last ->
     (List.length bookmarks < 2)%nat \/
     ~ sameParent bookmarks \/
     (exists first rest children,
        bookmarks = first :: rest /\
        getChildren h (bk_parentId first) = Some children /\
        List.length children = List.length bookmarks) ->
     tryGroupCreatedBookmarks sha1sum h outcome e
       = (setDragged None (setCreated [] e), Fulfilled)).
Proof.
  intros bookmarks. subst bookmarks. split.
  - unfold tryGroupCreatedBookmarks, tryGroup_begin; simpl.
    destruct (lastDraggedTabs e) as [last|]; [|simpl; congruence].
    destruct (String.eqb _ _) eqn:Hd; simpl; [|congruence].
    destruct (_ <? 2)%nat eqn:Hlen; simpl; [congruence|].
    destruct (1 <? _)%nat eqn:Hpar; simpl; [congruence|].
    destruct (mCreatedBookmarks e) as [|first rest] eqn:Hb; simpl; [congruence|].
    destruct (getChildren h (bk_parentId first)) as [children|] eqn:Hc;
      simpl; [|congruence].
    destruct (_ =? _)%nat eqn:Hn; simpl; [congruence|].
    intros _. apply Nat.ltb_ge in Hlen. apply parentCount_sameParent in Hpar.
    apply Nat.eqb_neq in Hn. apply String.eqb_eq in Hd.
    repeat split; try assumption.
    exists last, first, rest, children. repeat split; assumption.
  - intros last Hlast Hguard.
    unfold tryGroupCreatedBookmarks, tryGroup_begin; simpl.
    rewrite Hlast.
    destruct (negb _); [reflexivity|].
    destruct (_ <? 2)%nat eqn:Hlen; [reflexivity|].
    destruct (1 <? _)%nat eqn:Hpar; [reflexivity|].
    apply Nat.ltb_ge in Hlen. apply parentCount_sameParent in Hpar.
    destruct Hguard as [Hshort|[Hmany|(first & rest & children & Hb & Hc & Hn)]];
      [lia | contradiction |].
    rewrite Hb, Hc. rewrite Hb in Hn. apply Nat.eqb_eq in Hn.
    now rewrite Hn.
Qed.

(** *** Titles of a parent and its two children *)

Example stripMarkerPrefix_samples :
  map stripMarkerPrefix ["> a"; ">>> a"; ">a"; " > a"; "> > a"; ">"; "> "]
  = ["a"; "a"; ">a"; " > a"; "> a"; ">"; ""].
Proof. reflexivity. Qed.

Example getTitlesWithTreeStructure_sample :
  getTitlesWithTreeStructure
    [mkTab ">> x" "" (Some 2%nat) false;
     mkTab "y" "" (Some 4%nat) false;
     mkTab "z" "" (Some 3%nat) false]
  = ["x"; ">> y"; "> z"].
Proof. reflexivity. Qed.

Lemma marked_title_differs (title : string) :
  String.eqb ("> " ++ title) title = false.
Proof.
  apply String.eqb_neq. intros H.
  apply (f_equal String.length) in H. cbv [String.append] in H. simpl in H. lia.
Qed.

Lemma minLevel_parent_and_children (tA tB tC : Tab) (l : nat) :
  levelOf tA = l -> levelOf tB = S l -> levelOf tC = S l ->
  minLevel [tA; tB; tC] = l.
Proof. intros HA HB HC. unfold minLevel; simpl. rewrite HA, HB, HC. lia. Qed.

Lemma titles_parent_and_children (tA tB tC : Tab) (l : nat) :
  levelOf tA = l -> levelOf tB = S l -> levelOf tC = S l ->
  getTitlesWithTreeStructure [tA; tB; tC] =
    [stripMarkerPrefix (tab_title tA);
     "> " ++ tab_title tB; "> " ++ tab_title tC].
Proof.
  intros HA HB HC. unfold getTitlesWithTreeStructure.
  rewrite (minLevel_parent_and_children tA tB tC l HA HB HC).
  unfold titleWithTreeStructure; cbn [map]. rewrite HA, HB, HC.
  replace (l - l)%nat with 0%nat by lia.
  replace (S l - l)%nat with 1%nat by lia.
  reflexivity.
Qed.

(** C2, as the code has it. Three dragged tabs at depths 0, 1, 1 and a
    matching batch of three bookmarks under one parent that has further
    children: unless the first tab is a group tab (whose title carries no
    marker), the flush asks for exactly one folder under that parent, with
    the first bookmark's title and index, moves the three bookmarks into
    it in their order at indices 0, 1 and 2, gives the first bookmark the
    first tab's title stripped of a marker prefix (no request when nothing
    is stripped), and gives the other two the titles of their tabs
    prefixed with a marker and a space. *)
Theorem flush_groups_parent_and_two_children
    (h : Host) (e : Engine) (b0 b1 b2 f : BookmarkTreeNode)
    (last : DraggedTabs) (a b c : nat) (tA tB tC : Tab)
    (children : list BookmarkTreeNode) (l : nat) :
  mCreatedBookmarks e = [b0; b1; b2] ->
  lastDraggedTabs e = Some last ->
  tabIds last = [a; b; c] ->
  digestOf sha1sum [b0; b1; b2] = urlsDigest last ->
  bk_parentId b1 = bk_parentId b0 ->
  bk_parentId b2 = bk_parentId b0 ->
  getChildren h (bk_parentId b0) = Some children ->
  (3 < List.length children)%nat ->
  moveSucceeds h (bk_id b0) = true ->
  moveSucceeds h (bk_id b1) = true ->
  moveSucceeds h (bk_id b2) = true ->
  Tab_get h a = Some tA -> Tab_get h b = Some tB -> Tab_get h c = Some tC ->
  levelOf tA = l -> levelOf tB = S l -> levelOf tC = S l ->
  groupTabOnTop tA = false ->
  snd (tryGroupCreatedBookmarks sha1sum h (Created f) e) = Fulfilled /\
  issued (fst (tryGroupCreatedBookmarks sha1sum h (Created f) e)) =
    (issued e ++
    [OpCreate (mkCreate true (Some (bk_parentId b0)) (Some (bk_index b0))
                        (bk_title b0) None);
     OpMove (bk_id b0) (bk_id f) 0;
     OpMove (bk_id b1) (bk_id f) 1;
     OpMove (bk_id b2) (bk_id f) 2] ++
    (if String.eqb (stripMarkerPrefix (tab_title tA)) (tab_title tA)
     then []
     else [OpUpdate (bk_id b0) (stripMarkerPrefix (tab_title tA))]) ++
    [OpUpdate (bk_id b1) ("> " ++ tab_title tB)%string;
     OpUpdate (bk_id b2) ("> " ++ tab_title tC)%string])%list.
Proof.
  intros Hb Hlast Hids Hdigest Hp1 Hp2 Hc Hlen Hm0 Hm1 Hm2 HA HB HC HlA HlB HlC Hgroup.
  assert (Hcount : (1 <? parentCount [b0; b1; b2])%nat = false).
  { apply parentCount_sameParent. intros x y Hx Hy. simpl in Hx, Hy.
    destruct Hx as [<-|[<-|[<-|[]]]], Hy as [<-|[<-|[<-|[]]]]; congruence. }
  assert (Hne : (List.length children =? 3)%nat = false)
    by (apply Nat.eqb_neq; lia).
  apply String.eqb_eq in Hdigest.
  unfold tryGroupCreatedBookmarks, tryGroup_begin; simpl.
  rewrite Hb, Hlast, Hdigest, Hcount; simpl.
  rewrite Hc; simpl. rewrite Hne.
  unfold tryGroup_resume; simpl.
  rewrite Hm0, Hm1, Hm2.
  assert (Htabs : mapM (Tab_get h) [a; b; c] = Some [tA; tB; tC])
    by (simpl; rewrite HA, HB, HC; reflexivity).
  unfold retitle. rewrite Hids, Htabs. cbv beta iota zeta.
  rewrite (titles_parent_and_children tA tB tC l HlA HlB HlC).
  unfold groupTabOnTop in Hgroup.
  replace (unmarkedCount _ =? 1)%nat
    with (negb (startsWithMarker (stripMarkerPrefix (tab_title tA))))
    by (unfold unmarkedCount; simpl;
        destruct (startsWithMarker (stripMarkerPrefix (tab_title tA))); reflexivity).
  rewrite Hgroup. cbn [saveTitles].
  rewrite !marked_title_differs.
  destruct (String.eqb (stripMarkerPrefix (tab_title tA)) (tab_title tA));
    cbn [fst snd issue issued scheduleDecrement setTimeout setTimers setCount
         setDragged setCreated];
    rewrite <- ?app_assoc; auto.
Qed.

(** *** The counter and the timers along a run *)

Lemma Inv_ext (e e' : Engine) : core e = core e' -> Inv e -> Inv e'.
Proof.
  unfold core. intros H [H1 H2 H3 H4 H5 H6 H8].
  injection H as Hc Hr Hn Hx Ht Hu.
  constructor; rewrite <- ?Hc, <- ?Hr, <- ?Hn, <- ?Hx, <- ?Ht, <- ?Hu;
    assumption.
Qed.

Lemma slack_ext (e e' : Engine) : core e = core e' -> slack e = slack e'.
Proof.
  unfold core, slack, owed. intros H. injection H as Hc Hr Hn Hx Ht Hu.
  now rewrite Hc, Ht, Hu.
Qed.

Lemma sumZ_app (l1 l2 : list Z) : sumZ (l1 ++ l2) = sumZ l1 + sumZ l2.
Proof. induction l1 as [|x l1 IH]; simpl; [reflexivity | rewrite IH; lia]. Qed.

Lemma sumZ_nonneg (l : list Z) : Forall (fun x => 0 <= x) l -> 0 <= sumZ l.
Proof. induction 1; simpl; lia. Qed.

Lemma removeNth_sum {A : Type} (f : A -> Z) (l : list A) (i : nat) (x : A) :
  nth_error l i = Some x ->
  sumZ (map f (removeNth i l)) = sumZ (map f l) - f x.
Proof.
  revert i. induction l as [|y l IH]; intros [|i] H; simpl in *; try discriminate.
  - injection H as ->. lia.
  - rewrite (IH i H). lia.
Qed.

Lemma removeNth_Forall {A : Type} (P : A -> Prop) (l : list A) (i : nat) :
  Forall P l -> Forall P (removeNth i l).
Proof.
  intros H. revert i. induction H as [|x l Hx Hl IH]; intros [|i]; simpl;
    try constructor; auto.
Qed.

Lemma filter_keeps_sum (g : Timer -> Z) (id : positive) (ts : list Timer) :
  sumZ (map g (List.filter (keeps id) ts)) =
  sumZ (map g ts) - sumZ (map g (List.filter (hasId id) ts)).
Proof.
  induction ts as [|t ts IH]; simpl; [reflexivity|].
  unfold keeps, hasId in *. destruct (Pos.eqb (t_id t) id); simpl; rewrite IH; lia.
Qed.

Lemma find_hasId (id : positive) (ts : list Timer) (t : Timer) :
  List.find (hasId id) ts = Some t -> In t ts /\ t_id t = id.
Proof.
  intros H. apply find_some in H as [Hin Hid].
  split; [assumption | now apply Pos.eqb_eq].
Qed.

Lemma filter_hasId_unique (id : positive) (ts : list Timer) (t : Timer) :
  List.NoDup (map t_id ts) ->
  List.find (hasId id) ts = Some t ->
  List.filter (hasId id) ts = [t].
Proof.
  induction ts as [|u ts IH]; simpl; intros Hnd Hfind; [discriminate|].
  apply NoDup_cons_iff in Hnd as [Hnotin Hnd].
  destruct (hasId id u) eqn:Hu.
  - injection Hfind as ->. f_equal.
    apply Pos.eqb_eq in Hu.
    assert (Hnone : forall v, In v ts -> hasId id v = false).
    { intros v Hv. unfold hasId. apply Pos.eqb_neq. intros Heq.
      apply Hnotin. rewrite Hu, <- Heq. now apply in_map. }
    clear -Hnone. induction ts as [|v ts IH]; simpl; [reflexivity|].
    rewrite (Hnone v) by (simpl; auto). apply IH. intros w Hw. apply Hnone. simpl; auto.
  - now apply IH.
Qed.

Lemma filter_keeps_In (id : positive) (ts : list Timer) (t : Timer) :
  In t (List.filter (keeps id) ts) <-> In t ts /\ t_id t <> id.
Proof.
  rewrite filter_In. unfold keeps. rewrite negb_true_iff, Pos.eqb_neq. tauto.
Qed.

Lemma NoDup_map_filter {A B : Type} (f : A -> B) (p : A -> bool) (l : list A) :
  List.NoDup (map f l) -> List.NoDup (map f (List.filter p l)).
Proof.
  induction l as [|x l IH]; simpl; intros H; [constructor|].
  apply NoDup_cons_iff in H as [Hnotin H].
  destruct (p x); simpl; [|now apply IH].
  constructor; [|now apply IH].
  intros Hin. apply Hnotin. apply in_map_iff in Hin as [y [Hy Hin]].
  apply filter_In in Hin as [Hin _]. rewrite <- Hy. now apply in_map.
Qed.

Lemma NoDup_snoc {A : Type} (l : list A) (x : A) :
  List.NoDup l -> ~ In x l -> List.NoDup (l ++ [x]).
Proof.
  induction l as [|y l IH]; simpl; intros Hnd Hx.
  - constructor; [tauto | constructor].
  - apply NoDup_cons_iff in Hnd as [Hy Hnd].
    constructor; [|apply IH; tauto].
    rewrite in_app_iff; simpl. intros [H|[H|[]]]; [tauto|]. subst. tauto.
Qed.

Lemma Forall_filter_keep {A : Type} (P : A -> Prop) (p : A -> bool) (l : list A) :
  Forall P l -> Forall P (List.filter p l).
Proof.
  rewrite !List.Forall_forall. intros H x Hx. apply H.
  now apply filter_In in Hx as [Hx _].
Qed.

Ltac fields :=
  cbn [mCreatingCount reserved now nextTimerId timers running
       setCount setReserved setTimers setRunning setNow setCreated setDragged
       issue scheduleDecrement setTimeout clearTimeout fst snd] in *.

Lemma Inv_initial : Inv initial.
Proof.
  constructor; simpl; try constructor; try discriminate; tauto.
Qed.

Lemma fresh_not_used (e : Engine) :
  Inv e -> ~ In (nextTimerId e) (map t_id (timers e)).
Proof.
  intros He Hin. apply in_map_iff in Hin as [t [Hid Hin]].
  pose proof (inv_fresh e He) as H1.
  rewrite List.Forall_forall in H1. specialize (H1 t Hin). lia.
Qed.

(** A call raises the counter by its share and suspends. *)
Lemma Inv_begin (e : Engine) (t : Task) :
  Inv e -> 0 <= share t ->
  Inv (setRunning (running e ++ [t]) (setCount (mCreatingCount e + share t) e)).
Proof.
  intros [H1 H2 H3 H4 H5 H6 H8] Ht.
  constructor; fields; try assumption.
  apply List.Forall_app. split; [assumption | repeat constructor; assumption].
Qed.

Lemma slack_begin (e : Engine) (t : Task) :
  slack (setRunning (running e ++ [t]) (setCount (mCreatingCount e + share t) e))
  = slack e.
Proof.
  unfold slack, owed; fields. rewrite map_app, sumZ_app; simpl. lia.
Qed.

(** A suspended call leaves the list of running calls. *)
Lemma Inv_drop (e : Engine) (i : nat) :
  Inv e -> Inv (setRunning (removeNth i (running e)) e).
Proof.
  intros [H1 H2 H3 H4 H5 H6 H8].
  constructor; fields; try assumption. now apply removeNth_Forall.
Qed.

Lemma slack_drop (e : Engine) (i : nat) (t : Task) :
  nth_error (running e) i = Some t ->
  slack (setRunning (removeNth i (running e)) e) = slack e + share t.
Proof.
  intros Hnth. unfold slack, owed; fields.
  rewrite (removeNth_sum share _ i t Hnth). lia.
Qed.

(** [wait(150).then(...)]: a decrement joins the timer queue. *)
Lemma Inv_schedule (e : Engine) (amount : Z) :
  Inv e -> 0 <= amount -> Inv (scheduleDecrement amount e).
Proof.
  intros He Ha. pose proof (fresh_not_used e He) as Hnew.
  destruct He as [H1 H2 H3 H4 H5 H6 H8].
  constructor; fields.
  - apply List.Forall_app. split.
    + eapply List.Forall_impl; [|exact H1]. simpl. intros; lia.
    + repeat constructor; simpl. lia.
  - rewrite map_app; simpl. now apply NoDup_snoc.
  - intros t Hin. apply in_app_iff in Hin as [Hin|[<-|[]]].
    + now apply H3.
    + unfold isFlush; simpl. split; [discriminate|].
      intros Hr. apply H4 in Hr. lia.
  - intros id Hr. apply H4 in Hr. lia.
  - assumption.
  - apply List.Forall_app. split; [assumption | repeat constructor; assumption].
  - apply List.Forall_app. split; [assumption|].
    repeat constructor; simpl; lia.
Qed.

Lemma slack_schedule (e : Engine) (amount : Z) :
  slack (scheduleDecrement amount e) = slack e - amount.
Proof.
  unfold slack, owed; fields. rewrite map_app, sumZ_app; simpl.
  unfold decrementOf; simpl. lia.
Qed.

Lemma removed_sum_zero (g : Timer -> Z) (id : positive) (ts : list Timer) :
  (forall t, In t ts -> t_id t = id -> g t = 0) ->
  sumZ (map g (List.filter (hasId id) ts)) = 0.
Proof.
  induction ts as [|t ts IH]; simpl; intros H; [reflexivity|].
  destruct (hasId id t) eqn:Ht; simpl.
  - rewrite IH by (intros; apply H; auto).
    rewrite (H t) by (auto; now apply Pos.eqb_eq). lia.
  - apply IH. intros; apply H; auto.
Qed.

Lemma isFlush_decrementOf (t : Timer) : isFlush t = true -> decrementOf t = 0.
Proof. unfold isFlush, decrementOf. now destruct (t_action t). Qed.

(** The callback of a decrement runs. *)
Lemma Inv_fire_decrement (e : Engine) (id : positive) (amount : Z) :
  Inv e -> Inv (setCount (mCreatingCount e - amount) (clearTimeout id e)).
Proof.
  intros [H1 H2 H3 H4 H5 H6 H8].
  constructor; fields; try assumption.
  - now apply Forall_filter_keep.
  - now apply NoDup_map_filter.
  - intros t' Hin. apply filter_keeps_In in Hin as [Hin _]. now apply H3.
  - now apply Forall_filter_keep.
  - now apply Forall_filter_keep.
Qed.

Lemma slack_fire_decrement (e : Engine) (id : positive) (t : Timer) (amount : Z) :
  Inv e -> List.find (hasId id) (timers e) = Some t ->
  t_action t = Decrement amount ->
  slack (setCount (mCreatingCount e - amount) (clearTimeout id e)) = slack e.
Proof.
  intros He Hfind Hact. unfold slack, owed; fields.
  rewrite filter_keeps_sum, (filter_hasId_unique id _ t (inv_nodup e He) Hfind); simpl.
  unfold decrementOf. rewrite Hact. lia.
Qed.

(** The debounce timer leaves the queue and the handle is reset. *)
Lemma Inv_cancel (e : Engine) (id : positive) :
  Inv e -> reserved e = Some id ->
  Inv (setReserved None (clearTimeout id e)).
Proof.
  intros [H1 H2 H3 H4 H5 H6 H8] Hres.
  constructor; fields; try assumption.
  - now apply Forall_filter_keep.
  - now apply NoDup_map_filter.
  - intros t' Hin'. apply filter_keeps_In in Hin' as [Hin' Hne].
    split; [|discriminate]. intros Hf. apply H3 in Hf; [|assumption]. congruence.
  - discriminate.
  - now apply Forall_filter_keep.
  - now apply Forall_filter_keep.
Qed.

Lemma slack_cancel (e : Engine) (id : positive) :
  Inv e -> reserved e = Some id ->
  slack (setReserved None (clearTimeout id e)) = slack e.
Proof.
  intros He Hres. unfold slack, owed; fields.
  rewrite filter_keeps_sum, removed_sum_zero; [lia|].
  intros t' Hin' Hid'. apply isFlush_decrementOf.
  apply (inv_flush e He); congruence.
Qed.

Lemma fired_flush_is_reserved (e : Engine) (id : positive) (t : Timer) :
  Inv e -> List.find (hasId id) (timers e) = Some t ->
  t_action t = Flush -> reserved e = Some id.
Proof.
  intros He Hfind Hact.
  apply find_hasId in Hfind as [Hin Hid].
  rewrite <- Hid. apply (inv_flush e He); [assumption|].
  unfold isFlush. now rewrite Hact.
Qed.

(** A debounce timer is set while none is live. *)
Lemma Inv_arm (e : Engine) :
  Inv e -> reserved e = None ->
  Inv (setReserved (Some (nextTimerId e)) (snd (setTimeout Flush 250 e))).
Proof.
  intros He Hres. pose proof (fresh_not_used e He) as Hnew.
  destruct He as [H1 H2 H3 H4 H5 H6 H8].
  constructor; fields.
  - apply List.Forall_app. split.
    + eapply List.Forall_impl; [|exact H1]. simpl. intros; lia.
    + repeat constructor; simpl. lia.
  - rewrite map_app; simpl. now apply NoDup_snoc.
  - intros t Hin. apply in_app_iff in Hin as [Hin|[<-|[]]].
    + split.
      * intros Hf. apply H3 in Hf; [congruence | assumption].
      * intros Heq. injection Heq as Heq.
        rewrite List.Forall_forall in H1. specialize (H1 t Hin). lia.
    + unfold isFlush; simpl. tauto.
  - intros id Hr. injection Hr as <-. lia.
  - assumption.
  - apply List.Forall_app. split; [assumption|].
    repeat constructor; unfold decrementOf; simpl; lia.
  - apply List.Forall_app. split; [assumption|].
    repeat constructor; simpl; [lia | discriminate].
Qed.

Lemma slack_arm (e : Engine) (r : option positive) :
  slack (setReserved r (snd (setTimeout Flush 250 e))) = slack e.
Proof.
  unfold slack, owed; fields. rewrite map_app, sumZ_app; simpl.
  unfold decrementOf; simpl. lia.
Qed.

Lemma Inv_reserve (e : Engine) : Inv e -> Inv (reserveToGroupCreatedBookmarks e).
Proof.
  intros He. unfold reserveToGroupCreatedBookmarks.
  destruct (reserved e) as [id|] eqn:Hres.
  - apply (Inv_ext _ _ eq_refl (Inv_arm _ (Inv_cancel e id He Hres) eq_refl)).
  - apply (Inv_ext _ _ eq_refl (Inv_arm e He Hres)).
Qed.

Lemma slack_reserve (e : Engine) :
  Inv e -> slack (reserveToGroupCreatedBookmarks e) = slack e.
Proof.
  intros He. unfold reserveToGroupCreatedBookmarks.
  destruct (reserved e) as [id|] eqn:Hres.
  - rewrite <- (slack_cancel e id He Hres).
    rewrite <- (slack_arm (setReserved None (clearTimeout id e)) (Some (nextTimerId e))).
    apply slack_ext. reflexivity.
  - apply slack_arm.
Qed.

(** Time passes while no callback is due. *)
Lemma Inv_tick (e : Engine) :
  Inv e -> existsb (isDue e) (timers e) = false -> Inv (setNow (S (now e)) e).
Proof.
  intros [H1 H2 H3 H4 H5 H6 H8] Hdue.
  constructor; fields; try assumption.
  rewrite List.Forall_forall in *. intros t Hin.
  destruct (H8 t Hin) as [Hlo Hhi].
  assert (Hnot : isDue e t = false).
  { destruct (isDue e t) eqn:Ht; [|reflexivity].
    assert (existsb (isDue e) (timers e) = true)
      by (apply existsb_exists; eauto).
    congruence. }
  unfold isDue in Hnot. apply Nat.leb_gt in Hnot.
  split; [lia|]. intros Hf. specialize (Hhi Hf). lia.
Qed.

(** *** One turn of the event loop *)

Lemma createAll_result folder tabs titles i e :
  snd (createAll folder tabs titles i e) =
    match folder, tabs with
    | None, _ :: _ => false
    | _, _ => true
    end.
Proof.
  revert titles i e. induction tabs as [|t ts IH]; intros titles i e; simpl.
  - now destruct folder.
  - destruct folder as [f|]; [|reflexivity].
    rewrite IH. now destruct ts.
Qed.

Lemma resume_shape (h : Host) (t : Task) (outcome : CreateOutcome) (e : Engine) :
  exists ops,
    fst (resume h t outcome e) =
      issue ops (if leaks t outcome then e else scheduleDecrement (share t) e).
Proof.
  destruct t as [|n tabs titles|bookmarks last]; simpl.
  - exists []. rewrite issue_nil. now destruct outcome.
  - unfold bookmarkTabs_resume.
    destruct outcome as [f| |]; simpl.
    + destruct (createAll_issues (Some f) tabs titles 0 e) as [ops Hops].
      pose proof (createAll_result (Some f) tabs titles 0 e) as Hr.
      destruct (createAll (Some f) tabs titles 0 e) as [e1 ok].
      simpl in Hops, Hr. subst. exists ops. now destruct tabs.
    + destruct tabs as [|t ts]; simpl.
      * exists []. now rewrite issue_nil.
      * exists []. now rewrite issue_nil.
    + exists []. rewrite issue_nil. now destruct tabs.
  - destruct (tryGroup_resume_shape h bookmarks last outcome e) as [ops Hops].
    rewrite Hops. destruct outcome; simpl; eauto.
    exists []. now rewrite issue_nil.
Qed.

Lemma bookmarkTab_begin_shape granted parent dialog tab e :
  match bookmarkTab_begin granted parent dialog tab e with
  | (e1, None) => e1 = e
  | (e1, Some t) =>
      share t = 1 /\
      exists ops, e1 = issue ops (setCount (mCreatingCount e + share t) e)
  end.
Proof.
  unfold bookmarkTab_begin.
  destruct granted; simpl; [|reflexivity].
  destruct dialog as [|r|]; simpl; eauto.
  destruct (buttonIndex r =? 0)%nat; simpl; eauto.
Qed.

Lemma bookmarkTabs_begin_shape granted parent title index dialog tabs e :
  match bookmarkTabs_begin granted parent title index dialog tabs e with
  | (e1, None) => e1 = e
  | (e1, Some t) =>
      share t = Z.of_nat (List.length tabs) + 1 /\
      exists ops, e1 = issue ops (setCount (mCreatingCount e + share t) e)
  end.
Proof.
  unfold bookmarkTabs_begin.
  destruct granted; simpl; [|reflexivity].
  destruct tabs as [|t ts]; [reflexivity|].
  destruct dialog as [|r|]; simpl; eauto.
  destruct (buttonIndex r =? 0)%nat; simpl; eauto.
Qed.

Lemma suspend_step (e : Engine) (r : Engine * option Task) :
  Inv e ->
  match r with
  | (e1, None) => e1 = e
  | (e1, Some t) =>
      0 <= share t /\
      exists ops, e1 = issue ops (setCount (mCreatingCount e + share t) e)
  end ->
  Inv (suspend r) /\ slack (suspend r) = slack e.
Proof.
  intros He. destruct r as [e1 [t|]]; simpl.
  - intros [Ht [ops ->]]. split.
    + refine (Inv_ext _ _ _ (Inv_begin e t He Ht)); reflexivity.
    + rewrite <- (slack_begin e t). now apply slack_ext.
  - intros ->. auto.
Qed.

Lemma step_keeps (e : Engine) (ev : Event) :
  Inv e -> Inv (step sha1sum e ev) /\ slack (step sha1sum e ev) = slack e + leak e ev.
Proof.
  intros He. destruct ev as [granted bookmark|d|granted parent dialog tab
                            |granted parent title index dialog tabs
                            |i outcome h|id h|]; simpl.
  - (* a bookmark was created *)
    unfold onBookmarksCreated.
    destruct (negb granted || (0 <? mCreatingCount e)); [split; [assumption|lia]|].
    assert (He' : Inv (setCreated (mCreatedBookmarks e ++ [bookmark]) e))
      by (refine (Inv_ext _ _ _ He); reflexivity).
    split; [now apply Inv_reserve|].
    rewrite (slack_reserve _ He'), Z.add_0_r. now apply slack_ext.
  - (* a drag was recorded *)
    split; [refine (Inv_ext _ _ _ He); reflexivity|].
    rewrite Z.add_0_r. now apply slack_ext.
  - (* bookmarkTab *)
    rewrite Z.add_0_r. apply suspend_step; [assumption|].
    pose proof (bookmarkTab_begin_shape granted parent dialog tab e) as Hs.
    destruct (bookmarkTab_begin granted parent dialog tab e) as [e1 [t|]];
      [|assumption].
    destruct Hs as [Ht Hops]. split; [lia | assumption].
  - (* bookmarkTabs *)
    rewrite Z.add_0_r. apply suspend_step; [assumption|].
    pose proof (bookmarkTabs_begin_shape granted parent title index dialog tabs e) as Hs.
    destruct (bookmarkTabs_begin granted parent title index dialog tabs e) as [e1 [t|]];
      [|assumption].
    destruct Hs as [Ht Hops]. split; [lia | assumption].
  - (* a creation settled *)
    destruct (nth_error (running e) i) as [t|] eqn:Hnth; [|split; [assumption|lia]].
    pose proof (Inv_drop e i He) as Hd.
    pose proof (slack_drop e i t Hnth) as Hs.
    assert (Ht : 0 <= share t).
    { pose proof (inv_share e He) as H5.
      rewrite List.Forall_forall in H5. apply H5. eapply nth_error_In; eauto. }
    destruct (resume_shape h t outcome (setRunning (removeNth i (running e)) e))
      as [ops ->].
    destruct (leaks t outcome).
    + split; [refine (Inv_ext _ _ _ Hd); reflexivity|].
      rewrite <- Hs. now apply slack_ext.
    + split; [refine (Inv_ext _ _ _ (Inv_schedule _ (share t) Hd Ht)); reflexivity|].
      rewrite Z.add_0_r.
      transitivity (slack (scheduleDecrement (share t)
                             (setRunning (removeNth i (running e)) e)));
        [now apply slack_ext|].
      rewrite slack_schedule, Hs. lia.
  - (* a timer fired *)
    rewrite Z.add_0_r.
    destruct (List.find (hasId id) (timers e)) as [t|] eqn:Hfind; [|auto].
    destruct (isDue e t); [|auto].
    unfold fire. destruct (t_action t) as [|amount] eqn:Hact.
    + pose proof (fired_flush_is_reserved e id t He Hfind Hact) as Hres.
      pose proof (Inv_cancel e id He Hres) as Hc.
      pose proof (slack_cancel e id He Hres) as Hs.
      pose proof (tryGroup_begin_shape h (setReserved None (clearTimeout id e))) as Hb.
      match goal with
      | |- context [tryGroup_begin sha1sum h ?x] =>
          change (tryGroup_begin sha1sum h x)
            with (tryGroup_begin sha1sum h (setReserved None (clearTimeout id e)))
      end.
      destruct (tryGroup_begin sha1sum h (setReserved None (clearTimeout id e)))
        as [e1 [r|bookmarks last]]; simpl in Hb.
      * subst e1. split; [refine (Inv_ext _ _ _ Hc); reflexivity|].
        rewrite <- Hs. now apply slack_ext.
      * destruct Hb as (_ & _ & first & rest & _ & ->).
        split.
        -- refine (Inv_ext _ _ _
                     (Inv_begin _ (InGroup bookmarks last) Hc ltac:(simpl; lia)));
             reflexivity.
        -- rewrite <- Hs.
           rewrite <- (slack_begin (setReserved None (clearTimeout id e))
                                   (InGroup bookmarks last)).
           now apply slack_ext.
    + split.
      * refine (Inv_ext _ _ _ (Inv_fire_decrement e id amount He)); reflexivity.
      * rewrite <- (slack_fire_decrement e id t amount He Hfind Hact).
        now apply slack_ext.
  - (* time passes *)
    rewrite Z.add_0_r.
    destruct (existsb (isDue e) (timers e)) eqn:Hdue; [auto|].
    split; [now apply Inv_tick | reflexivity].
Qed.

(** *** Runs *)

Lemma leak_nonneg (e : Engine) (ev : Event) : Inv e -> 0 <= leak e ev.
Proof.
  intros He. destruct ev; simpl; try lia.
  destruct (nth_error (running e) i) as [t|] eqn:Hnth; [|lia].
  destruct (leaks t outcome); [|lia].
  pose proof (inv_share e He) as H5.
  rewrite List.Forall_forall in H5. apply H5. eapply nth_error_In; eauto.
Qed.

Lemma leak_aborts (e : Engine) (ev : Event) : aborts e ev = false -> leak e ev = 0.
Proof.
  destruct ev; simpl; try reflexivity.
  destruct (nth_error (running e) i); [|reflexivity]. now intros ->.
Qed.

Lemma run_keeps (e : Engine) (evs : list Event) :
  Inv e ->
  Inv (run sha1sum e evs) /\
  slack (run sha1sum e evs) = slack e + leaked sha1sum e evs /\
  0 <= leaked sha1sum e evs.
Proof.
  revert e. induction evs as [|ev evs IH]; intros e He; simpl.
  - split; [assumption | split; lia].
  - destruct (step_keeps e ev He) as [He' Hs].
    destruct (IH (step sha1sum e ev) He') as (Hinv & Heq & Hle).
    pose proof (leak_nonneg e ev He).
    split; [assumption | split; lia].
Qed.

Lemma leaked_clean (e : Engine) (evs : list Event) :
  clean sha1sum e evs = true -> leaked sha1sum e evs = 0.
Proof.
  revert e. induction evs as [|ev evs IH]; intros e Hc; simpl in *; [reflexivity|].
  apply andb_true_iff in Hc as [Ha Hc]. apply negb_true_iff in Ha.
  rewrite (leak_aborts e ev Ha), (IH _ Hc). reflexivity.
Qed.

Lemma owed_nonneg (e : Engine) : Inv e -> 0 <= owed e.
Proof.
  intros He. unfold owed.
  assert (0 <= sumZ (map share (running e))).
  { apply sumZ_nonneg. apply List.Forall_map. exact (inv_share e He). }
  assert (0 <= sumZ (map decrementOf (timers e))).
  { apply sumZ_nonneg. apply List.Forall_map. exact (inv_decrement e He). }
  lia.
Qed.

Lemma reachable_Inv (evs : list Event) : Inv (run sha1sum initial evs).
Proof. apply run_keeps, Inv_initial. Qed.

(** While no call is running, the queue gets no new decrement. *)
Lemma idle_step_timers (e : Engine) (ev : Event) (t : Timer) :
  running e = [] -> running (step sha1sum e ev) = [] ->
  In t (timers (step sha1sum e ev)) -> isFlush t = false -> In t (timers e).
Proof.
  intros Hrun. destruct ev as [granted bookmark|d|granted parent dialog tab
                            |granted parent title index dialog tabs
                            |i outcome h|id h|]; simpl.
  - unfold onBookmarksCreated.
    destruct (negb granted || (0 <? mCreatingCount e)); [auto|].
    unfold reserveToGroupCreatedBookmarks. intros _.
    destruct (reserved (setCreated (mCreatedBookmarks e ++ [bookmark]) e));
      fields; intros Hin Hf; apply in_app_iff in Hin as [Hin|[<-|[]]];
      try discriminate; try assumption.
    now apply filter_keeps_In in Hin as [Hin _].
  - auto.
  - pose proof (bookmarkTab_begin_shape granted parent dialog tab e) as Hs.
    destruct (bookmarkTab_begin granted parent dialog tab e) as [e1 [t'|]]; simpl.
    + intros Hr. now destruct (running e1).
    + now subst e1.
  - pose proof (bookmarkTabs_begin_shape granted parent title index dialog tabs e) as Hs.
    destruct (bookmarkTabs_begin granted parent title index dialog tabs e)
      as [e1 [t'|]]; simpl.
    + intros Hr. now destruct (running e1).
    + now subst e1.
  - rewrite Hrun. now destruct i.
  - destruct (List.find (hasId id) (timers e)) as [u|]; [|auto].
    destruct (isDue e u); [|auto].
    unfold fire. destruct (t_action u) as [|amount].
    + pose proof (tryGroup_begin_shape h (setReserved None (clearTimeout id e))) as Hb.
      destruct (tryGroup_begin sha1sum h (setReserved None (clearTimeout id e)))
        as [e1 [r|bookmarks last]]; simpl in Hb.
      * subst e1. fields. intros _ Hin _.
        now apply filter_keeps_In in Hin as [Hin _].
      * fields. intros Hr. now destruct (running e1).
    + fields. intros _ Hin _. now apply filter_keeps_In in Hin as [Hin _].
  - destruct (existsb (isDue e) (timers e)); auto.
Qed.

Lemma idle_step_clean (e : Engine) (ev : Event) :
  running e = [] -> aborts e ev = false.
Proof.
  intros Hrun. destruct ev; simpl; try reflexivity.
  rewrite Hrun. now destruct i.
Qed.

Lemma idle_run (e : Engine) (evs : list Event) :
  running e = [] -> idle sha1sum e evs = true ->
  running (run sha1sum e evs) = [] /\
  clean sha1sum e evs = true /\
  forall t, In t (timers (run sha1sum e evs)) -> isFlush t = false -> In t (timers e).
Proof.
  revert e. induction evs as [|ev evs IH]; intros e Hrun Hidle; simpl in *.
  - auto.
  - destruct (running (step sha1sum e ev)) eqn:Hr; [|discriminate].
    destruct (IH (step sha1sum e ev) Hr Hidle) as (Hrun' & Hclean & Hsub).
    rewrite (idle_step_clean e ev Hrun). simpl.
    repeat split; try assumption.
    intros t Hin Hf. apply (idle_step_timers e ev t Hrun Hr); auto.
Qed.

Lemma sumZ_zero {A : Type} (g : A -> Z) (l : list A) :
  (forall x, In x l -> g x = 0) -> sumZ (map g l) = 0.
Proof.
  induction l as [|x l IH]; simpl; intros H; [reflexivity|].
  rewrite (H x) by auto. rewrite IH; [reflexivity|]. intros; apply H; auto.
Qed.

Lemma reachable_count (evs : list Event) :
  let e := run sha1sum initial evs in
  mCreatingCount e = owed e + leaked sha1sum initial evs /\
  0 <= owed e /\
  0 <= leaked sha1sum initial evs.
Proof.
  intros e. destruct (run_keeps initial evs Inv_initial) as (He & Heq & Hle).
  fold e in He, Heq.
  assert (Hs0 : slack initial = 0) by reflexivity.
  unfold slack in Heq, Hs0.
  split; [lia|]. split; [now apply owed_nonneg | assumption].
Qed.

(** Once no call is running and more than 150 units have passed without a
    new call, no decrement is waiting any more. *)
Lemma grace_elapsed (e : Engine) (later : list Event) :
  Inv e -> running e = [] -> idle sha1sum e later = true ->
  (now e + 150 < now (run sha1sum e later))%nat ->
  owed (run sha1sum e later) = 0.
Proof.
  intros He Hrun Hidle Htime.
  destruct (idle_run e later Hrun Hidle) as (Hrun' & _ & Hsub).
  destruct (run_keeps e later He) as (He' & _ & _).
  unfold owed. rewrite Hrun'. simpl.
  apply sumZ_zero. intros t Hin.
  destruct (isFlush t) eqn:Hf; [now apply isFlush_decrementOf|].
  exfalso.
  pose proof (inv_due e He) as Hdue. pose proof (inv_due _ He') as Hdue'.
  rewrite List.Forall_forall in Hdue, Hdue'.
  destruct (Hdue t (Hsub t Hin Hf)) as [_ Hhi]. specialize (Hhi Hf).
  destruct (Hdue' t Hin) as [Hlo _]. lia.
Qed.

(** The accounting of the counter.  It is never negative.  It is raised by
    the number of creations before they are asked for: one more than the
    number of tabs in
    [bookmarkTabs], one for the grouper's folder; once the awaited creation
    has settled and the call gets through, a decrement of exactly that amount
    is queued 150 units ahead, and firing it takes that amount off.  At any
    point of a run the counter is what the suspended calls and the waiting
    decrements account for, plus what calls ended by an exception have left
    behind; when every call got through, nothing is left behind, and the
    counter is zero as soon as no call is running and more than 150 units
    have passed since. *)
Theorem counter_is_what_is_owed_and_left_behind (evs : list Event) :
  let e := run sha1sum initial evs in
  0 <= mCreatingCount e /\
  mCreatingCount e = owed e + leaked sha1sum initial evs /\
  (clean sha1sum initial evs = true ->
   mCreatingCount e = owed e /\
   forall later,
     running e = [] -> idle sha1sum e later = true ->
     (now e + 150 < now (run sha1sum e later))%nat ->
     mCreatingCount (run sha1sum e later) = 0) /\
  (forall granted parent title index dialog tabs e0 e1 task,
     bookmarkTabs_begin granted parent title index dialog tabs e0 = (e1, Some task) ->
     share task = Z.of_nat (List.length tabs) + 1 /\
     mCreatingCount e1 = mCreatingCount e0 + share task) /\
  (forall h e0 e1 bookmarks last,
     tryGroup_begin sha1sum h e0 = (e1, AwaitingFolder bookmarks last) ->
     mCreatingCount e1 = mCreatingCount e0 + share (InGroup bookmarks last)) /\
  (forall h task outcome e0,
     leaks task outcome = false ->
     mCreatingCount (fst (resume h task outcome e0)) = mCreatingCount e0 /\
     timers (fst (resume h task outcome e0)) =
       (timers e0 ++
        [mkTimer (nextTimerId e0) (now e0 + 150) (Decrement (share task))])%list) /\
  (forall h amount e0,
     mCreatingCount (fire sha1sum h (Decrement amount) e0) = mCreatingCount e0 - amount).
Proof.
  intros e.
  destruct (reachable_count evs) as (Hcount & Howed & Hleaked).
  fold e in Hcount, Howed.
  pose proof (reachable_Inv evs) as He. fold e in He.
  split; [lia|]. split; [exact Hcount|].
  split; [|split; [|split; [|split]]].
  - intros Hc. pose proof (leaked_clean initial evs Hc) as Hzero.
    split; [lia|].
    intros later Hrun Hidle Htime.
    destruct (idle_run e later Hrun Hidle) as (_ & Hclean' & _).
    destruct (run_keeps e later He) as (_ & Hkeep & _).
    rewrite (leaked_clean e later Hclean') in Hkeep.
    pose proof (grace_elapsed e later He Hrun Hidle Htime) as Hnone.
    unfold slack in Hkeep. lia.
  - intros granted parent title index dialog tabs e0 e1 task Hbegin.
    pose proof (bookmarkTabs_begin_shape granted parent title index dialog tabs e0) as Hs.
    rewrite Hbegin in Hs. destruct Hs as [Hshare [ops ->]]. auto.
  - intros h e0 e1 bookmarks last Hbegin.
    pose proof (tryGroup_begin_shape h e0) as Hs.
    rewrite Hbegin in Hs. simpl in Hs.
    destruct Hs as (_ & _ & first & rest & _ & ->). reflexivity.
  - intros h task outcome e0 Hleak.
    destruct (resume_shape h task outcome e0) as [ops ->].
    rewrite Hleak. auto.
  - reflexivity.
Qed.

Lemma counter_nonneg_aux (evs : list Event) :
  0 <= mCreatingCount (run sha1sum initial evs).
Proof. destruct (reachable_count evs) as (Hcount & Howed & Hleaked). lia. Qed.

(** Timers of the queue that would start a flush. *)
Lemma flush_timers_reserved (e : Engine) (t : Timer) :
  Inv e -> In t (flushTimers e) -> reserved e = Some (t_id t).
Proof.
  intros He Hin. apply filter_In in Hin as [Hin Hf].
  now apply (inv_flush e He).
Qed.

Lemma same_id_at_most_one (ts : list Timer) (id : positive) :
  List.NoDup (map t_id ts) -> (forall t, In t ts -> t_id t = id) ->
  (List.length ts <= 1)%nat.
Proof.
  destruct ts as [|t [|u ts]]; simpl; intros Hnd Hid; try lia.
  exfalso. apply NoDup_cons_iff in Hnd as [Hnotin _]. apply Hnotin.
  rewrite (Hid t), (Hid u) by auto. simpl; auto.
Qed.

Lemma at_most_one_flush_timer (e : Engine) :
  Inv e -> (List.length (flushTimers e) <= 1)%nat.
Proof.
  intros He. destruct (reserved e) as [id|] eqn:Hres.
  - apply (same_id_at_most_one _ id).
    + apply NoDup_map_filter, (inv_nodup e He).
    + intros t Hin. pose proof (flush_timers_reserved e t He Hin). congruence.
  - destruct (flushTimers e) as [|t ts] eqn:Hf; simpl; [lia|].
    assert (Hin : In t (flushTimers e)) by (rewrite Hf; simpl; auto).
    pose proof (flush_timers_reserved e t He Hin). congruence.
Qed.

Lemma reserve_flush_timers (e : Engine) :
  Inv e ->
  flushTimers (reserveToGroupCreatedBookmarks e)
    = [mkTimer (nextTimerId e) (now e + 250) Flush] /\
  reserved (reserveToGroupCreatedBookmarks e) = Some (nextTimerId e) /\
  forall t, In t (flushTimers e) -> ~ In t (timers (reserveToGroupCreatedBookmarks e)).
Proof.
  intros He. unfold reserveToGroupCreatedBookmarks, flushTimers.
  pose proof (inv_fresh e He) as Hfresh. rewrite List.Forall_forall in Hfresh.
  destruct (reserved e) as [id|] eqn:Hres; fields.
  - assert (Hnone : List.filter isFlush (List.filter (keeps id) (timers e)) = []).
    { destruct (List.filter isFlush (List.filter (keeps id) (timers e)))
        as [|t ts] eqn:Hf; [reflexivity|exfalso].
      assert (Hin : In t (List.filter isFlush (List.filter (keeps id) (timers e))))
        by (rewrite Hf; simpl; auto).
      apply filter_In in Hin as [Hin Hflush].
      apply filter_keeps_In in Hin as [Hin Hne].
      apply (inv_flush e He t Hin) in Hflush. congruence. }
    rewrite List.filter_app, Hnone. simpl.
    split; [reflexivity|]. split; [reflexivity|].
    intros t Hin Hin'. apply filter_In in Hin as [Hin Hflush].
    pose proof (proj1 (inv_flush e He t Hin) Hflush) as Hid.
    apply in_app_iff in Hin' as [Hin'|[<-|[]]].
    + apply filter_keeps_In in Hin' as [_ Hne]. congruence.
    + specialize (Hfresh _ Hin). simpl in Hfresh. lia.
  - assert (Hnone : List.filter isFlush (timers e) = []).
    { destruct (List.filter isFlush (timers e)) as [|t ts] eqn:Hf; [reflexivity|exfalso].
      assert (Hin : In t (List.filter isFlush (timers e)))
        by (rewrite Hf; simpl; auto).
      apply filter_In in Hin as [Hin Hflush].
      apply (inv_flush e He t Hin) in Hflush. congruence. }
    rewrite List.filter_app, Hnone. simpl.
    split; [reflexivity|]. split; [reflexivity|].
    intros t Hin. destruct Hin.
Qed.

(** C9. At any point of a run, a created bookmark joins the pending batch
    exactly when the permission is granted and the counter is zero (the
    batch is left alone otherwise); an accepted event removes the live
    debounce timer from the queue and sets a new one 250 units ahead, kept in
    [reserved]; and the queue never holds more than one such timer. *)
Theorem bookmark_accepted_iff_granted_and_idle
    (evs : list Event) (granted : bool) (bookmark : BookmarkTreeNode) :
  let e := run sha1sum initial evs in
  let e' := onBookmarksCreated granted bookmark e in
  (mCreatedBookmarks e' = (mCreatedBookmarks e ++ [bookmark])%list <->
     granted = true /\ mCreatingCount e = 0) /\
  (mCreatedBookmarks e' = mCreatedBookmarks e \/
   mCreatedBookmarks e' = (mCreatedBookmarks e ++ [bookmark])%list) /\
  (granted = true -> mCreatingCount e = 0 ->
     flushTimers e' = [mkTimer (nextTimerId e) (now e + 250) Flush] /\
     reserved e' = Some (nextTimerId e) /\
     forall t, In t (flushTimers e) -> ~ In t (timers e')) /\
  (List.length (flushTimers e) <= 1)%nat /\
  (List.length (flushTimers e') <= 1)%nat.
Proof.
  intros e e'. pose proof (reachable_Inv evs) as He. fold e in He.
  pose proof (counter_nonneg_aux evs) as Hnonneg. fold e in Hnonneg.
  assert (He' : Inv e').
  { destruct (step_keeps e (BookmarkCreated granted bookmark) He) as [H _]. exact H. }
  assert (Hcases :
    (granted = true /\ mCreatingCount e = 0 /\
     e' = reserveToGroupCreatedBookmarks
            (setCreated (mCreatedBookmarks e ++ [bookmark]) e)) \/
    (~ (granted = true /\ mCreatingCount e = 0) /\ e' = e)).
  { unfold e', onBookmarksCreated.
    destruct granted; simpl.
    - destruct (0 <? mCreatingCount e) eqn:Hc.
      + right. apply Z.ltb_lt in Hc. split; [lia | reflexivity].
      + left. apply Z.ltb_ge in Hc. repeat split; lia.
    - right. split; [intros [? _]; discriminate | reflexivity]. }
  assert (Hbatch : forall x,
            mCreatedBookmarks (reserveToGroupCreatedBookmarks x) = mCreatedBookmarks x).
  { intros x. unfold reserveToGroupCreatedBookmarks. now destruct (reserved x). }
  split; [|split; [|split; [|split]]].
  - destruct Hcases as [(Hg & Hc & ->)|[Hno ->]].
    + rewrite Hbatch. simpl. tauto.
    + split; [|tauto]. intros Heq. apply (f_equal (@List.length _)) in Heq.
      rewrite length_app in Heq. simpl in Heq. lia.
  - destruct Hcases as [(Hg & Hc & ->)|[Hno ->]]; [right | left; reflexivity].
    now rewrite Hbatch.
  - intros Hg Hc. destruct Hcases as [(_ & _ & ->)|[Hno _]]; [|tauto].
    assert (Hx : Inv (setCreated (mCreatedBookmarks e ++ [bookmark]) e))
      by (refine (Inv_ext _ _ _ He); reflexivity).
    exact (reserve_flush_timers _ Hx).
  - now apply at_most_one_flush_timer.
  - now apply at_most_one_flush_timer.
Qed.

End Facts.

(** *** Concrete flushes *)

Lemma flush_clears_record_and_aborts_on_mismatch_witness :
  let e := setDragged (Some (mkDragged [1; 2; 3]%nat "stale")) collectedABC in
  let h := hostWith tabA [sibling1; bookmarkA; bookmarkB; bookmarkC; sibling2] in
  lastDraggedTabs (fst (tryGroupCreatedBookmarks plainDigest h (Created newFolder) e)) = None /\
  issued (fst (tryGroupCreatedBookmarks plainDigest h (Created newFolder) e)) = [].
Proof.
  intros e h.
  destruct (flush_clears_record_and_aborts_on_mismatch plainDigest h (Created newFolder) e)
    as [Hclear Hmismatch].
  split; [exact Hclear|].
  destruct (Hmismatch (mkDragged [1; 2; 3]%nat "stale")) as [_ Hissued].
  - reflexivity.
  - vm_compute. discriminate.
  - exact Hissued.
Defined.

Lemma flush_without_record_throws_witness :
  let e := setDragged None collectedABC in
  let h := hostWith tabA [sibling1; bookmarkA; bookmarkB; bookmarkC; sibling2] in
  snd (tryGroupCreatedBookmarks plainDigest h (Created newFolder) e) = Rejected /\
  issued (fst (tryGroupCreatedBookmarks plainDigest h (Created newFolder) e)) = [].
Proof.
  intros e h.
  destruct (flush_without_record_throws plainDigest h (Created newFolder) e)
    as (Hr & _ & _ & Hi & _).
  - reflexivity.
  - split; [exact Hr | exact Hi].
Defined.

Lemma flush_groups_parent_and_two_children_witness :
  issued (fst (tryGroupCreatedBookmarks plainDigest (hostWith tabA fiveChildren)
                 (Created newFolder) collectedABC)) =
    [OpCreate (mkCreate true (Some "toolbar") (Some 1%nat) "A" None);
     OpMove "a" "f" 0; OpMove "b" "f" 1; OpMove "c" "f" 2;
     OpUpdate "b" "> B"; OpUpdate "c" "> C"].
Proof.
  refine (proj2 (flush_groups_parent_and_two_children plainDigest
            (hostWith tabA fiveChildren) collectedABC
            bookmarkA bookmarkB bookmarkC newFolder draggedABC
            1%nat 2%nat 3%nat tabA tabB tabC fiveChildren 0%nat
            eq_refl eq_refl eq_refl eq_refl eq_refl eq_refl eq_refl
            _ eq_refl eq_refl eq_refl eq_refl eq_refl eq_refl
            eq_refl eq_refl eq_refl eq_refl)).
  simpl. lia.
Defined.

(** C2 as stated fails when the first dragged tab is a group tab: tabs at
    depths 0, 1, 1, a matching batch of three under a parent with two more
    children, and yet the first bookmark is removed and the two others
    keep their titles without a marker. *)
Lemma flush_with_group_tab_removes_first_bookmark :
  map levelOf [groupTabA; tabB; tabC] = [0; 1; 1]%nat /\
  digestOf plainDigest (mCreatedBookmarks collectedABC) = urlsDigest draggedABC /\
  issued (fst (tryGroupCreatedBookmarks plainDigest (hostWith groupTabA fiveChildren)
                 (Created newFolder) collectedABC)) =
    [OpCreate (mkCreate true (Some "toolbar") (Some 1%nat) "A" None);
     OpMove "a" "f" 0; OpMove "b" "f" 1; OpMove "c" "f" 2;
     OpRemove "a"].
Proof. repeat split. Qed.

(** C3 as stated fails: the parent's child count (1) does not exceed the
    size of the batch (2), and the flush still asks for a folder and starts
    moving. *)
Lemma flush_groups_when_parent_has_fewer_children :
  getChildren hostAfterDeletion "toolbar" = Some [bookmarkB] /\
  ~ (List.length (mCreatedBookmarks collectedAB) < List.length [bookmarkB])%nat /\
  issued (fst (tryGroupCreatedBookmarks plainDigest hostAfterDeletion
                 (Created newFolder) collectedAB)) =
    [OpCreate (mkCreate true (Some "toolbar") (Some 1%nat) "A" None);
     OpMove "a" "f" 0].
Proof.
  split; [reflexivity|]. split; [|reflexivity].
  vm_compute. intros H. repeat (apply le_S_n in H). inversion H.
Qed.

Lemma flush_mutates_only_past_guards_witness :
  (exists children,
     getChildren hostAfterDeletion "toolbar" = Some children /\
     List.length children <> 2%nat) /\
  tryGroupCreatedBookmarks plainDigest (hostWith tabA fiveChildren) (Created newFolder)
    (run plainDigest initial
       [DragRecorded (mkDragged [1%nat] (digestOf plainDigest [bookmarkA]));
        BookmarkCreated true bookmarkA])
  = (mkEngine 0 [] (Some 1%positive) None 0 2%positive
              [mkTimer 1%positive 250 Flush] [] [], Fulfilled).
Proof.
  split.
  - destruct (flush_mutates_only_past_guards plainDigest hostAfterDeletion
                (Created newFolder) collectedAB) as [Honly _].
    destruct Honly as (_ & _ & last & first & rest & children & _ & _ & Hb & Hc & Hn).
    + vm_compute. discriminate.
    + exists children. injection Hb as <- _. split; [exact Hc | exact Hn].
  - destruct (flush_mutates_only_past_guards plainDigest (hostWith tabA fiveChildren)
                (Created newFolder)
                (run plainDigest initial
                   [DragRecorded (mkDragged [1%nat] (digestOf plainDigest [bookmarkA]));
                    BookmarkCreated true bookmarkA])) as [_ Hguard].
    apply (Hguard (mkDragged [1%nat] (digestOf plainDigest [bookmarkA]))).
    + reflexivity.
    + left. vm_compute. lia.
Defined.

Lemma counter_is_what_is_owed_and_left_behind_witness :
  mCreatingCount (run plainDigest initial groupingRun) = 1 /\
  mCreatingCount (run plainDigest (run plainDigest initial groupingRun) graceRun) = 0.
Proof.
  split; [reflexivity|].
  destruct (counter_is_what_is_owed_and_left_behind plainDigest groupingRun)
    as (_ & _ & Hclean & _).
  destruct Hclean as [_ Hzero]; [reflexivity|].
  apply Hzero.
  - reflexivity.
  - reflexivity.
  - vm_compute. lia.
Defined.

(** The path on which nothing is given back: when the folder of
    [bookmarkTabs] cannot be created, [folder.id] throws before [wait(150)]
    is reached, and the two
    units added to the counter stay, however long one waits. *)
Lemma failed_folder_leaves_counter_raised :
  clean plainDigest initial failedFolderRun = false /\
  leaked plainDigest initial failedFolderRun = 2 /\
  mCreatingCount (run plainDigest initial (failedFolderRun ++ repeat Tick 200)) = 2 /\
  timers (run plainDigest initial (failedFolderRun ++ repeat Tick 200)) = [].
Proof. repeat split. Qed.

Lemma bookmark_accepted_iff_granted_and_idle_witness :
  let e := run plainDigest initial [DragRecorded draggedABC; BookmarkCreated true bookmarkA] in
  flushTimers (onBookmarksCreated true bookmarkB e)
    = [mkTimer 2%positive 250 Flush] /\
  mCreatedBookmarks (onBookmarksCreated true bookmarkB e) = [bookmarkA; bookmarkB].
Proof.
  intros e.
  destruct (bookmark_accepted_iff_granted_and_idle plainDigest
              [DragRecorded draggedABC; BookmarkCreated true bookmarkA]
              true bookmarkB) as (Hiff & _ & Htimer & _).
  split.
  - destruct Htimer as [Hflush _]; [reflexivity | reflexivity | exact Hflush].
  - apply Hiff. split; reflexivity.
Defined.

(** ** Further properties of the module *)

Section More.

Variable sha1sum : string -> string.

Ltac fields :=
  cbn [mCreatingCount mCreatedBookmarks reserved now nextTimerId timers running
       setCount setReserved setTimers setRunning setNow setCreated setDragged
       issue scheduleDecrement setTimeout clearTimeout fst snd] in *.

(** *** Text for the dialogs *)

Lemma append_cons (x : ascii) (a b : string) : String x a ++ b = String x (a ++ b).
Proof. reflexivity. Qed.

Lemma append_assoc (a b c : string) : (a ++ b) ++ c = a ++ (b ++ c).
Proof.
  induction a as [|x a IH]; [reflexivity|].
  rewrite !append_cons. now rewrite IH.
Qed.

Lemma replaceChar_app (c : ascii) (entity a b : string) :
  replaceChar c entity (a ++ b)
  = replaceChar c entity a ++ replaceChar c entity b.
Proof.
  induction a as [|x a IH]; [reflexivity|].
  rewrite append_cons. cbn [replaceChar]. rewrite IH.
  destruct (Ascii.eqb x c); [now rewrite append_assoc | reflexivity].
Qed.

Lemma sanitize_char (x : ascii) :
  sanitizeForHTMLText (String x "") = entityOf x.
Proof.
  unfold sanitizeForHTMLText, entityOf. cbn [replaceChar].
  destruct (Ascii.eqb x "&") eqn:Hamp.
  - reflexivity.
  - cbn [replaceChar]. destruct (Ascii.eqb x "<") eqn:Hlt; [reflexivity|].
    cbn [replaceChar]. destruct (Ascii.eqb x ">") eqn:Hgt; reflexivity.
Qed.

Lemma sanitize_app (a b : string) :
  sanitizeForHTMLText (a ++ b) = sanitizeForHTMLText a ++ sanitizeForHTMLText b.
Proof. unfold sanitizeForHTMLText. now rewrite !replaceChar_app. Qed.

Lemma sanitize_step (x : ascii) (rest : string) :
  sanitizeForHTMLText (String x rest) = entityOf x ++ sanitizeForHTMLText rest.
Proof.
  change (String x rest) with (String x "" ++ rest).
  now rewrite sanitize_app, sanitize_char.
Qed.

(** The three replacements of [sanitizeForHTMLText], done one after the
    other on the whole text, amount to replacing each character on its own:
    the ampersand, the two angle brackets by their entities, any other
    character by itself.  In particular the ampersand of an entity written
    by an earlier replacement is not escaped again, and the text is
    sanitized piece by piece. *)
Theorem sanitize_replaces_each_character (x : ascii) (rest a b : string) :
  sanitizeForHTMLText "" = "" /\
  sanitizeForHTMLText (String x rest) = entityOf x ++ sanitizeForHTMLText rest /\
  sanitizeForHTMLText (a ++ b) = sanitizeForHTMLText a ++ sanitizeForHTMLText b.
Proof.
  split; [reflexivity|]. split; [apply sanitize_step | apply sanitize_app].
Qed.

Lemma occurs_app (c : ascii) (a b : string) :
  occurs c (a ++ b) = occurs c a || occurs c b.
Proof.
  induction a as [|x a IH]; [reflexivity|].
  rewrite append_cons. cbn [occurs]. rewrite IH. now rewrite orb_assoc.
Qed.

Lemma entityOf_clean (x : ascii) :
  occurs "<" (entityOf x) = false /\ occurs ">" (entityOf x) = false.
Proof.
  unfold entityOf.
  destruct (Ascii.eqb x "&"); [split; reflexivity|].
  destruct (Ascii.eqb x "<") eqn:Hlt; [split; reflexivity|].
  destruct (Ascii.eqb x ">") eqn:Hgt; [split; reflexivity|].
  cbn [occurs]. rewrite Hlt, Hgt. split; reflexivity.
Qed.

(** A sanitized text holds no angle bracket, and a text without any of the
    three characters is left as it is. *)
Theorem sanitize_leaves_no_markup (text : string) :
  occurs "<" (sanitizeForHTMLText text) = false /\
  occurs ">" (sanitizeForHTMLText text) = false /\
  (occurs "&" text = false -> occurs "<" text = false -> occurs ">" text = false ->
   sanitizeForHTMLText text = text).
Proof.
  induction text as [|x rest (IHlt & IHgt & IHsame)].
  - repeat split.
  - rewrite sanitize_step, !occurs_app, IHlt, IHgt.
    destruct (entityOf_clean x) as [-> ->].
    split; [reflexivity|]. split; [reflexivity|].
    cbn [occurs]. intros Hamp Hlt Hgt.
    apply orb_false_iff in Hamp as [Ha Hamp], Hlt as [Hl Hlt], Hgt as [Hg Hgt].
    rewrite IHsame by assumption. unfold entityOf. now rewrite Ha, Hl, Hg.
Qed.

Lemma unescape_entity (x : ascii) (rest : string) :
  unescape (entityOf x ++ rest) = String x (unescape rest).
Proof.
  unfold entityOf.
  destruct (Ascii.eqb x "&") eqn:Hamp.
  { apply Ascii.eqb_eq in Hamp. subst x. reflexivity. }
  destruct (Ascii.eqb x "<") eqn:Hlt.
  { apply Ascii.eqb_eq in Hlt. subst x. reflexivity. }
  destruct (Ascii.eqb x ">") eqn:Hgt.
  { apply Ascii.eqb_eq in Hgt. subst x. reflexivity. }
  rewrite append_cons. change ("" ++ rest) with rest.
  destruct x as [b0 b1 b2 b3 b4 b5 b6 b7].
  destruct b0, b1, b2, b3, b4, b5, b6, b7; try reflexivity; discriminate.
Qed.

Lemma unescape_sanitize (text : string) :
  unescape (sanitizeForHTMLText text) = text.
Proof.
  induction text as [|x rest IH]; [reflexivity|].
  now rewrite sanitize_step, unescape_entity, IH.
Qed.

(** Sanitizing loses nothing: two texts that are sanitized to the same
    text are the same. *)
Theorem sanitize_injective (a b : string) :
  sanitizeForHTMLText a = sanitizeForHTMLText b -> a = b.
Proof.
  intros H. apply (f_equal unescape) in H. now rewrite !unescape_sanitize in H.
Qed.

(** *** Titles *)

Lemma fold_min_le (l : list nat) (a : nat) :
  (fold_left Nat.min l a <= a)%nat /\
  (forall x, In x l -> fold_left Nat.min l a <= x)%nat /\
  (fold_left Nat.min l a = a \/ In (fold_left Nat.min l a) l).
Proof.
  revert a. induction l as [|y l IH]; intros a; simpl.
  - repeat split; [lia | contradiction | auto].
  - destruct (IH (Nat.min a y)) as (Hle & Hall & Hin).
    split; [lia|]. split.
    + intros x [<-|Hx]; [lia | now apply Hall].
    + destruct Hin as [Heq|Hin]; [|auto].
      rewrite Heq. destruct (Nat.min_spec a y) as [[_ ->]|[_ ->]]; auto.
Qed.

Lemma fold_min_shift (k : nat) (l : list nat) (a : nat) :
  fold_left Nat.min (map (fun x => x + k)%nat l) (a + k)%nat
  = (fold_left Nat.min l a + k)%nat.
Proof.
  revert a. induction l as [|y l IH]; intros a; simpl; [reflexivity|].
  rewrite <- IH. f_equal. lia.
Qed.

Lemma minLevel_bound (tabs : list Tab) (t : Tab) :
  In t tabs -> (minLevel tabs <= levelOf t)%nat.
Proof.
  destruct tabs as [|first rest]; simpl; [contradiction|].
  destruct (fold_min_le (map levelOf rest) (levelOf first)) as (Hle & Hall & _).
  intros [<-|Hin]; [exact Hle|]. apply Hall. now apply in_map.
Qed.

Lemma minLevel_attained (tabs : list Tab) :
  tabs <> [] -> exists t, In t tabs /\ levelOf t = minLevel tabs.
Proof.
  destruct tabs as [|first rest]; [congruence|]. intros _. simpl.
  destruct (fold_min_le (map levelOf rest) (levelOf first)) as (_ & _ & [Heq|Hin]).
  - exists first. auto.
  - apply in_map_iff in Hin as [t [Ht Hin]]. exists t. auto.
Qed.

Lemma markers_empty (n : nat) : String.eqb (markers n) "" = (n =? 0)%nat.
Proof. now destruct n. Qed.

Lemma dropMarkers_markers (n : nat) (title : string) :
  dropMarkers (markers n ++ " " ++ title) = " " ++ title.
Proof. induction n as [|n IH]; [reflexivity|]. simpl markers. rewrite append_cons. exact IH. Qed.

Lemma strip_markers (n : nat) (title : string) :
  stripMarkerPrefix (markers (S n) ++ " " ++ title) = title.
Proof.
  simpl markers. rewrite append_cons. unfold stripMarkerPrefix.
  now rewrite dropMarkers_markers.
Qed.

(** [getTitlesWithTreeStructure] gives one title per tab, in the order of
    the tabs.  No tab is above the least level, which one of the tabs has;
    a tab at the least level gets its own title, a marker-like prefix
    removed, and a tab below gets one marker for each level of depth, a
    space, and its own title unchanged. *)
Theorem titles_mark_depth (tabs : list Tab) :
  List.length (getTitlesWithTreeStructure tabs) = List.length tabs /\
  (forall i tab,
     nth_error tabs i = Some tab ->
     (minLevel tabs <= levelOf tab)%nat /\
     nth_error (getTitlesWithTreeStructure tabs) i =
       Some (if (levelOf tab =? minLevel tabs)%nat
             then stripMarkerPrefix (tab_title tab)
             else markers (levelOf tab - minLevel tabs) ++ " " ++ tab_title tab)) /\
  (tabs <> [] -> exists tab, In tab tabs /\ levelOf tab = minLevel tabs).
Proof.
  split; [unfold getTitlesWithTreeStructure; apply length_map|].
  split; [|apply minLevel_attained].
  intros i tab Hnth.
  assert (Hle : (minLevel tabs <= levelOf tab)%nat)
    by (eapply minLevel_bound, nth_error_In; eauto).
  split; [exact Hle|].
  unfold getTitlesWithTreeStructure. rewrite nth_error_map, Hnth. simpl. f_equal.
  unfold titleWithTreeStructure. rewrite markers_empty.
  destruct (levelOf tab =? minLevel tabs)%nat eqn:Heq.
  - apply Nat.eqb_eq in Heq. replace (levelOf tab - minLevel tabs)%nat with 0%nat by lia.
    reflexivity.
  - apply Nat.eqb_neq in Heq.
    destruct (levelOf tab - minLevel tabs)%nat eqn:Hd; [lia | reflexivity].
Qed.

(** Only the depth of the tabs relative to each other matters: the same
    tabs, all [k] levels deeper, get the same titles. *)
Theorem titles_of_deeper_tabs (k : nat) (tabs : list Tab) :
  getTitlesWithTreeStructure (map (deeper k) tabs) = getTitlesWithTreeStructure tabs.
Proof.
  unfold getTitlesWithTreeStructure. rewrite map_map.
  assert (Hmin : tabs <> [] -> minLevel (map (deeper k) tabs) = (minLevel tabs + k)%nat).
  { destruct tabs as [|first rest]; [congruence|]. intros _. simpl.
    rewrite map_map. simpl.
    rewrite <- (fold_min_shift k (map levelOf rest) (levelOf first)).
    now rewrite map_map. }
  destruct tabs as [|first rest]; [reflexivity|].
  rewrite Hmin by discriminate.
  apply map_ext. intros t. unfold titleWithTreeStructure.
  change (levelOf (deeper k t)) with (levelOf t + k)%nat.
  change (tab_title (deeper k t)) with (tab_title t).
  replace (levelOf t + k - (minLevel (first :: rest) + k))%nat
    with (levelOf t - minLevel (first :: rest))%nat by lia.
  reflexivity.
Qed.

(** The title computed for a tab below the least level starts with a
    marker, and removing the marker prefix from it gives the tab's own title
    back, whatever that title is. *)
Theorem marked_title_reads_back (m : nat) (tab : Tab) :
  (m < levelOf tab)%nat ->
  startsWithMarker (titleWithTreeStructure m tab) = true /\
  stripMarkerPrefix (titleWithTreeStructure m tab) = tab_title tab.
Proof.
  intros Hdeep. unfold titleWithTreeStructure. rewrite markers_empty.
  destruct (levelOf tab - m)%nat as [|n] eqn:Hd; [lia|]. simpl Nat.eqb. cbv iota.
  split; [reflexivity | apply strip_markers].
Qed.

(** *** More about one flush *)

Lemma moveAll_without_folder (h : Host) bookmarks n e :
  bookmarks <> [] -> moveAll h None bookmarks n e = (e, false).
Proof. destruct bookmarks; [congruence | reflexivity]. Qed.

Lemma moveAll_all (h : Host) (f : BookmarkTreeNode) bookmarks n e :
  (forall b, In b bookmarks -> moveSucceeds h (bk_id b) = true) ->
  moveAll h (Some f) bookmarks n e = (issue (movesInto (bk_id f) bookmarks n) e, true).
Proof.
  revert n e. induction bookmarks as [|b rest IH]; intros n e Hall; simpl.
  - now rewrite issue_nil.
  - rewrite (Hall b) by (simpl; auto).
    rewrite IH by (intros; apply Hall; simpl; auto).
    now rewrite issue_issue.
Qed.

Lemma moveAll_prefix (h : Host) (f : BookmarkTreeNode) bookmarks n e :
  exists k,
    (k <= List.length bookmarks)%nat /\
    fst (moveAll h (Some f) bookmarks n e)
      = issue (firstn k (movesInto (bk_id f) bookmarks n)) e /\
    (snd (moveAll h (Some f) bookmarks n e) = true -> k = List.length bookmarks) /\
    (snd (moveAll h (Some f) bookmarks n e) = false -> (k <= List.length bookmarks)%nat /\
       exists b, nth_error bookmarks (k - 1) = Some b /\ (1 <= k)%nat /\
                 moveSucceeds h (bk_id b) = false).
Proof.
  revert n e. induction bookmarks as [|b rest IH]; intros n e; simpl.
  - exists 0%nat. rewrite issue_nil. repeat split; auto; discriminate.
  - destruct (moveSucceeds h (bk_id b)) eqn:Hb.
    + destruct (IH (S n) (issue [OpMove (bk_id b) (bk_id f) n] e))
        as (k & Hk & Hfst & Htrue & Hfalse).
      exists (S k). rewrite Hfst, issue_issue. simpl.
      split; [lia|]. split; [reflexivity|]. split.
      * intros Hs. now rewrite (Htrue Hs).
      * intros Hs. destruct (Hfalse Hs) as (Hle & b' & Hnth & Hpos & Hfail).
        split; [lia|]. exists b'. replace (k - 0)%nat with (S (k - 1)) by lia.
        simpl. auto with arith.
    + exists 1%nat. simpl. split; [lia|]. split; [reflexivity|].
      split; [discriminate|]. intros _. split; [lia|]. exists b. auto.
Qed.

Lemma movesInto_moves (folder : string) bookmarks n :
  Forall (fun op => isMove op = true /\
                    exists b, In b bookmarks /\ targetOf op = Some (bk_id b))
         (movesInto folder bookmarks n).
Proof.
  revert n. induction bookmarks as [|b rest IH]; intros n; simpl; constructor.
  - split; [reflexivity|]. exists b. simpl; auto.
  - eapply List.Forall_impl; [|apply IH]. simpl.
    intros op (Hm & b' & Hin & Ht). split; [assumption|]. exists b'. auto.
Qed.

Lemma saveTitles_ops bookmarks tabs titles e :
  exists ops,
    fst (saveTitles bookmarks tabs titles e) = issue ops e /\
    Forall (retitles bookmarks) ops.
Proof.
  revert tabs titles e.
  induction bookmarks as [|b rest IH]; intros tabs titles e; simpl.
  - exists []. rewrite issue_nil. auto.
  - destruct tabs as [|t ts]; [exists []; rewrite issue_nil; auto|].
    destruct titles as [|title titles']; [exists []; rewrite issue_nil; auto|].
    assert (Hweak : forall ops, Forall (retitles rest) ops ->
                                Forall (retitles (b :: rest)) ops).
    { intros ops. apply List.Forall_impl.
      intros op (Hm & Hc & b' & Hin & Ht). repeat split; auto.
      exists b'. simpl; auto. }
    destruct (String.eqb title (tab_title t)).
    + destruct (IH ts titles' e) as (ops & Hops & Hall). exists ops. auto.
    + destruct (IH ts titles' (issue [OpUpdate (bk_id b) title] e))
        as (ops & Hops & Hall).
      exists (OpUpdate (bk_id b) title :: ops). rewrite Hops, issue_issue.
      split; [reflexivity|]. constructor; [|auto].
      repeat split. exists b. simpl; auto.
Qed.

Lemma retitle_ops (h : Host) bookmarks last e :
  exists ops,
    fst (retitle h bookmarks last e) = issue ops e /\
    Forall (retitles bookmarks) ops.
Proof.
  unfold retitle.
  destruct (mapM (Tab_get h) (tabIds last)) as [tabs|];
    [|exists []; rewrite issue_nil; auto].
  destruct tabs as [|first restTabs]; [exists []; rewrite issue_nil; auto|].
  destruct (tab_isGroupTab first && _).
  - destruct bookmarks as [|b0 restBookmarks]; [exists []; rewrite issue_nil; auto|].
    destruct (saveTitles_ops restBookmarks restTabs
                (getTitlesWithTreeStructure restTabs)
                (issue [OpRemove (bk_id b0)] e)) as (ops & Hops & Hall).
    exists (OpRemove (bk_id b0) :: ops). rewrite Hops, issue_issue.
    split; [reflexivity|]. constructor.
    + repeat split. exists b0. simpl; auto.
    + eapply List.Forall_impl; [|exact Hall].
      intros op (Hm & Hc & b' & Hin & Ht). repeat split; auto.
      exists b'. simpl; auto.
  - apply saveTitles_ops.
Qed.

Lemma retitle_missing_tab (h : Host) bookmarks last e :
  Exists (fun id => Tab_get h id = None) (tabIds last) ->
  retitle h bookmarks last e = (e, Rejected).
Proof. intros Hmiss. unfold retitle. now rewrite (mapM_None_2 _ _ Hmiss). Qed.

Lemma issued_issue ops e : issued (issue ops e) = (issued e ++ ops)%list.
Proof. reflexivity. Qed.

Lemma resumed_flush_ops
    (h : Host) (bookmarks : list BookmarkTreeNode) (last : DraggedTabs)
    (f : BookmarkTreeNode) (e : Engine) :
  exists ops,
    fst (tryGroup_resume h bookmarks last (Created f) e)
    = issue ops (scheduleDecrement 1 e) /\
    Forall (fun op => isCreate op = false /\
                      exists b, In b bookmarks /\ targetOf op = Some (bk_id b)) ops.
Proof.
  unfold tryGroup_resume. simpl folderOf.
  destruct (moveAll_prefix h f bookmarks 0 (scheduleDecrement 1 e))
    as (k & _ & Hfst & _ & _).
  assert (Hmoves :
    Forall (fun op => isCreate op = false /\
                      exists b, In b bookmarks /\ targetOf op = Some (bk_id b))
           (firstn k (movesInto (bk_id f) bookmarks 0))).
  { pose proof (movesInto_moves (bk_id f) bookmarks 0) as Hall.
    rewrite List.Forall_forall in Hall. apply List.Forall_forall.
    intros op Hin.
    assert (Hin' : In op (movesInto (bk_id f) bookmarks 0)).
    { rewrite <- (firstn_skipn k). apply in_or_app. now left. }
    destruct (Hall op Hin') as (Hm & Hb). split; [|assumption].
    now destruct op. }
  destruct (moveAll h (Some f) bookmarks 0 (scheduleDecrement 1 e)) as [e2 ok].
  simpl in Hfst. subst e2.
  destruct ok.
  - destruct (retitle_ops h bookmarks last
                (issue (firstn k (movesInto (bk_id f) bookmarks 0))
                       (scheduleDecrement 1 e))) as (ops & Hops & Hret).
    exists (firstn k (movesInto (bk_id f) bookmarks 0) ++ ops)%list.
    rewrite Hops, issue_issue. split; [reflexivity|].
    apply List.Forall_app. split; [exact Hmoves|].
    eapply List.Forall_impl; [|exact Hret]. intros op (_ & Hc & Hb). auto.
  - exists (firstn k (movesInto (bk_id f) bookmarks 0)).
    split; [reflexivity | exact Hmoves].
Qed.

Lemma moveAll_first_failure (h : Host) (f : BookmarkTreeNode) bookmarks n e i b :
  nth_error bookmarks i = Some b -> moveSucceeds h (bk_id b) = false ->
  (forall j b', (j < i)%nat -> nth_error bookmarks j = Some b' ->
                moveSucceeds h (bk_id b') = true) ->
  moveAll h (Some f) bookmarks n e
  = (issue (firstn (S i) (movesInto (bk_id f) bookmarks n)) e, false).
Proof.
  revert n e i. induction bookmarks as [|b0 rest IH]; intros n e i Hnth Hfail Hbefore.
  - destruct i; discriminate.
  - destruct i as [|i]; simpl in Hnth.
    + injection Hnth as ->. simpl. now rewrite Hfail.
    + cbn [moveAll movesInto].
      rewrite (Hbefore 0%nat b0) by (simpl; auto; lia).
      rewrite (IH (S n) _ i Hnth Hfail).
      * change (firstn (S (S i)) (OpMove (bk_id b0) (bk_id f) n
                                    :: movesInto (bk_id f) rest (S n)))
          with (OpMove (bk_id b0) (bk_id f) n
                  :: firstn (S i) (movesInto (bk_id f) rest (S n))).
        now rewrite issue_issue.
      * intros j b' Hj Hb'. apply (Hbefore (S j) b'); [lia | exact Hb'].
Qed.

(** Once the folder is there, the flush asks for the bookmarks of the batch
    to be moved into it one after the other, in the order of the batch, to
    the indexes 0, 1, 2, ....  When every move succeeds, all of them are
    asked for, the flush goes on with the titles, and what it asks for after
    the moves only renames or removes bookmarks of the batch.  When a move
    fails, be it the last one, the flush ends there by an exception: the
    moves up to the first failing one are all that is asked for. *)
Theorem resumed_flush_moves_in_order
    (h : Host) (bookmarks : list BookmarkTreeNode) (last : DraggedTabs)
    (f : BookmarkTreeNode) (e : Engine) :
  ((forall b, In b bookmarks -> moveSucceeds h (bk_id b) = true) ->
   tryGroup_resume h bookmarks last (Created f) e
   = retitle h bookmarks last
       (issue (movesInto (bk_id f) bookmarks 0) (scheduleDecrement 1 e)) /\
   exists rest,
     issued (fst (tryGroup_resume h bookmarks last (Created f) e))
     = (issued e ++ movesInto (bk_id f) bookmarks 0 ++ rest)%list /\
     Forall (retitles bookmarks) rest) /\
  (forall i b,
     nth_error bookmarks i = Some b -> moveSucceeds h (bk_id b) = false ->
     (forall j b', (j < i)%nat -> nth_error bookmarks j = Some b' ->
                   moveSucceeds h (bk_id b') = true) ->
     tryGroup_resume h bookmarks last (Created f) e
     = (issue (firstn (S i) (movesInto (bk_id f) bookmarks 0))
              (scheduleDecrement 1 e),
        Rejected)).
Proof.
  split.
  - intros Hall. unfold tryGroup_resume. simpl folderOf.
    rewrite (moveAll_all h f bookmarks 0 _ Hall).
    split; [reflexivity|].
    destruct (retitle_ops h bookmarks last
                (issue (movesInto (bk_id f) bookmarks 0) (scheduleDecrement 1 e)))
      as (ops & Hops & Hret).
    exists ops. rewrite Hops, !issued_issue. simpl issued.
    split; [now rewrite app_assoc | exact Hret].
  - intros i b Hnth Hfail Hbefore. unfold tryGroup_resume. simpl folderOf.
    now rewrite (moveAll_first_failure h f bookmarks 0 _ i b Hnth Hfail Hbefore).
Qed.

(** When the creation of the folder fails, quietly or not, the flush ends
    by an exception at the first move, [folder.id] being read of
    [undefined]: it has asked for nothing, and the counter keeps the unit
    the flush added. *)
Theorem resumed_flush_without_folder
    (h : Host) (bookmarks : list BookmarkTreeNode) (last : DraggedTabs)
    (outcome : CreateOutcome) (e : Engine) :
  folderOf outcome = None -> bookmarks <> [] ->
  snd (tryGroup_resume h bookmarks last outcome e) = Rejected /\
  issued (fst (tryGroup_resume h bookmarks last outcome e)) = issued e /\
  mCreatingCount (fst (tryGroup_resume h bookmarks last outcome e)) = mCreatingCount e.
Proof.
  intros Hnone Hne. unfold tryGroup_resume.
  destruct outcome as [f| |]; [discriminate | | auto].
  simpl folderOf. now rewrite moveAll_without_folder.
Qed.

(** When one of the dragged tabs is gone by the time the bookmarks are
    moved, the flush moves all the bookmarks and then ends by an exception:
    no bookmark is renamed or removed. *)
Theorem resumed_flush_with_missing_tab
    (h : Host) (bookmarks : list BookmarkTreeNode) (last : DraggedTabs)
    (f : BookmarkTreeNode) (e : Engine) :
  (forall b, In b bookmarks -> moveSucceeds h (bk_id b) = true) ->
  Exists (fun id => Tab_get h id = None) (tabIds last) ->
  tryGroup_resume h bookmarks last (Created f) e
  = (issue (movesInto (bk_id f) bookmarks 0) (scheduleDecrement 1 e), Rejected).
Proof.
  intros Hall Hmiss. unfold tryGroup_resume. simpl folderOf.
  rewrite (moveAll_all h f bookmarks 0 _ Hall).
  now apply retitle_missing_tab.
Qed.

(** Whatever the outcome, a flush empties the batch, asks for at most one
    creation, and moves, renames or removes no bookmark other than those of
    the batch it found. *)
Theorem flush_touches_only_its_batch
    (h : Host) (outcome : CreateOutcome) (e : Engine) :
  mCreatedBookmarks (fst (tryGroupCreatedBookmarks sha1sum h outcome e)) = [] /\
  exists ops,
    issued (fst (tryGroupCreatedBookmarks sha1sum h outcome e))
      = (issued e ++ ops)%list /\
    (List.length (List.filter isCreate ops) <= 1)%nat /\
    forall op id,
      In op ops -> targetOf op = Some id ->
      In id (map bk_id (mCreatedBookmarks e)).
Proof.
  unfold tryGroupCreatedBookmarks.
  pose proof (tryGroup_begin_shape sha1sum h e) as Hb.
  destruct (tryGroup_begin sha1sum h e) as [e1 [r|bookmarks last]]; simpl in Hb.
  - subst e1. split; [reflexivity|]. exists []. simpl.
    rewrite app_nil_r. split; [reflexivity|]. split; [lia|]. contradiction.
  - destruct Hb as (Hbs & _ & first & rest & Hfirst & ->).
    assert (Hresume : exists ops,
      fst (tryGroup_resume h bookmarks last outcome
             (issue [OpCreate (groupFolderDetails first)]
                (setCount (mCreatingCount e + 1)
                   (setDragged None (setCreated [] e)))))
      = issue ops
          (match outcome with
           | Rethrown => issue [OpCreate (groupFolderDetails first)]
                           (setCount (mCreatingCount e + 1)
                              (setDragged None (setCreated [] e)))
           | _ => scheduleDecrement 1
                    (issue [OpCreate (groupFolderDetails first)]
                       (setCount (mCreatingCount e + 1)
                          (setDragged None (setCreated [] e))))
           end) /\
      Forall (fun op => isCreate op = false /\
                        exists b, In b bookmarks /\ targetOf op = Some (bk_id b)) ops).
    { destruct outcome as [f| |].
      - apply resumed_flush_ops.
      - exists []. split; [|constructor]. rewrite issue_nil.
        unfold tryGroup_resume. simpl folderOf.
        rewrite moveAll_without_folder by (rewrite Hfirst; discriminate).
        reflexivity.
      - exists []. rewrite issue_nil. split; [reflexivity | constructor]. }
    destruct Hresume as (ops & Hops & Hall). rewrite Hops.
    split; [now destruct outcome|].
    exists (OpCreate (groupFolderDetails first) :: ops).
    split; [destruct outcome; simpl; now rewrite <- app_assoc|].
    rewrite List.Forall_forall in Hall. split.
    + simpl. assert (Hnone : List.filter isCreate ops = []).
      { clear -Hall. induction ops as [|op ops IH]; [reflexivity|]. simpl.
        destruct (Hall op) as [-> _]; [simpl; auto|].
        apply IH. intros; apply Hall; simpl; auto. }
      rewrite Hnone. simpl. lia.
    + intros op id [<-|Hin] Ht; [discriminate|].
      destruct (Hall op Hin) as (_ & b & Hb & Ht'). rewrite Ht in Ht'.
      injection Ht' as ->. rewrite <- Hbs. now apply in_map.
Qed.

(** *** What holds the counter up *)

Lemma Positive_suspend (e : Engine) (r : Engine * option Task) :
  Positive e ->
  match r with
  | (e1, None) => e1 = e
  | (e1, Some t) =>
      1 <= share t /\
      exists ops, e1 = issue ops (setCount (mCreatingCount e + share t) e)
  end ->
  Positive (suspend r).
Proof.
  intros [Hrun Htim]. destruct r as [e1 [t|]]; simpl.
  - intros [Ht [ops ->]]. split; fields; [|assumption].
    apply List.Forall_app. split; [assumption | repeat constructor; assumption].
  - intros ->. split; assumption.
Qed.

Lemma Positive_step (e : Engine) (ev : Event) :
  Positive e -> Positive (step sha1sum e ev).
Proof.
  intros Hp. pose proof Hp as [Hrun Htim].
  destruct ev as [granted bookmark|d|granted parent dialog tab
                 |granted parent title index dialog tabs
                 |i outcome h|id h|]; simpl.
  - unfold onBookmarksCreated.
    destruct (negb granted || (0 <? mCreatingCount e)); [assumption|].
    unfold reserveToGroupCreatedBookmarks.
    assert (Hnew : forall id due,
              Forall (fun t => isFlush t = false -> 1 <= decrementOf t)
                     [mkTimer id due Flush]).
    { intros id due. constructor; [discriminate | constructor]. }
    destruct (reserved (setCreated (mCreatedBookmarks e ++ [bookmark]) e));
      split; fields; try assumption;
      apply List.Forall_app; (split; [|apply Hnew]);
      try (apply Forall_filter_keep); assumption.
  - split; assumption.
  - apply (Positive_suspend e); [assumption|].
    pose proof (bookmarkTab_begin_shape granted parent dialog tab e) as Hs.
    destruct (bookmarkTab_begin granted parent dialog tab e) as [e1 [t|]];
      [|assumption].
    destruct Hs as [Ht Hops]. split; [lia | assumption].
  - apply (Positive_suspend e); [assumption|].
    pose proof (bookmarkTabs_begin_shape granted parent title index dialog tabs e) as Hs.
    destruct (bookmarkTabs_begin granted parent title index dialog tabs e) as [e1 [t|]];
      [|assumption].
    destruct Hs as [Ht Hops]. split; [lia | assumption].
  - destruct (nth_error (running e) i) as [t|] eqn:Hnth; [|assumption].
    assert (Ht : 1 <= share t).
    { rewrite List.Forall_forall in Hrun. apply Hrun. eapply nth_error_In; eauto. }
    destruct (resume_shape h t outcome (setRunning (removeNth i (running e)) e))
      as [ops ->].
    destruct (leaks t outcome); split; fields;
      try (now apply removeNth_Forall); try assumption.
    apply List.Forall_app. split; [assumption|].
    repeat constructor. intros _. exact Ht.
  - destruct (List.find (hasId id) (timers e)) as [t|] eqn:Hfind; [|assumption].
    destruct (isDue e t); [|assumption].
    unfold fire. destruct (t_action t) as [|amount] eqn:Hact.
    + pose proof (tryGroup_begin_shape sha1sum h (setReserved None (clearTimeout id e))) as Hb.
      destruct (tryGroup_begin sha1sum h (setReserved None (clearTimeout id e)))
        as [e1 [r|bookmarks last]]; simpl in Hb.
      * subst e1. split; fields; [assumption | now apply Forall_filter_keep].
      * destruct Hb as (_ & _ & first & rest & _ & ->).
        split; fields; [|now apply Forall_filter_keep].
        apply List.Forall_app. split; [assumption|].
        repeat constructor. simpl. lia.
    + split; fields; [assumption | now apply Forall_filter_keep].
  - destruct (existsb (isDue e) (timers e)); split; assumption.
Qed.

Lemma Positive_initial : Positive initial.
Proof. split; constructor. Qed.

Lemma Positive_run (e : Engine) (evs : list Event) :
  Positive e -> Positive (run sha1sum e evs).
Proof.
  revert e. induction evs as [|ev evs IH]; intros e He; simpl; [assumption|].
  apply IH. now apply Positive_step.
Qed.

Lemma sumZ_positive {A : Type} (g : A -> Z) (l : list A) (x : A) :
  Forall (fun y => 0 <= g y) l -> In x l -> g x <= sumZ (map g l).
Proof.
  induction 1 as [|y l Hy Hl IH]; simpl; [contradiction|].
  assert (0 <= sumZ (map g l)) by (apply sumZ_nonneg, List.Forall_map; assumption).
  intros [->|Hin]; [lia|]. specialize (IH Hin). lia.
Qed.

Lemma holding_owes (e : Engine) : Inv e -> Positive e -> holding e -> 1 <= owed e.
Proof.
  intros He [Hrun Htim] Hhold. unfold owed.
  assert (H1 : 0 <= sumZ (map share (running e))).
  { apply sumZ_nonneg, List.Forall_map. exact (inv_share e He). }
  assert (H2 : 0 <= sumZ (map decrementOf (timers e))).
  { apply sumZ_nonneg, List.Forall_map. exact (inv_decrement e He). }
  destruct Hhold as [Hne|(t & Hin & Hf)].
  - destruct (running e) as [|t ts] eqn:Hr; [congruence|].
    pose proof (sumZ_positive share (t :: ts) t) as Hle.
    rewrite <- Hr in Hle. specialize (Hle (inv_share e He)).
    rewrite Hr in Hle. specialize (Hle (or_introl eq_refl)).
    apply List.Forall_inv in Hrun. lia.
  - pose proof (sumZ_positive decrementOf (timers e) t (inv_decrement e He) Hin) as Hle.
    rewrite List.Forall_forall in Htim. specialize (Htim t Hin Hf). lia.
Qed.

(** While one of the module's own calls is suspended on its creation, or
    the decrement of a finished one still waits, a created bookmark is not
    collected: the event changes nothing at all. *)
Theorem own_creations_are_not_collected
    (evs : list Event) (granted : bool) (bookmark : BookmarkTreeNode) :
  holding (run sha1sum initial evs) ->
  0 < mCreatingCount (run sha1sum initial evs) /\
  step sha1sum (run sha1sum initial evs) (BookmarkCreated granted bookmark)
  = run sha1sum initial evs.
Proof.
  intros Hhold.
  pose proof (reachable_Inv sha1sum evs) as He.
  pose proof (Positive_run initial evs Positive_initial) as Hp.
  destruct (reachable_count sha1sum evs) as (Hcount & _ & Hleaked).
  pose proof (holding_owes _ He Hp Hhold) as Howed.
  assert (Hpos : 0 < mCreatingCount (run sha1sum initial evs)) by lia.
  split; [assumption|].
  simpl. unfold onBookmarksCreated.
  apply Z.ltb_lt in Hpos. rewrite Hpos. now rewrite orb_true_r.
Qed.

(** *** The debounce timer *)

Lemma Armed_ext (e e' : Engine) :
  mCreatedBookmarks e' = mCreatedBookmarks e -> timers e' = timers e ->
  reserved e' = reserved e -> now e' = now e -> Armed e -> Armed e'.
Proof. unfold Armed. intros -> -> -> ->. auto. Qed.

Lemma Armed_more (e e' : Engine) :
  mCreatedBookmarks e' = mCreatedBookmarks e ->
  (forall t, In t (timers e) -> isFlush t = true -> In t (timers e')) ->
  reserved e' = reserved e -> now e' = now e -> Armed e -> Armed e'.
Proof.
  unfold Armed. intros -> Hsub -> -> Ha Hne.
  destruct (Ha Hne) as (t & Hin & Hf & Hres & Hdue). exists t. auto.
Qed.

Lemma Armed_suspend (e : Engine) (r : Engine * option Task) :
  Armed e ->
  match r with
  | (e1, None) => e1 = e
  | (e1, Some t) =>
      exists ops, e1 = issue ops (setCount (mCreatingCount e + share t) e)
  end ->
  Armed (suspend r).
Proof.
  intros Ha. destruct r as [e1 [t|]]; simpl.
  - intros [ops ->]. revert Ha. now apply Armed_ext.
  - now intros ->.
Qed.

Lemma Armed_step (e : Engine) (ev : Event) :
  Inv e -> Armed e -> Armed (step sha1sum e ev).
Proof.
  intros He Ha.
  destruct ev as [granted bookmark|d|granted parent dialog tab
                 |granted parent title index dialog tabs
                 |i outcome h|id h|]; simpl.
  - unfold onBookmarksCreated.
    destruct (negb granted || (0 <? mCreatingCount e)); [assumption|].
    intros _. unfold reserveToGroupCreatedBookmarks.
    destruct (reserved (setCreated (mCreatedBookmarks e ++ [bookmark]) e)); fields;
      eexists; (split; [apply in_or_app; right; left; reflexivity|]);
      simpl; repeat split; lia.
  - revert Ha. now apply Armed_ext.
  - apply (Armed_suspend e); [assumption|].
    pose proof (bookmarkTab_begin_shape granted parent dialog tab e) as Hs.
    destruct (bookmarkTab_begin granted parent dialog tab e) as [e1 [t|]];
      [|assumption].
    now destruct Hs.
  - apply (Armed_suspend e); [assumption|].
    pose proof (bookmarkTabs_begin_shape granted parent title index dialog tabs e) as Hs.
    destruct (bookmarkTabs_begin granted parent title index dialog tabs e) as [e1 [t|]];
      [|assumption].
    now destruct Hs.
  - destruct (nth_error (running e) i) as [t|] eqn:Hnth; [|assumption].
    destruct (resume_shape h t outcome (setRunning (removeNth i (running e)) e))
      as [ops ->].
    revert Ha. apply Armed_more; destruct (leaks t outcome); try reflexivity;
      fields; auto.
    intros u Hin _. apply in_or_app. now left.
  - destruct (List.find (hasId id) (timers e)) as [t|] eqn:Hfind; [|assumption].
    destruct (isDue e t); [|assumption].
    apply find_hasId in Hfind as [Hin Hid].
    unfold fire. destruct (t_action t) as [|amount] eqn:Hact.
    + pose proof (tryGroup_begin_shape sha1sum h (setReserved None (clearTimeout id e))) as Hb.
      destruct (tryGroup_begin sha1sum h (setReserved None (clearTimeout id e)))
        as [e1 [r|bookmarks last]]; simpl in Hb.
      * subst e1. intros Hne. now contradiction Hne.
      * destruct Hb as (_ & _ & first & rest & _ & ->).
        intros Hne. now contradiction Hne.
    + revert Ha. apply Armed_more; try reflexivity. fields.
      intros u Hu Hf. apply filter_keeps_In. split; [assumption|].
      intros Heq. pose proof (inv_nodup e He) as Hnd.
      assert (u = t).
      { clear -Hnd Hu Hin Heq Hid. rewrite <- Hid in Heq. clear Hid.
        induction (timers e) as [|v ts IH]; [contradiction|].
        simpl in Hnd. apply NoDup_cons_iff in Hnd as [Hnotin Hnd].
        destruct Hu as [->|Hu], Hin as [->|Hin]; try reflexivity.
        - exfalso. apply Hnotin. rewrite Heq. now apply in_map.
        - exfalso. apply Hnotin. rewrite <- Heq. now apply in_map.
        - now apply IH. }
      subst u. unfold isFlush in Hf. rewrite Hact in Hf. discriminate.
  - destruct (existsb (isDue e) (timers e)) eqn:Hdue; [assumption|].
    intros Hne. destruct (Ha Hne) as (t & Hin & Hf & Hres & Hd).
    exists t. fields. repeat split; auto. simpl. lia.
Qed.

Lemma Armed_initial : Armed initial.
Proof. intros Hne. now contradiction Hne. Qed.

(** Collected bookmarks are never left without their flush: whenever the
    batch is not empty, the queue holds the debounce timer that [reserved]
    names, due within 250 units, and it is the only debounce timer. *)
Theorem pending_batch_has_its_timer (evs : list Event) :
  mCreatedBookmarks (run sha1sum initial evs) <> [] ->
  exists t,
    flushTimers (run sha1sum initial evs) = [t] /\
    reserved (run sha1sum initial evs) = Some (t_id t) /\
    (now (run sha1sum initial evs) <= t_due t <= now (run sha1sum initial evs) + 250)%nat.
Proof.
  assert (Hall : forall evs e, Inv e -> Armed e -> Armed (run sha1sum e evs)).
  { clear evs. induction evs as [|ev evs IH]; intros e He Ha; simpl; [assumption|].
    apply IH; [now apply step_keeps | now apply Armed_step]. }
  pose proof (Hall evs initial (Inv_initial) Armed_initial) as Ha.
  pose proof (reachable_Inv sha1sum evs) as He.
  intros Hne. destruct (Ha Hne) as (t & Hin & Hf & Hres & Hdue).
  exists t.
  assert (Hft : In t (flushTimers (run sha1sum initial evs))).
  { apply filter_In. auto. }
  pose proof (at_most_one_flush_timer _ He) as Hone.
  pose proof (inv_due _ He) as Hlo. rewrite List.Forall_forall in Hlo.
  destruct (Hlo t Hin) as [Hlo' _].
  split; [|split; [assumption | lia]].
  destruct (flushTimers (run sha1sum initial evs)) as [|u [|v us]];
    simpl in *; [contradiction | | lia].
  destruct Hft as [->|[]]. reflexivity.
Qed.

(** *** Batches *)

Lemma reserve_keeps (e : Engine) :
  mCreatedBookmarks (reserveToGroupCreatedBookmarks e) = mCreatedBookmarks e /\
  mCreatingCount (reserveToGroupCreatedBookmarks e) = mCreatingCount e /\
  lastDraggedTabs (reserveToGroupCreatedBookmarks e) = lastDraggedTabs e /\
  running (reserveToGroupCreatedBookmarks e) = running e /\
  issued (reserveToGroupCreatedBookmarks e) = issued e.
Proof. unfold reserveToGroupCreatedBookmarks. now destruct (reserved e). Qed.

(** Between two flushes, with no call of the module in between, the batch
    grows by exactly the bookmarks delivered with the permission granted,
    in the order of their arrival; nothing is asked of the bookmark store
    and the counter stays where it is. *)
Theorem batch_collects_in_arrival_order (e : Engine) (evs : list Event) :
  mCreatingCount e <= 0 -> forallb quiet evs = true ->
  mCreatedBookmarks (run sha1sum e evs) = (mCreatedBookmarks e ++ delivered evs)%list /\
  mCreatingCount (run sha1sum e evs) = mCreatingCount e /\
  running (run sha1sum e evs) = running e /\
  issued (run sha1sum e evs) = issued e.
Proof.
  revert e. induction evs as [|ev evs IH]; intros e Hc Hq; simpl in *.
  - now rewrite app_nil_r.
  - apply andb_true_iff in Hq as [Hev Hq].
    destruct ev as [granted bookmark|d| | | | |]; try discriminate; simpl.
    + unfold onBookmarksCreated.
      assert (Hz : (0 <? mCreatingCount e) = false) by (apply Z.ltb_ge; lia).
      rewrite Hz. destruct granted; simpl.
      * match goal with
        | |- context [run sha1sum ?x evs] =>
            destruct (reserve_keeps (setCreated (mCreatedBookmarks e ++ [bookmark]) e))
              as (H1 & H2 & _ & H4 & H5);
            destruct (IH x) as (I1 & I2 & I3 & I4);
            [rewrite H2; exact Hc | exact Hq |]
        end.
        rewrite I1, I2, I3, I4, H1, H2, H4, H5. simpl.
        now rewrite <- app_assoc.
      * now apply IH.
    + destruct (IH (setDragged (Some d) e)) as (I1 & I2 & I3 & I4);
        [exact Hc | exact Hq |]. auto.
    + destruct (existsb (isDue e) (timers e)); [now apply IH|].
      destruct (IH (setNow (S (now e)) e)) as (I1 & I2 & I3 & I4);
        [exact Hc | exact Hq |]. auto.
Qed.



(** *** Calls that end by an exception *)

Lemma leaked_app (e : Engine) (evs more : list Event) :
  leaked sha1sum e (evs ++ more)
  = leaked sha1sum e evs + leaked sha1sum (run sha1sum e evs) more.
Proof.
  revert e. induction evs as [|ev evs IH]; intros e; simpl; [lia|].
  rewrite IH. lia.
Qed.

Lemma run_app (e : Engine) (evs more : list Event) :
  run sha1sum e (evs ++ more) = run sha1sum (run sha1sum e evs) more.
Proof. unfold run. apply fold_left_app. Qed.

Lemma aborts_leaks_share (e : Engine) (ev : Event) :
  Positive e -> aborts e ev = true -> 1 <= leak e ev.
Proof.
  intros [Hrun _]. destruct ev; simpl; try discriminate.
  destruct (nth_error (running e) i) as [t|] eqn:Hnth; [|discriminate].
  intros ->. rewrite List.Forall_forall in Hrun. apply Hrun.
  eapply nth_error_In; eauto.
Qed.

(** A call that ends by an exception after it has raised the counter never
    takes its share back: from then on the counter is positive whatever
    happens, and no created bookmark is collected any more.  This is so when
    the awaited creation throws, and in [bookmarkTabs] when the creation of
    the folder fails quietly and [folder.id] is read of [undefined]. *)
Theorem aborted_call_stops_collection_for_good
    (evs : list Event) (ev : Event) (later : list Event)
    (granted : bool) (bookmark : BookmarkTreeNode) :
  aborts (run sha1sum initial evs) ev = true ->
  let e := run sha1sum initial (evs ++ ev :: later) in
  0 < mCreatingCount e /\
  step sha1sum e (BookmarkCreated granted bookmark) = e.
Proof.
  intros Hab e.
  destruct (reachable_count sha1sum (evs ++ ev :: later)) as (Hcount & Howed & _).
  fold e in Hcount, Howed.
  pose proof (reachable_Inv sha1sum evs) as He0.
  pose proof (Positive_run initial evs Positive_initial) as Hp0.
  pose proof (aborts_leaks_share _ ev Hp0 Hab) as Hleak.
  rewrite leaked_app in Hcount. simpl in Hcount.
  destruct (run_keeps sha1sum initial evs Inv_initial) as (_ & _ & H0).
  destruct (step_keeps sha1sum _ ev He0) as [He1 _].
  destruct (run_keeps sha1sum _ later He1) as (_ & _ & H1).
  assert (Hpos : 0 < mCreatingCount e) by lia.
  split; [assumption|].
  simpl. unfold onBookmarksCreated.
  apply Z.ltb_lt in Hpos. rewrite Hpos. now rewrite orb_true_r.
Qed.

(** *** bookmarkTabs *)

Lemma createAll_ops (f : BookmarkTreeNode) (g : Tab -> string) tabs i e :
  exists ops,
    createAll (Some f) tabs (map g tabs) i e = (issue ops e, true) /\
    List.length ops = List.length tabs /\
    forall k tab,
      nth_error tabs k = Some tab ->
      nth_error ops k
      = Some (OpCreate (mkCreate false (Some (bk_id f)) (Some (i + k)%nat)
                                 (g tab) (Some (tab_url tab)))).
Proof.
  revert i e. induction tabs as [|t ts IH]; intros i e; simpl.
  - exists []. rewrite issue_nil. split; [reflexivity|]. split; [reflexivity|].
    intros [|k] tab H; discriminate.
  - destruct (IH (S i)
                (issue [OpCreate (mkCreate false (Some (bk_id f)) (Some i) (g t)
                                           (Some (tab_url t)))] e))
      as (ops & Hops & Hlen & Hnth).
    exists (OpCreate (mkCreate false (Some (bk_id f)) (Some i) (g t)
                               (Some (tab_url t))) :: ops).
    rewrite Hops, issue_issue. split; [reflexivity|].
    split; [simpl; now rewrite Hlen|].
    intros [|k] tab H; simpl in *.
    + injection H as <-. now rewrite Nat.add_0_r.
    + rewrite (Hnth k tab H). repeat f_equal. lia.
Qed.

(** A call of [bookmarkTabs] that gets past its dialog and whose folder is
    created asks for the folder first (at the index of the options) and then
    for one bookmark per tab, in the order of the tabs: the [k]-th under the
    new folder at index [k], with the tab's URL and its title marked with its
    depth below the shallowest of the tabs.  It then fulfils. *)
Theorem bookmarkTabs_creates_folder_then_one_bookmark_per_tab
    (granted : bool) (parent : option BookmarkTreeNode) (title : string)
    (index : option nat) (dialog : Dialog) (tabs : list Tab) (h : Host)
    (f : BookmarkTreeNode) (e e1 : Engine) (task : Task) :
  bookmarkTabs_begin granted parent title index dialog tabs e = (e1, Some task) ->
  snd (resume h task (Created f) e1) = Fulfilled /\
  exists details ops,
    issued (fst (resume h task (Created f) e1))
      = (issued e ++ OpCreate details :: ops)%list /\
    c_folder details = true /\ c_url details = None /\ c_index details = index /\
    List.length ops = List.length tabs /\
    forall k tab,
      nth_error tabs k = Some tab ->
      nth_error ops k
      = Some (OpCreate (mkCreate false (Some (bk_id f)) (Some k)
                                 (titleWithTreeStructure (minLevel tabs) tab)
                                 (Some (tab_url tab)))).
Proof.
  unfold bookmarkTabs_begin.
  destruct granted; simpl; [|discriminate].
  destruct tabs as [|t ts] eqn:Htabs; [discriminate|]. rewrite <- Htabs.
  assert (Hstart : forall title' parentId,
    (issue [OpCreate (mkCreate true parentId index title' None)]
       (setCount (mCreatingCount e + (Z.of_nat (List.length tabs) + 1)) e),
     Some (InBookmarkTabs (Z.of_nat (List.length tabs) + 1) tabs
             (getTitlesWithTreeStructure tabs))) = (e1, Some task) ->
    snd (resume h task (Created f) e1) = Fulfilled /\
    exists details ops,
      issued (fst (resume h task (Created f) e1))
        = (issued e ++ OpCreate details :: ops)%list /\
      c_folder details = true /\ c_url details = None /\ c_index details = index /\
      List.length ops = List.length tabs /\
      forall k tab,
        nth_error tabs k = Some tab ->
        nth_error ops k
        = Some (OpCreate (mkCreate false (Some (bk_id f)) (Some k)
                                   (titleWithTreeStructure (minLevel tabs) tab)
                                   (Some (tab_url tab))))).
  { intros title' parentId Heq. injection Heq as <- <-.
    cbn [resume bookmarkTabs_resume folderOf].
    unfold getTitlesWithTreeStructure.
    match goal with
    | |- context [createAll (Some f) tabs _ 0%nat ?x] =>
        destruct (createAll_ops f (titleWithTreeStructure (minLevel tabs)) tabs 0 x)
          as (ops & Hops & Hlen & Hnth)
    end.
    rewrite Hops. split; [reflexivity|].
    exists (mkCreate true parentId index title' None), ops.
    cbn [fst]. unfold scheduleDecrement, setTimeout. fields. simpl issued.
    rewrite <- app_assoc. repeat split; auto. }
  destruct dialog as [|r|]; [apply Hstart | | discriminate].
  destruct (negb (buttonIndex r =? 0)%nat); [discriminate | apply Hstart].
Qed.

(** The same call when the creation of the folder fails quietly: no
    bookmark is asked for, the call ends by an exception, and no decrement
    is queued, so the counter keeps what the call added. *)
Theorem bookmarkTabs_without_folder_leaves_counter_raised
    (granted : bool) (parent : option BookmarkTreeNode) (title : string)
    (index : option nat) (dialog : Dialog) (tabs : list Tab) (h : Host)
    (e e1 : Engine) (task : Task) :
  bookmarkTabs_begin granted parent title index dialog tabs e = (e1, Some task) ->
  resume h task Swallowed e1 = (e1, Rejected) /\
  timers e1 = timers e /\
  mCreatingCount e1 = mCreatingCount e + Z.of_nat (List.length tabs) + 1 /\
  leaks task Swallowed = true.
Proof.
  unfold bookmarkTabs_begin.
  destruct granted; simpl; [|discriminate].
  destruct tabs as [|t ts] eqn:Htabs; [discriminate|]. rewrite <- Htabs.
  assert (Hstart : forall title' parentId,
    (issue [OpCreate (mkCreate true parentId index title' None)]
       (setCount (mCreatingCount e + (Z.of_nat (List.length tabs) + 1)) e),
     Some (InBookmarkTabs (Z.of_nat (List.length tabs) + 1) tabs
             (getTitlesWithTreeStructure tabs))) = (e1, Some task) ->
    resume h task Swallowed e1 = (e1, Rejected) /\
    timers e1 = timers e /\
    mCreatingCount e1 = mCreatingCount e + Z.of_nat (List.length tabs) + 1 /\
    leaks task Swallowed = true).
  { intros title' parentId Heq. injection Heq as <- <-.
    rewrite Htabs. cbn [resume bookmarkTabs_resume folderOf createAll leaks].
    fields. repeat split; auto. lia. }
  destruct dialog as [|r|]; [apply Hstart | | discriminate].
  destruct (negb (buttonIndex r =? 0)%nat); [discriminate | apply Hstart].
Qed.

(** *** Saving the titles *)

Lemma saveTitles_renames bookmarks tabs titles e :
  exists ops,
    fst (saveTitles bookmarks tabs titles e) = issue ops e /\
    forall op,
      In op ops <->
      exists i b tab title,
        nth_error bookmarks i = Some b /\ nth_error tabs i = Some tab /\
        nth_error titles i = Some title /\ title <> tab_title tab /\
        op = OpUpdate (bk_id b) title.
Proof.
  revert tabs titles e.
  induction bookmarks as [|b bs IH]; intros tabs titles e; simpl.
  - exists []. rewrite issue_nil. split; [reflexivity|].
    intros op. split; [contradiction|].
    intros ([|i] & b & tab & title & H & _); discriminate.
  - assert (Hnone : forall ts tl, ts = [] \/ tl = [] ->
              forall op : BookmarkOp, In op [] <->
              exists i b0 tab title,
                nth_error (b :: bs) i = Some b0 /\ nth_error ts i = Some tab /\
                nth_error tl i = Some title /\ title <> tab_title tab /\
                op = OpUpdate (bk_id b0) title).
    { intros ts tl Hempty op. split; [contradiction|].
      intros (i & b0 & tab & title & _ & Ht & Hl & _).
      destruct Hempty as [-> | ->]; destruct i; discriminate. }
    destruct tabs as [|t ts].
    { exists []. rewrite issue_nil. split; [reflexivity|]. apply Hnone; auto. }
    destruct titles as [|title titles'].
    { exists []. rewrite issue_nil. split; [reflexivity|]. apply Hnone; auto. }
    destruct (String.eqb title (tab_title t)) eqn:Heq.
    + apply String.eqb_eq in Heq.
      destruct (IH ts titles' e) as (ops & Hops & Hin).
      exists ops. split; [assumption|]. intros op. rewrite Hin. split.
      * intros (i & b0 & tab & title0 & H1 & H2 & H3 & H4 & H5).
        exists (S i), b0, tab, title0. auto.
      * intros ([|i] & b0 & tab & title0 & H1 & H2 & H3 & H4 & H5); simpl in *.
        -- injection H2 as <-. injection H3 as <-. contradiction.
        -- exists i, b0, tab, title0. auto.
    + apply String.eqb_neq in Heq.
      destruct (IH ts titles' (issue [OpUpdate (bk_id b) title] e))
        as (ops & Hops & Hin).
      exists (OpUpdate (bk_id b) title :: ops). rewrite Hops, issue_issue.
      split; [reflexivity|]. intros op. simpl. rewrite Hin. split.
      * intros [<-|(i & b0 & tab & title0 & H1 & H2 & H3 & H4 & H5)].
        -- exists 0%nat, b, t, title. auto.
        -- exists (S i), b0, tab, title0. auto.
      * intros ([|i] & b0 & tab & title0 & H1 & H2 & H3 & H4 & H5); simpl in *.
        -- injection H1 as <-. injection H3 as <-. left. now symmetry.
        -- right. exists i, b0, tab, title0. auto.
Qed.

Lemma saveTitles_settles bookmarks tabs (g : Tab -> string) e :
  snd (saveTitles bookmarks tabs (map g tabs) e) = Fulfilled <->
  (List.length bookmarks <= List.length tabs)%nat.
Proof.
  revert tabs e. induction bookmarks as [|b bs IH]; intros tabs e; simpl.
  - split; [lia | reflexivity].
  - destruct tabs as [|t ts]; simpl.
    + split; [discriminate | lia].
    + rewrite IH. lia.
Qed.

(** Once the bookmarks are moved, and when every dragged tab is still
    there: the flush fulfils exactly when there is a tab for every bookmark
    of the batch; it reads [tabs[i].title] of [undefined] otherwise. *)
Theorem retitle_needs_a_tab_for_every_bookmark
    (h : Host) (bookmarks : list BookmarkTreeNode) (last : DraggedTabs)
    (tabs : list Tab) (e : Engine) :
  bookmarks <> [] ->
  mapM (Tab_get h) (tabIds last) = Some tabs ->
  (snd (retitle h bookmarks last e) = Fulfilled <->
   (List.length bookmarks <= List.length (tabIds last))%nat).
Proof.
  intros Hne Htabs. unfold retitle. rewrite Htabs.
  rewrite (length_mapM _ _ _ Htabs).
  destruct tabs as [|first restTabs].
  - destruct bookmarks; [congruence|]. simpl. split; [discriminate | lia].
  - destruct (tab_isGroupTab first && _).
    + destruct bookmarks as [|b0 restBookmarks]; [congruence|].
      unfold getTitlesWithTreeStructure. rewrite saveTitles_settles. simpl. lia.
    + unfold getTitlesWithTreeStructure. now rewrite saveTitles_settles.
Qed.

(** When the first dragged tab does not stand for the whole batch (it is
    no group tab, or another title carries no marker either), no bookmark
    is removed, and a bookmark is renamed exactly when the title computed
    for its tab differs from the tab's own title: it then gets the computed
    one. *)
Theorem retitle_renames_exactly_the_changed_titles
    (h : Host) (bookmarks : list BookmarkTreeNode) (last : DraggedTabs)
    (tabs : list Tab) (e : Engine) :
  mapM (Tab_get h) (tabIds last) = Some tabs ->
  match tabs with
  | first :: _ =>
      tab_isGroupTab first
      && (unmarkedCount (getTitlesWithTreeStructure tabs) =? 1)%nat = false
  | [] => True
  end ->
  exists ops,
    fst (retitle h bookmarks last e) = issue ops e /\
    forall op,
      In op ops <->
      exists i b tab,
        nth_error bookmarks i = Some b /\ nth_error tabs i = Some tab /\
        titleWithTreeStructure (minLevel tabs) tab <> tab_title tab /\
        op = OpUpdate (bk_id b) (titleWithTreeStructure (minLevel tabs) tab).
Proof.
  intros Htabs Hplain. unfold retitle. rewrite Htabs.
  destruct tabs as [|first restTabs].
  - exists []. rewrite issue_nil. split; [reflexivity|].
    intros op. split; [contradiction|].
    intros ([|i] & b & tab & _ & H & _); discriminate.
  - rewrite Hplain.
    destruct (saveTitles_renames bookmarks (first :: restTabs)
                (getTitlesWithTreeStructure (first :: restTabs)) e)
      as (ops & Hops & Hin).
    exists ops. split; [assumption|]. intros op. rewrite Hin.
    unfold getTitlesWithTreeStructure. split.
    + intros (i & b & tab & title & H1 & H2 & H3 & H4 & H5).
      rewrite nth_error_map, H2 in H3. simpl in H3. injection H3 as <-.
      exists i, b, tab. auto.
    + intros (i & b & tab & H1 & H2 & H4 & H5).
      exists i, b, tab, (titleWithTreeStructure (minLevel (first :: restTabs)) tab).
      rewrite nth_error_map, H2. auto.
Qed.

(** *** Tracking *)

Lemma hasListener_count (listeners : list Listener) :
  hasListener listeners = negb (List.length (List.filter isOurs listeners) =? 0)%nat.
Proof.
  unfold hasListener. induction listeners as [|l ls IH]; [reflexivity|]. simpl.
  destruct (isOurs l); simpl; [reflexivity | assumption].
Qed.

(** However often tracking is started, and whatever the permission query
    answers each time, the listener is registered at most once when it was
    before, the other listeners stay as they are, in their order, and the
    listener is registered in the end exactly when it was at the start or
    one of the queries answered that the permission is granted. *)
Theorem startTracking_registers_at_most_once
    (grants : list bool) (listeners : list Listener) :
  (List.length (List.filter isOurs listeners) <= 1)%nat ->
  let final := fold_left (fun ls granted => startTracking granted ls) grants listeners in
  (List.length (List.filter isOurs final) <= 1)%nat /\
  List.filter (fun l => negb (isOurs l)) final
  = List.filter (fun l => negb (isOurs l)) listeners /\
  hasListener final = hasListener listeners || existsb (fun g => g) grants.
Proof.
  revert listeners. induction grants as [|granted grants IH]; intros listeners Hone; simpl.
  - split; [assumption|]. split; [reflexivity|]. now rewrite orb_false_r.
  - assert (Hstep :
      (List.length (List.filter isOurs (startTracking granted listeners)) <= 1)%nat /\
      List.filter (fun l => negb (isOurs l)) (startTracking granted listeners)
      = List.filter (fun l => negb (isOurs l)) listeners /\
      hasListener (startTracking granted listeners) = hasListener listeners || granted).
    { unfold startTracking. destruct (hasListener listeners) eqn:Hhas.
      - rewrite andb_false_r. rewrite Hhas. auto.
      - destruct granted; simpl; [|rewrite Hhas; auto].
        assert (Hnone : List.filter isOurs listeners = []).
        { rewrite hasListener_count in Hhas. apply negb_false_iff, Nat.eqb_eq in Hhas.
          now destruct (List.filter isOurs listeners). }
        rewrite !List.filter_app, Hnone. simpl. rewrite app_nil_r.
        split; [lia|]. split; [reflexivity|].
        unfold hasListener. rewrite existsb_app. simpl. now rewrite orb_true_r. }
    destruct Hstep as (H1 & H2 & H3).
    destruct (IH (startTracking granted listeners) H1) as (I1 & I2 & I3).
    split; [assumption|]. split; [congruence|].
    rewrite I3, H3. now rewrite orb_assoc.
Qed.

End More.

(** C8, where the code departs from it.  [bookmarkTabs] for one tab adds two
    to the counter; the creation of its folder fails and the awaited value
    is [undefined]; [folder.id] then throws before [wait(150)] is reached.
    No decrement is ever queued: whatever happens afterwards the counter is
    at least two and every created bookmark is ignored, and after 200 units
    without any event, with nothing running and no timer left, it is still
    two, where the claim has it back at zero. *)
Theorem failed_folder_creation_keeps_the_counter_raised (later : list Event) :
  2 <= mCreatingCount (run plainDigest initial (failedFolderRun ++ later)) /\
  (forall granted bookmark,
     step plainDigest (run plainDigest initial (failedFolderRun ++ later))
          (BookmarkCreated granted bookmark)
     = run plainDigest initial (failedFolderRun ++ later)) /\
  mCreatingCount (run plainDigest initial (failedFolderRun ++ repeat Tick 200)) = 2 /\
  running (run plainDigest initial (failedFolderRun ++ repeat Tick 200)) = [] /\
  timers (run plainDigest initial (failedFolderRun ++ repeat Tick 200)) = [] /\
  now (run plainDigest initial (failedFolderRun ++ repeat Tick 200)) = 200%nat.
Proof.
  assert (Hraised :
    2 <= mCreatingCount (run plainDigest initial (failedFolderRun ++ later))).
  { destruct (reachable_count plainDigest (failedFolderRun ++ later))
      as (Hcount & Howed & _).
    rewrite (leaked_app plainDigest) in Hcount.
    assert (Hleft : leaked plainDigest initial failedFolderRun = 2) by reflexivity.
    destruct (run_keeps plainDigest (run plainDigest initial failedFolderRun) later
                (reachable_Inv plainDigest failedFolderRun)) as (_ & _ & Hmore).
    cbv zeta in Hcount, Howed. lia. }
  split; [exact Hraised|]. split.
  - intros granted bookmark. unfold step, onBookmarksCreated.
    assert (Hpos : (0 <? mCreatingCount
                           (run plainDigest initial (failedFolderRun ++ later))) = true)
      by (apply Z.ltb_lt; lia).
    rewrite Hpos. now rewrite orb_true_r.
  - repeat split.
Qed.

(** *** Further properties on concrete inputs *)

Lemma sanitize_leaves_no_markup_witness :
  occurs "<" (sanitizeForHTMLText "<b>Title & more</b>") = false /\
  sanitizeForHTMLText "Title" = "Title".
Proof.
  split.
  - exact (proj1 (sanitize_leaves_no_markup "<b>Title & more</b>")).
  - destruct (sanitize_leaves_no_markup "Title") as (_ & _ & Hsame).
    apply Hsame; reflexivity.
Defined.

Lemma sanitize_injective_witness :
  sanitizeForHTMLText "a<b" = sanitizeForHTMLText "a<b" /\ "a<b" = "a<b".
Proof.
  split; [reflexivity|]. apply sanitize_injective. reflexivity.
Defined.

Lemma titles_mark_depth_witness :
  nth_error (getTitlesWithTreeStructure [tabA; tabB; tabC]) 1 = Some "> B".
Proof.
  destruct (titles_mark_depth [tabA; tabB; tabC]) as (_ & Hnth & _).
  destruct (Hnth 1%nat tabB) as [_ Htitle]; [reflexivity|].
  exact Htitle.
Defined.

Lemma marked_title_reads_back_witness :
  (0 < levelOf tabB)%nat /\
  stripMarkerPrefix (titleWithTreeStructure 0 tabB) = "B".
Proof.
  assert (H : (0 < levelOf tabB)%nat) by (vm_compute; lia).
  split; [exact H|].
  exact (proj2 (marked_title_reads_back 0 tabB H)).
Defined.

Lemma resumed_flush_moves_in_order_witness :
  let lastFails := mkHost (fun _ => Some []) (fun id => negb (String.eqb id "b"))
                          (fun _ => None) in
  (exists rest,
     issued (fst (tryGroup_resume flushHost [bookmarkA; bookmarkB; bookmarkC]
                    draggedABC (Created newFolder) initial))
     = ([OpMove "a" "f" 0; OpMove "b" "f" 1; OpMove "c" "f" 2] ++ rest)%list) /\
  tryGroup_resume lastFails [bookmarkA; bookmarkB] draggedAB (Created newFolder) initial
  = (issue [OpMove "a" "f" 0; OpMove "b" "f" 1] (scheduleDecrement 1 initial), Rejected).
Proof.
  intros lastFails. split.
  - destruct (resumed_flush_moves_in_order flushHost [bookmarkA; bookmarkB; bookmarkC]
                draggedABC newFolder initial) as [Hall _].
    destruct (Hall (fun _ _ => eq_refl)) as (_ & rest & Hissued & _).
    exists rest. exact Hissued.
  - destruct (resumed_flush_moves_in_order lastFails [bookmarkA; bookmarkB]
                draggedAB newFolder initial) as [_ Hfails].
    apply (Hfails 1%nat bookmarkB); [reflexivity | reflexivity |].
    intros [|j] b' Hj Hnth; [|lia].
    injection Hnth as <-. reflexivity.
Defined.

Lemma resumed_flush_without_folder_witness :
  snd (tryGroup_resume flushHost [bookmarkA; bookmarkB] draggedAB Swallowed initial)
  = Rejected.
Proof.
  refine (proj1 (resumed_flush_without_folder flushHost [bookmarkA; bookmarkB]
                   draggedAB Swallowed initial _ _)).
  - reflexivity.
  - discriminate.
Defined.

Lemma resumed_flush_with_missing_tab_witness :
  snd (tryGroup_resume flushHost [bookmarkA; bookmarkB] (mkDragged [1; 9]%nat "")
         (Created newFolder) initial)
  = Rejected.
Proof.
  rewrite (resumed_flush_with_missing_tab flushHost [bookmarkA; bookmarkB]
             (mkDragged [1; 9]%nat "") newFolder initial).
  - reflexivity.
  - intros b _. reflexivity.
  - simpl. apply Exists_cons_tl, Exists_cons_hd. reflexivity.
Defined.

Lemma flush_touches_only_its_batch_witness :
  mCreatedBookmarks
    (fst (tryGroupCreatedBookmarks plainDigest flushHost (Created newFolder) collectedABC))
  = [].
Proof.
  exact (proj1 (flush_touches_only_its_batch plainDigest flushHost
                  (Created newFolder) collectedABC)).
Defined.

Lemma own_creations_are_not_collected_witness :
  step plainDigest (run plainDigest initial [CallBookmarkTab true None NoDialog tabA])
       (BookmarkCreated true bookmarkA)
  = run plainDigest initial [CallBookmarkTab true None NoDialog tabA].
Proof.
  refine (proj2 (own_creations_are_not_collected plainDigest
                   [CallBookmarkTab true None NoDialog tabA] true bookmarkA _)).
  left. simpl. discriminate.
Defined.

Lemma pending_batch_has_its_timer_witness :
  exists t,
    flushTimers (run plainDigest initial [BookmarkCreated true bookmarkA]) = [t] /\
    reserved (run plainDigest initial [BookmarkCreated true bookmarkA]) = Some (t_id t).
Proof.
  destruct (pending_batch_has_its_timer plainDigest [BookmarkCreated true bookmarkA])
    as (t & Hone & Hres & _).
  - simpl. discriminate.
  - exists t. split; assumption.
Defined.

Lemma batch_collects_in_arrival_order_witness :
  mCreatedBookmarks
    (run plainDigest initial
       [BookmarkCreated true bookmarkA; Tick; BookmarkCreated false bookmarkB;
        BookmarkCreated true bookmarkC])
  = [bookmarkA; bookmarkC].
Proof.
  refine (proj1 (batch_collects_in_arrival_order plainDigest initial
                   [BookmarkCreated true bookmarkA; Tick; BookmarkCreated false bookmarkB;
                    BookmarkCreated true bookmarkC] _ _)).
  - simpl. lia.
  - reflexivity.
Defined.


Lemma aborted_call_stops_collection_for_good_witness :
  0 < mCreatingCount
        (run plainDigest initial
           ([CallBookmarkTabs true None "Tabs" None NoDialog [tabA]]
            ++ CreateSettled 0 Swallowed flushHost :: repeat Tick 200)).
Proof.
  refine (proj1 (aborted_call_stops_collection_for_good plainDigest
                   [CallBookmarkTabs true None "Tabs" None NoDialog [tabA]]
                   (CreateSettled 0 Swallowed flushHost) (repeat Tick 200)
                   true bookmarkA _)).
  reflexivity.
Defined.

Lemma bookmarkTabs_creates_folder_then_one_bookmark_per_tab_witness :
  match bookmarkTabs_begin true None "Tabs" None NoDialog [tabA; tabB] initial with
  | (e1, Some task) => snd (resume flushHost task (Created newFolder) e1) = Fulfilled
  | (_, None) => False
  end.
Proof.
  destruct (bookmarkTabs_begin true None "Tabs" None NoDialog [tabA; tabB] initial)
    as [e1 [task|]] eqn:Hbegin; [|discriminate Hbegin].
  exact (proj1 (bookmarkTabs_creates_folder_then_one_bookmark_per_tab
                  true None "Tabs" None NoDialog [tabA; tabB] flushHost newFolder
                  initial e1 task Hbegin)).
Defined.

Lemma bookmarkTabs_without_folder_leaves_counter_raised_witness :
  match bookmarkTabs_begin true None "Tabs" None NoDialog [tabA; tabB] initial with
  | (e1, Some task) => resume flushHost task Swallowed e1 = (e1, Rejected)
  | (_, None) => False
  end.
Proof.
  destruct (bookmarkTabs_begin true None "Tabs" None NoDialog [tabA; tabB] initial)
    as [e1 [task|]] eqn:Hbegin; [|discriminate Hbegin].
  exact (proj1 (bookmarkTabs_without_folder_leaves_counter_raised
                  true None "Tabs" None NoDialog [tabA; tabB] flushHost
                  initial e1 task Hbegin)).
Defined.

Lemma retitle_needs_a_tab_for_every_bookmark_witness :
  snd (retitle flushHost [bookmarkA; bookmarkB; bookmarkC] draggedABC initial) = Fulfilled.
Proof.
  apply (retitle_needs_a_tab_for_every_bookmark flushHost
           [bookmarkA; bookmarkB; bookmarkC] draggedABC [tabA; tabB; tabC] initial).
  - discriminate.
  - reflexivity.
  - simpl. lia.
Defined.

Lemma retitle_renames_exactly_the_changed_titles_witness :
  exists ops,
    fst (retitle flushHost [bookmarkA; bookmarkB; bookmarkC] draggedABC initial)
    = issue ops initial /\
    In (OpUpdate "b" "> B") ops.
Proof.
  destruct (retitle_renames_exactly_the_changed_titles flushHost
              [bookmarkA; bookmarkB; bookmarkC] draggedABC [tabA; tabB; tabC] initial)
    as (ops & Hops & Hin).
  - reflexivity.
  - reflexivity.
  - exists ops. split; [exact Hops|].
    apply Hin. exists 1%nat, bookmarkB, tabB.
    split; [reflexivity|]. split; [reflexivity|]. split; [|reflexivity].
    vm_compute. discriminate.
Defined.

Lemma startTracking_registers_at_most_once_witness :
  fold_left (fun ls granted => startTracking granted ls) [false; true; true]
            [OtherListener 7]
  = [OtherListener 7; OnBookmarksCreated] /\
  hasListener (fold_left (fun ls granted => startTracking granted ls)
                 [false; true; true] [OtherListener 7]) = true.
Proof.
  split; [reflexivity|].
  destruct (startTracking_registers_at_most_once [false; true; true] [OtherListener 7])
    as (_ & _ & Hhas).
  - simpl. lia.
  - exact Hhas.
Defined.

End BookmarkFacts.

(** ** Facts about [handle-new-tabs.js] *)

Module NewTabsFacts.

Import NewTabs.

Local Open Scope nat_scope.

(** *** Claims about tab creation *)

Lemma handleNewTab_actions (r : Registry) tab activeTab behavior inherit :
  exists rest,
    snd (handleNewTabFromActiveTab r tab activeTab behavior inherit)
      = BehaveAutoAttachedTab tab (Some activeTab) behavior false :: rest /\
    existsb (answeredMoved r) rest = false /\
    List.filter isAttachment rest = [] /\
    fst (handleNewTabFromActiveTab r tab activeTab behavior inherit)
      = behaveAutoAttachedTab r tab (Some activeTab) behavior false.
Proof.
  unfold handleNewTabFromActiveTab.
  destruct (parentAfterAttach r tab) as [parent|]; [|exists []; auto].
  destruct (negb inherit || _ || _); eexists; simpl; auto.
Qed.

(** C6, as the code has it. For a tab without opener that is not a
    new-tab-command tab, the creation listener returns [true] and asks for
    no attachment or move; it records the possible opener exactly when the
    creation is not an internal duplication, is not flagged [maybeOrphan],
    the tab has no next tab, and there is an active tab other than the tab
    itself; the recorded id is that tab's. *)
Theorem onCreating_orphan_records_possible_opener
    (c : Configs) (r : Registry) (tab : Tab) (info : CreatingInfo) :
  getOpenerTab r tab = None ->
  isNewTabCommandTab r tab = false ->
  fst (fst (onCreating c r tab info fresh)) = Now true /\
  snd (onCreating c r tab info fresh) = [] /\
  forall p,
    possibleOpenerTab (snd (fst (onCreating c r tab info fresh))) = Some p <->
    duplicatedInternally info = false /\
    maybeOrphan info = false /\
    getNextTab r tab = None /\
    exists candidate,
      possibleOpener r tab info = Some candidate /\
      id candidate <> id tab /\
      p = id candidate.
Proof.
  intros Hopener Hcommand. unfold onCreating. rewrite Hopener, Hcommand.
  destruct (duplicatedInternally info); simpl.
  { repeat split; try discriminate. intros (H & _); discriminate. }
  destruct (possibleOpener r tab info) as [candidate|]; simpl.
  2:{ repeat split; try discriminate. intros (_ & _ & _ & x & H & _); discriminate. }
  destruct (getNextTab r tab) as [next|]; simpl.
  { repeat split; try discriminate. intros (_ & _ & H & _); discriminate. }
  destruct (maybeOrphan info); simpl.
  { repeat split; try discriminate. intros (_ & H & _); discriminate. }
  split; [reflexivity|]. split; [reflexivity|].
  intros p. unfold sameTab.
  destruct (id candidate =? id tab) eqn:Hsame; simpl.
  - apply Nat.eqb_eq in Hsame. split; [discriminate|].
    intros (_ & _ & _ & x & Hx & Hne & _). injection Hx as <-. contradiction.
  - apply Nat.eqb_neq in Hsame. split.
    + intros H. injection H as <-. repeat split. exists candidate. auto.
    + intros (_ & _ & _ & x & Hx & _ & ->). injection Hx as <-. reflexivity.
Qed.

(** C7, as the code has it. The value handed back by the creation
    listener is false whenever the engine repositioned the tab and true
    only when it did not; a promised value is the negation of the [moved]
    answer; and the value is false without any move in exactly two cases,
    neither of them an internal duplication: a new-tab-command tab without
    opener that is not flagged [maybeOrphan], has a candidate opener and no
    next tab, and was positioned by its creator; and a tab opened from a
    pinned tab of the same container while new tabs from pinned tabs are
    grouped. *)
Theorem onCreating_returns_not_moved
    (c : Configs) (r : Registry) (tab : Tab) (info : CreatingInfo) (tst : TST) :
  let res := fst (fst (onCreating c r tab info tst)) in
  let actions := snd (onCreating c r tab info tst) in
  (repositioned r actions = true -> valueOf res = false) /\
  (valueOf res = true -> repositioned r actions = false) /\
  (forall b, res = Later b -> b = negb (repositioned r actions)) /\
  ((valueOf res = false /\ repositioned r actions = false) <->
   duplicatedInternally info = false /\
   ((getOpenerTab r tab = None /\
     maybeOrphan info = false /\
     (exists candidate, possibleOpener r tab info = Some candidate) /\
     getNextTab r tab = None /\
     isNewTabCommandTab r tab = true /\
     positionedBySelf info = true) \/
    (exists opener,
       getOpenerTab r tab = Some opener /\
       isPinned r opener = true /\
       parentNode opener = parentNode tab /\
       autoGroupNewTabsFromPinned c = true))).
Proof.
  unfold onCreating, repositioned.
  destruct (duplicatedInternally info); simpl.
  { (split; [|split; [|split; [|split]]]); try discriminate; try congruence;
      intros [Hx _]; discriminate. }
  destruct (getOpenerTab r tab) as [opener|] eqn:Hopener.
  - assert (Hno : forall P : Prop,
              (isPinned r opener = true -> parentNode opener = parentNode tab ->
               autoGroupNewTabsFromPinned c = true -> False) ->
              ~ (false = false /\
                 ((Some opener = None /\ P) \/
                  (exists o, Some opener = Some o /\ isPinned r o = true /\
                             parentNode o = parentNode tab /\
                             autoGroupNewTabsFromPinned c = true)))).
    { intros P Hnot [_ [[H _]|(o & Ho & H1 & H2 & H3)]]; [discriminate|].
      injection Ho as <-. auto. }
    destruct (isPinned r opener) eqn:Hpinned; simpl.
    + destruct (parentNode opener =? parentNode tab) eqn:Hnode; simpl.
      * apply Nat.eqb_eq in Hnode.
        destruct (autoGroupNewTabsFromPinned c) eqn:Hgroup; simpl.
        { repeat split; try discriminate.
          right. exists opener. auto. }
        destruct (insertNewTabFromPinnedTabAtEnd c); simpl.
        { destruct (moveTabAfter r tab (getLastTab r (windowId tab))); simpl;
            (split; [|split; [|split; [|split]]]);
            try discriminate; try congruence;
            try (intros b Hb; injection Hb as <-; reflexivity);
            try (intros [? ?]; discriminate);
            intros H; exfalso; revert H; apply Hno; intros; congruence. }
        (split; [|split; [|split; [|split]]]); try discriminate; try congruence;
          try (intros [? ?]; discriminate).
        intros H; exfalso; revert H; apply Hno; intros; congruence.
      * apply Nat.eqb_neq in Hnode.
        destruct (negb (maybeOrphan info) && autoAttach c); simpl.
        { destruct (behaveAutoAttachedTab r tab (Some opener)
                      (autoAttachOnOpenedWithOwner c) (positionedBySelf info)); simpl;
            (split; [|split; [|split; [|split]]]);
            try discriminate; try congruence;
            try (intros b Hb; injection Hb as <-; reflexivity);
            try (intros [? ?]; discriminate);
            intros H; exfalso; revert H; apply Hno; intros; congruence. }
        (split; [|split; [|split; [|split]]]); try discriminate; try congruence;
          try (intros [? ?]; discriminate).
        intros H; exfalso; revert H; apply Hno; intros; congruence.
    + destruct (negb (maybeOrphan info) && autoAttach c); simpl.
      { destruct (behaveAutoAttachedTab r tab (Some opener)
                    (autoAttachOnOpenedWithOwner c) (positionedBySelf info)); simpl;
          (split; [|split; [|split; [|split]]]);
          try discriminate; try congruence;
          try (intros b Hb; injection Hb as <-; reflexivity);
          try (intros [? ?]; discriminate);
          intros H; exfalso; revert H; apply Hno; intros; congruence. }
      (split; [|split; [|split; [|split]]]); try discriminate; try congruence;
        try (intros [? ?]; discriminate).
      intros H; exfalso; revert H; apply Hno; intros; congruence.
  - destruct (possibleOpener r tab info) as [candidate|] eqn:Hcandidate; simpl.
    2:{ (split; [|split; [|split; [|split]]]); try discriminate; try congruence;
          try (intros [? ?]; discriminate).
        intros [_ [(_ & _ & [x Hx] & _)|(x & Hx & _)]]; discriminate. }
    destruct (getNextTab r tab) eqn:Hnext; simpl.
    { (split; [|split; [|split; [|split]]]); try discriminate; try congruence;
        try (intros [? ?]; discriminate).
      intros [_ [(_ & _ & _ & Hx & _)|(x & Hx & _)]]; discriminate. }
    destruct (maybeOrphan info) eqn:Horphan; simpl.
    { (split; [|split; [|split; [|split]]]); try discriminate; try congruence;
        try (intros [? ?]; discriminate).
      intros [_ [(_ & Hx & _)|(x & Hx & _)]]; discriminate. }
    destruct (isNewTabCommandTab r tab) eqn:Hcommand; simpl.
    2:{ (split; [|split; [|split; [|split]]]); try discriminate; try congruence;
          try (intros [? ?]; discriminate).
        intros [_ [(_ & _ & _ & _ & Hx & _)|(x & Hx & _)]]; discriminate. }
    destruct (positionedBySelf info) eqn:Hself; simpl.
    { repeat split; try discriminate. left. repeat split; eauto. }
    destruct (handleNewTab_actions r tab candidate (autoAttachOnNewTabCommand c)
                (inheritContextualIdentityToNewChildTab c))
      as (rest & Hactions & Hrest & _ & Hmoved).
    destruct (handleNewTabFromActiveTab r tab candidate (autoAttachOnNewTabCommand c)
                (inheritContextualIdentityToNewChildTab c)) as [moved actions].
    simpl in Hactions, Hmoved. subst actions moved. simpl. rewrite Hrest.
    destruct (behaveAutoAttachedTab r tab (Some candidate)
                (autoAttachOnNewTabCommand c) false); simpl;
      (split; [|split; [|split; [|split]]]);
      try discriminate; try congruence;
      try (intros b Hb; injection Hb as <-; reflexivity);
      try (intros [? ?]; discriminate);
      intros [_ [(_ & _ & _ & _ & _ & Hx)|(x & Hx & _)]]; discriminate.
Qed.

(** *** Claims about updated tabs *)

Example siteOf_samples :
  map siteOf
    ["https://example.com/a/b"; "https://example.com"; "ftp://host:21/";
     "http://"; "about:blank"; "file:///tmp/x"; "a-b://x/"]
  = [Some "example.com"; Some "example.com"; Some "host:21";
     None; None; None; None].
Proof. reflexivity. Qed.

Lemma attachments_app (a b : list Action) :
  attachments (a ++ b) = attachments a + attachments b.
Proof. unfold attachments. now rewrite List.filter_app, length_app. Qed.

Lemma syncParentAndOpener_attachments c r tab ch :
  attachments (syncParentAndOpener c r tab ch) = 0.
Proof.
  unfold syncParentAndOpener.
  destruct (hasOpenerTabId ch && syncParentTabAndOpenerTab c); [|reflexivity].
  destruct (getOpenerTab r tab) as [parent|]; [|reflexivity].
  now destruct (negb _ || _).
Qed.

Lemma handleNewTab_attachments (r : Registry) tab activeTab behavior inherit :
  attachments (snd (handleNewTabFromActiveTab r tab activeTab behavior inherit)) = 1.
Proof.
  destruct (handleNewTab_actions r tab activeTab behavior inherit)
    as (rest & -> & _ & Hrest & _).
  unfold attachments. simpl. now rewrite Hrest.
Qed.

Lemma resolveNewTab_attachments c r tab tst :
  attachments (snd (resolveNewTab c r tab tst)) <= 1.
Proof.
  assert (Hnil : attachments [] <= 1) by (unfold attachments; simpl; lia).
  unfold resolveNewTab.
  destruct (trackedWindows r !! windowId tab) as [grouped|]; simpl; [|exact Hnil].
  destruct (getParentTab r tab); simpl; [exact Hnil|].
  destruct (match possibleOpenerTab tst with
            | Some opener => getTabElementById r opener
            | None => None
            end) as [opener|]; simpl; [|exact Hnil].
  destruct (existsb _ grouped); simpl; [exact Hnil|].
  destruct (isNewTabCommandTab r tab); simpl.
  - now rewrite handleNewTab_attachments.
  - destruct (siteOf (url opener)) as [s1|]; simpl; [|exact Hnil].
    destruct (siteOf (url tab)) as [s2|]; simpl; [|exact Hnil].
    destruct (String.eqb s1 s2); simpl; [|exact Hnil].
    now rewrite handleNewTab_attachments.
Qed.

(** One update: the markers end up cleared, or nothing was resolved. *)
Lemma onUpdated_once c r tab ch tst :
  attachments (snd (onUpdated c r tab ch tst)) <= 1 /\
  (isNewTab (snd (fst (onUpdated c r tab ch tst))) = true ->
   attachments (snd (onUpdated c r tab ch tst)) = 0) /\
  (isNewTab tst = false ->
   snd (fst (onUpdated c r tab ch tst)) = tst /\
   attachments (snd (onUpdated c r tab ch tst)) = 0).
Proof.
  unfold onUpdated.
  pose proof (syncParentAndOpener_attachments c r tab ch) as Hsync.
  pose proof (resolveNewTab_attachments c r tab tst) as Hres.
  destruct (navigated ch); simpl.
  - destruct (isNewTab tst) eqn:Hnew; simpl.
    + destruct (resolveNewTab c r tab tst) as [result actions]; simpl in *.
      rewrite attachments_app, Hsync.
      repeat split; try discriminate; lia.
    + repeat split; auto; lia.
  - repeat split; auto; lia.
Qed.

Lemma updates_resolved (evs : list Update) (tst : TST) :
  isNewTab tst = false -> attachments (snd (updates evs tst)) = 0.
Proof.
  revert tst. induction evs as [|ev rest IH]; intros tst Hnew; simpl; [reflexivity|].
  destruct (onUpdated_once (u_configs ev) (u_registry ev) (u_tab ev) (u_change ev) tst)
    as (_ & _ & Hsame).
  destruct (Hsame Hnew) as [Htst Hzero].
  destruct (onUpdated (u_configs ev) (u_registry ev) (u_tab ev) (u_change ev) tst)
    as [[result tst1] actions]; simpl in *. subst tst1.
  specialize (IH tst Hnew).
  destruct (updates rest tst) as [tst2 more]; simpl in *.
  rewrite attachments_app. lia.
Qed.

Lemma updates_at_most_once (evs : list Update) (tst : TST) :
  attachments (snd (updates evs tst)) <= 1.
Proof.
  revert tst. induction evs as [|ev rest IH]; intros tst; simpl;
    [unfold attachments; simpl; lia|].
  destruct (onUpdated_once (u_configs ev) (u_registry ev) (u_tab ev) (u_change ev) tst)
    as (Hone & Hstill & _).
  destruct (onUpdated (u_configs ev) (u_registry ev) (u_tab ev) (u_change ev) tst)
    as [[result tst1] actions]; simpl in *.
  specialize (IH tst1). pose proof (updates_resolved rest tst1) as Hdone.
  destruct (updates rest tst1) as [tst2 more]; simpl in *.
  rewrite attachments_app.
  destruct (isNewTab tst1); [rewrite Hstill by reflexivity | rewrite Hdone by reflexivity];
    lia.
Qed.

(** C5. Whatever update events a tab receives, deferred resolution asks for
    at most one attachment.  The first event that reports a navigation
    while the tab is marked clears both markers, whatever it finds, and no
    later event attaches anything.  When the recorded opener still exists,
    the tab has no parent, is not among the tabs opened together, is not a
    new-tab-command tab, and both URLs have the same site, that first event
    asks for exactly one attachment, and the whole sequence for exactly
    one. *)
Theorem same_site_resolution_attaches_at_most_once
    (evs : list Update) (tst : TST) :
  attachments (snd (updates evs tst)) <= 1 /\
  (forall c r tab ch,
     navigated ch = true -> isNewTab tst = true ->
     snd (fst (onUpdated c r tab ch tst)) = mkTST false None /\
     forall later, attachments (snd (updates later (mkTST false None))) = 0) /\
  (forall ev later oid opener grouped site,
     navigated (u_change ev) = true -> isNewTab tst = true ->
     possibleOpenerTab tst = Some oid ->
     getTabElementById (u_registry ev) oid = Some opener ->
     trackedWindows (u_registry ev) !! windowId (u_tab ev) = Some grouped ->
     ~ In (id (u_tab ev)) grouped ->
     getParentTab (u_registry ev) (u_tab ev) = None ->
     isNewTabCommandTab (u_registry ev) (u_tab ev) = false ->
     siteOf (url opener) = Some site ->
     siteOf (url (u_tab ev)) = Some site ->
     attachments (snd (updates (ev :: later) tst)) = 1).
Proof.
  split; [apply updates_at_most_once|]. split.
  - intros c r tab ch Hnav Hnew. split.
    + unfold onUpdated. rewrite Hnav, Hnew. simpl.
      now destruct (resolveNewTab c r tab tst).
    + intros later. now apply updates_resolved.
  - intros ev later oid opener grouped site Hnav Hnew Hoid Hopener Hwin Hnot
           Hparent Hcommand Hs1 Hs2.
    simpl. unfold onUpdated. rewrite Hnav, Hnew. simpl.
    pose proof (syncParentAndOpener_attachments (u_configs ev) (u_registry ev)
                  (u_tab ev) (u_change ev)) as Hsync.
    assert (Hres : attachments (snd (resolveNewTab (u_configs ev) (u_registry ev)
                                       (u_tab ev) tst)) = 1).
    { unfold resolveNewTab. rewrite Hoid, Hopener, Hwin, Hparent, Hcommand, Hs1, Hs2.
      assert (Hex : existsb (Nat.eqb (id (u_tab ev))) grouped = false).
      { destruct (existsb _ grouped) eqn:Hex; [|reflexivity].
        apply existsb_exists in Hex as [x [Hx Heq]].
        apply Nat.eqb_eq in Heq. subst x. contradiction. }
      rewrite Hex, String.eqb_refl. apply handleNewTab_attachments. }
    destruct (resolveNewTab (u_configs ev) (u_registry ev) (u_tab ev) tst)
      as [result actions]; simpl in *.
    pose proof (updates_resolved later (mkTST false None) eq_refl) as Hlater.
    destruct (updates later (mkTST false None)) as [tst2 more]; simpl in *.
    rewrite !attachments_app. lia.
Qed.

(** *** Claims about tabs attached to another window *)

Lemma filter_all {A : Type} (p : A -> bool) (l : list A) :
  (forall x, In x l -> p x = true) -> List.filter p l = l.
Proof.
  induction l as [|x l IH]; simpl; intros H; [reflexivity|].
  rewrite (H x) by auto. f_equal. apply IH. intros; apply H; auto.
Qed.

Lemma without_In (gone l : list nat) (t : nat) :
  In t (without gone l) <-> In t l /\ ~ In t gone.
Proof.
  unfold without. rewrite filter_In, negb_true_iff. split.
  - intros [Hin Hex]. split; [assumption|]. intros Hgone.
    assert (existsb (Nat.eqb t) gone = true).
    { apply existsb_exists. exists t. split; [assumption | apply Nat.eqb_refl]. }
    congruence.
  - intros [Hin Hgone]. split; [assumption|].
    destruct (existsb (Nat.eqb t) gone) eqn:Hex; [|reflexivity].
    apply existsb_exists in Hex as [x [Hx Heq]].
    apply Nat.eqb_eq in Heq. subst x. contradiction.
Qed.

Lemma insertAfterTab_found (anchor : nat) (new l : list nat) :
  In anchor l ->
  exists before after,
    l = (before ++ anchor :: after)%list /\
    insertAfterTab anchor new l = (before ++ anchor :: new ++ after)%list.
Proof.
  induction l as [|t rest IH]; simpl; intros Hin; [contradiction|].
  destruct (t =? anchor) eqn:Ht.
  - apply Nat.eqb_eq in Ht. subst t. exists [], rest. auto.
  - apply Nat.eqb_neq in Ht. destruct Hin as [Heq|Hin]; [contradiction|].
    destruct (IH Hin) as (before & after & Hl & Hins).
    exists (t :: before), after. simpl. split; congruence.
Qed.

Lemma attach_all (parent : nat) (movedTabs : list nat) (w : World) :
  windows (fold_left (fun w' movedTab => attachTabTo movedTab parent w') movedTabs w)
    = windows w /\
  forall d,
    parents (fold_left (fun w' movedTab => attachTabTo movedTab parent w') movedTabs w) !! d
      = if existsb (Nat.eqb d) movedTabs then Some parent else parents w !! d.
Proof.
  revert w. induction movedTabs as [|m rest IH]; intros w; simpl; [auto|].
  destruct (IH (attachTabTo m parent w)) as [Hwin Hpar].
  split; [exact Hwin|]. intros d. rewrite Hpar. simpl.
  destruct (existsb (Nat.eqb d) rest); [now rewrite orb_true_r|].
  rewrite orb_false_r.
  destruct (d =? m) eqn:Hd.
  - apply Nat.eqb_eq in Hd. subst d. apply lookup_insert_eq.
  - apply Nat.eqb_neq in Hd. apply lookup_insert_ne. congruence.
Qed.

(** C4. When a tab lands in a window and tree behavior applies, and the
    move of each of its descendants gets through (at once or within the
    retries), the destination window holds the descendants immediately
    after the tab, in their order, the other tabs keeping theirs; no other
    window holds a descendant any more; and every descendant has the tab
    as its parent. *)
Theorem onAttached_moves_and_reattaches_descendants
    (retries : nat) (fails : nat -> nat -> bool) (tab : Tab)
    (info : AttachedInfo) (w : World) (tabsOfWindow : list nat) :
  truthy (a_windowId info) = true ->
  applyTreeBehavior info = true ->
  windows w !! windowId tab = Some tabsOfWindow ->
  In (id tab) tabsOfWindow ->
  ~ In (id tab) (descendants info) ->
  (forall d, In d (descendants info) -> getsThrough (fails d) 0 retries = true) ->
  let w' := onAttached retries fails tab info w in
  (exists before after,
     without (descendants info) tabsOfWindow = (before ++ id tab :: after)%list /\
     windows w' !! windowId tab
       = Some (before ++ id tab :: descendants info ++ after)%list) /\
  (forall other tabs d,
     other <> windowId tab -> windows w' !! other = Some tabs ->
     In d (descendants info) -> ~ In d tabs) /\
  (forall d, In d (descendants info) -> parents w' !! d = Some (id tab)).
Proof.
  intros Hwin Happly Hlookup Hin Hnot Hthrough w'.
  assert (Hcleared : (without (descendants info) <$> windows w) !! windowId tab
                     = Some (without (descendants info) tabsOfWindow))
    by (now rewrite lookup_fmap, Hlookup).
  assert (Hrun : w' =
            fold_left (fun w1 movedTab => attachTabTo movedTab (id tab) w1)
              (descendants info)
              (mkWorld (<[windowId tab :=
                           insertAfterTab (id tab) (descendants info)
                             (without (descendants info) tabsOfWindow)]>
                          (without (descendants info) <$> windows w))
                       (parents w))).
  { subst w'. unfold onAttached. rewrite Hwin, Happly. simpl.
    unfold moveTabs. rewrite (filter_all _ _ Hthrough), Hcleared. reflexivity. }
  clearbody w'. subst w'.
  match goal with
  | |- context [fold_left ?f ?m ?w1] =>
      destruct (attach_all (id tab) m w1) as [Hwindows Hparents]
  end.
  simpl in Hwindows.
  assert (Hanchor : In (id tab) (without (descendants info) tabsOfWindow))
    by (apply without_In; auto).
  destruct (insertAfterTab_found (id tab) (descendants info) _ Hanchor)
    as (before & after & Hl & Hins).
  split; [|split].
  - exists before, after. split; [exact Hl|].
    rewrite Hwindows, lookup_insert_eq. now rewrite Hins.
  - intros other tabs d Hother Htabs Hd Hdin.
    rewrite Hwindows, lookup_insert_ne, lookup_fmap in Htabs by congruence.
    destruct (windows w !! other) as [l|]; simpl in Htabs; [|discriminate].
    injection Htabs as <-. apply without_In in Hdin. tauto.
  - intros d Hd. rewrite Hparents.
    assert (Hex : existsb (Nat.eqb d) (descendants info) = true).
    { apply existsb_exists. exists d. split; [assumption | apply Nat.eqb_refl]. }
    now rewrite Hex.
Qed.

(** *** Concrete events *)

Lemma onCreating_orphan_records_possible_opener_witness :
  possibleOpenerTab
    (snd (fst (onCreating someConfigs (registryWith None None false)
                 newPage plainInfo fresh))) = Some 1.
Proof.
  destruct (onCreating_orphan_records_possible_opener someConfigs
              (registryWith None None false) newPage plainInfo eq_refl eq_refl)
    as (_ & _ & Hiff).
  apply Hiff. repeat split. exists activePage. repeat split. simpl. lia.
Defined.

(** C6 as stated fails: an active tab exists, it is not the new tab, and
    yet nothing is recorded, because the new tab already has a next tab. *)
Lemma onCreating_with_next_tab_records_nothing :
  possibleOpener (registryWith None (Some nextPage) false) newPage plainInfo
    = Some activePage /\
  id activePage <> id newPage /\
  getOpenerTab (registryWith None (Some nextPage) false) newPage = None /\
  isNewTabCommandTab (registryWith None (Some nextPage) false) newPage = false /\
  onCreating someConfigs (registryWith None (Some nextPage) false)
    newPage plainInfo fresh = (Now true, fresh, []).
Proof. repeat split. simpl. lia. Qed.

Lemma onCreating_returns_not_moved_witness :
  let commandTabs :=
    mkRegistry (fun _ => Some activePage) (fun _ => None) (fun _ => None)
               (fun _ => None) (fun _ => None) (fun _ => None) (fun _ => None)
               (fun _ => true) (fun _ => false) ∅
               (fun _ _ _ _ => false) (fun _ _ => false) in
  let positioned := mkCreatingInfo false None false true in
  valueOf (fst (fst (onCreating someConfigs (registryWith (Some activePage) None true)
                       newPage plainInfo fresh))) = false /\
  valueOf (fst (fst (onCreating someConfigs commandTabs newPage positioned fresh)))
  = false /\
  repositioned commandTabs
    (snd (onCreating someConfigs commandTabs newPage positioned fresh)) = false.
Proof.
  intros commandTabs positioned.
  split.
  - destruct (onCreating_returns_not_moved someConfigs
                (registryWith (Some activePage) None true) newPage plainInfo fresh)
      as (Hmoved & _).
    apply Hmoved. reflexivity.
  - destruct (onCreating_returns_not_moved someConfigs commandTabs newPage
                positioned fresh) as (_ & _ & _ & Hexact).
    apply Hexact. split; [reflexivity|]. left.
    split; [reflexivity|]. split; [reflexivity|].
    split; [exists activePage; reflexivity|].
    split; [reflexivity|]. split; reflexivity.
Defined.

(** C7 as stated fails: the tree module moved the tab next to its opener,
    and the listener's promise resolves to [false], not [true]. *)
Lemma onCreating_moved_returns_false :
  let r := registryWith (Some activePage) None true in
  repositioned r (snd (onCreating someConfigs r newPage plainInfo fresh)) = true /\
  fst (fst (onCreating someConfigs r newPage plainInfo fresh)) = Later false.
Proof. split; reflexivity. Qed.

Lemma same_site_resolution_attaches_at_most_once_witness :
  attachments (snd (updates [pageLoaded; pageLoaded; pageLoaded] (mkTST true (Some 1)))) = 1.
Proof.
  destruct (same_site_resolution_attaches_at_most_once
              [pageLoaded; pageLoaded; pageLoaded] (mkTST true (Some 1)))
    as (_ & _ & Honce).
  apply (Honce pageLoaded [pageLoaded; pageLoaded] 1 activePage [] "example.org");
    try reflexivity.
  intros [].
Defined.

Lemma onAttached_moves_and_reattaches_descendants_witness :
  let w' := onAttached 1 secondFailsOnce movedTab
              (mkAttachedInfo (Some 2) true [21; 22]) twoWindows in
  windows w' !! 1 = Some [10; 21; 22; 11] /\
  parents w' !! 21 = Some 10 /\
  parents w' !! 22 = Some 10.
Proof.
  intros w'.
  destruct (onAttached_moves_and_reattaches_descendants 1 secondFailsOnce movedTab
              (mkAttachedInfo (Some 2) true [21; 22]) twoWindows [10; 11])
    as ((before & after & Hrest & Hwindow) & _ & Hparents).
  - reflexivity.
  - reflexivity.
  - reflexivity.
  - simpl. auto.
  - simpl. lia.
  - intros d [<-|[<-|[]]]; reflexivity.
  - fold w' in Hwindow, Hparents. split; [|split].
    + reflexivity.
    + apply Hparents. simpl. auto.
    + apply Hparents. simpl. auto.
Defined.

(** ** Further properties of the listeners *)

(** *** The site of a URL *)

Lemma string_cons_app (x : ascii) (a b : string) :
  (String x a ++ b)%string = String x (a ++ b)%string.
Proof. reflexivity. Qed.

Lemma string_nil_app (b : string) : ("" ++ b)%string = b.
Proof. reflexivity. Qed.

Lemma take_drop (p : ascii -> bool) (s : string) :
  s = (takeWhile p s ++ dropWhile p s)%string /\
  everyChar p (takeWhile p s) = true /\
  (dropWhile p s = "" \/ exists c rest, dropWhile p s = String c rest /\ p c = false).
Proof.
  induction s as [|c s IH]; cbn [takeWhile dropWhile].
  - repeat split. now left.
  - destruct (p c) eqn:Hc.
    + destruct IH as (H1 & H2 & H3). rewrite string_cons_app, <- H1.
      cbn [everyChar]. rewrite Hc, H2. auto.
    + rewrite string_nil_app. repeat split. right. eauto.
Qed.

Lemma take_drop_app (p : ascii -> bool) (a b : string) :
  everyChar p a = true ->
  (b = "" \/ exists c rest, b = String c rest /\ p c = false) ->
  takeWhile p (a ++ b) = a /\ dropWhile p (a ++ b) = b.
Proof.
  intros Ha Hb. induction a as [|c a IH].
  - rewrite string_nil_app. destruct Hb as [->|(c & rest & -> & Hc)].
    + split; reflexivity.
    + cbn [takeWhile dropWhile]. rewrite Hc. split; reflexivity.
  - cbn [everyChar] in Ha. apply andb_true_iff in Ha as [Hc Ha].
    rewrite string_cons_app. cbn [takeWhile dropWhile]. rewrite Hc.
    destruct (IH Ha) as [-> ->]. split; reflexivity.
Qed.

Lemma separator {A : Type} (d : string) (F : string -> option A) (x : A) :
  match d with
  | String ":" (String "/" (String "/" rest)) => F rest
  | _ => None
  end = Some x ->
  exists rest, d = String ":" (String "/" (String "/" rest)) /\ F rest = Some x.
Proof.
  intros H.
  destruct d as [|c1 d]; [discriminate|].
  destruct c1 as [[] [] [] [] [] [] [] []]; try discriminate H.
  destruct d as [|c2 d]; [discriminate|].
  destruct c2 as [[] [] [] [] [] [] [] []]; try discriminate H.
  destruct d as [|c3 d]; [discriminate|].
  destruct c3 as [[] [] [] [] [] [] [] []]; try discriminate H.
  exists d. split; [reflexivity | exact H].
Qed.

Lemma slash (c : ascii) : notSlash c = false -> c = "/"%char.
Proof.
  unfold notSlash. intros H. apply negb_false_iff in H. now apply Ascii.eqb_eq.
Qed.

(** The site read off a URL is what the pattern of the source says: the
    URL is a run of word characters, then [://], then the site, a non-empty
    run of characters other than the slash, and after it either nothing or
    a slash followed by a path without line terminators. *)
Theorem siteOf_matches_the_pattern (address site : string) :
  siteOf address = Some site <->
  exists scheme tail,
    address = (scheme ++ "://" ++ site ++ tail)%string /\
    scheme <> "" /\ everyChar isWordChar scheme = true /\
    site <> "" /\ everyChar notSlash site = true /\
    (tail = "" \/
     exists path, tail = String "/" path /\ anyChar isLineTerminator path = false).
Proof.
  unfold siteOf. split.
  - destruct (take_drop isWordChar address) as (Hsplit & Hword & _).
    destruct (takeWhile isWordChar address) as [|c0 scheme] eqn:Hscheme;
      [discriminate|].
    intros H. apply separator in H as (rest & Hd & H).
    destruct (take_drop notSlash rest) as (Hsplit' & Hhost & Htail).
    destruct (takeWhile notSlash rest) as [|h0 host] eqn:Hh; [discriminate|].
    exists (String c0 scheme), (dropWhile notSlash rest).
    assert (Hsite : site = String h0 host /\
              (dropWhile notSlash rest = "" \/
               exists path, dropWhile notSlash rest = String "/" path /\
                            anyChar isLineTerminator path = false)).
    { destruct Htail as [Hnil|(c & path & Hp & Hc)].
      - rewrite Hnil in H. injection H as <-. auto.
      - rewrite Hp in H. apply slash in Hc. subst c.
        destruct (anyChar isLineTerminator path) eqn:Hany; [discriminate|].
        injection H as <-. split; [reflexivity|]. right. exists path. auto. }
    destruct Hsite as [-> Hrest].
    split.
    { rewrite Hsplit at 1. rewrite Hd. f_equal.
      change ("://" ++ String h0 host ++ dropWhile notSlash rest)%string
        with (String ":" (String "/" (String "/"
                (String h0 host ++ dropWhile notSlash rest)%string))).
      now rewrite <- Hsplit'. }
    repeat split; try discriminate; assumption.
  - intros (scheme & tail & -> & Hne & Hword & Hne' & Hhost & Htail).
    assert (Hsep : ("://" ++ site ++ tail)%string
                   = String ":" (String "/" (String "/" (site ++ tail)%string)))
      by reflexivity.
    destruct (take_drop_app isWordChar scheme ("://" ++ site ++ tail)%string Hword)
      as [Ht Hd].
    { right. rewrite Hsep. eexists _, _. split; reflexivity. }
    rewrite Ht, Hd, Hsep.
    destruct scheme as [|c0 scheme]; [congruence|].
    destruct (take_drop_app notSlash site tail Hhost) as [Ht' Hd'].
    { destruct Htail as [->|(path & -> & _)]; [now left|].
      right. eexists _, _. split; reflexivity. }
    lazy iota beta. rewrite Ht', Hd'.
    destruct site as [|h0 host]; [congruence|].
    destruct Htail as [->|(path & -> & Hpath)]; [reflexivity|].
    now rewrite Hpath.
Qed.

(** *** Reopening in another container *)

Lemma handleNewTab_cases (r : Registry) tab activeTab behavior inherit :
  let attach := BehaveAutoAttachedTab tab (Some activeTab) behavior false in
  snd (handleNewTabFromActiveTab r tab activeTab behavior inherit) = [attach] \/
  exists parent,
    parentAfterAttach r tab = Some parent /\ inherit = true /\
    cookieStoreId tab = "firefox-default" /\
    cookieStoreId parent <> "firefox-default" /\
    snd (handleNewTabFromActiveTab r tab activeTab behavior inherit)
    = [attach; OpenNewTab parent tab (cookieStoreId activeTab); RemoveTab tab].
Proof.
  intros attach. unfold handleNewTabFromActiveTab.
  destruct (parentAfterAttach r tab) as [parent|]; [|now left].
  destruct inherit; simpl; [|now left].
  destruct (String.eqb (cookieStoreId tab) "firefox-default") eqn:Hdefault;
    simpl; [|now left].
  destruct (String.eqb (cookieStoreId tab) (cookieStoreId parent)) eqn:Hsame;
    [now left|].
  right. exists parent. apply String.eqb_eq in Hdefault.
  apply String.eqb_neq in Hsame. repeat split; auto. congruence.
Qed.

Lemma resolveNewTab_cases (c : Configs) (r : Registry) tab tst :
  snd (resolveNewTab c r tab tst) = [] \/
  exists oid opener grouped,
    possibleOpenerTab tst = Some oid /\ getTabElementById r oid = Some opener /\
    trackedWindows r !! windowId tab = Some grouped /\ ~ In (id tab) grouped /\
    getParentTab r tab = None /\
    ((isNewTabCommandTab r tab = true /\
      snd (resolveNewTab c r tab tst)
      = snd (handleNewTabFromActiveTab r tab opener (autoAttachOnNewTabCommand c)
               (inheritContextualIdentityToNewChildTab c))) \/
     (isNewTabCommandTab r tab = false /\
      (exists site, siteOf (url opener) = Some site /\ siteOf (url tab) = Some site) /\
      snd (resolveNewTab c r tab tst)
      = snd (handleNewTabFromActiveTab r tab opener (autoAttachSameSiteOrphan c)
               (inheritContextualIdentityToSameSiteOrphan c)))).
Proof.
  unfold resolveNewTab.
  destruct (trackedWindows r !! windowId tab) as [grouped|] eqn:Hwin; [|now left].
  destruct (getParentTab r tab) as [p|] eqn:Hparent; [now left|].
  destruct (possibleOpenerTab tst) as [oid|] eqn:Hoid; [|now left].
  destruct (getTabElementById r oid) as [opener|] eqn:Hopener; [|now left].
  destruct (existsb (Nat.eqb (id tab)) grouped) eqn:Hgrouped; [now left|].
  assert (Hnot : ~ In (id tab) grouped).
  { intros Hin. apply not_true_iff_false in Hgrouped. apply Hgrouped.
    apply existsb_exists. exists (id tab). split; [assumption | apply Nat.eqb_refl]. }
  destruct (isNewTabCommandTab r tab) eqn:Hcommand.
  - right. exists oid, opener, grouped. repeat split; auto.
  - destruct (siteOf (url opener)) as [openerSite|] eqn:Hs1; [|now left].
    destruct (siteOf (url tab)) as [tabSite|] eqn:Hs2; [|now left].
    destruct (String.eqb openerSite tabSite) eqn:Heq; [|now left].
    apply String.eqb_eq in Heq. subst tabSite.
    right. exists oid, opener, grouped. repeat split; auto.
    right. repeat split; auto. exists openerSite. auto.
Qed.

Lemma sync_cases (c : Configs) (r : Registry) tab ch (a : Action) :
  In a (syncParentAndOpener c r tab ch) ->
  exists parent, a = AttachTabTo tab parent /\
    hasOpenerTabId ch = true /\ syncParentTabAndOpenerTab c = true /\
    getOpenerTab r tab = Some parent /\ windowId parent = windowId tab /\
    (forall p, getParentTab r tab = Some p -> id parent <> id p).
Proof.
  unfold syncParentAndOpener.
  destruct (hasOpenerTabId ch) eqn:Hhas; [|contradiction].
  destruct (syncParentTabAndOpenerTab c) eqn:Hsync; [|contradiction]. simpl.
  destruct (getOpenerTab r tab) as [parent|] eqn:Hopener; [|contradiction].
  destruct (windowId parent =? windowId tab) eqn:Hwin; [|contradiction]. simpl.
  apply Nat.eqb_eq in Hwin.
  destruct (getParentTab r tab) as [p|] eqn:Hparent.
  - destruct (sameTab parent p) eqn:Hsame; [contradiction|].
    intros [<-|[]]. exists parent. repeat split; auto.
    intros p' Hp'. injection Hp' as <-. now apply Nat.eqb_neq.
  - intros [<-|[]]. exists parent. repeat split; auto; discriminate.
Qed.

Lemma onUpdated_actions (c : Configs) (r : Registry) tab ch tst :
  snd (onUpdated c r tab ch tst)
  = ((if navigated ch && isNewTab tst then snd (resolveNewTab c r tab tst) else [])
     ++ syncParentAndOpener c r tab ch)%list.
Proof.
  unfold onUpdated. destruct (navigated ch && isNewTab tst); [|reflexivity].
  now destruct (resolveNewTab c r tab tst).
Qed.

Lemma onCreating_cases (c : Configs) (r : Registry) tab info tst :
  (exists candidate,
     getOpenerTab r tab = None /\ isNewTabCommandTab r tab = true /\
     maybeOrphan info = false /\ duplicatedInternally info = false /\
     possibleOpener r tab info = Some candidate /\
     snd (fst (onCreating c r tab info tst)) = tst /\
     snd (onCreating c r tab info tst)
     = snd (handleNewTabFromActiveTab r tab candidate (autoAttachOnNewTabCommand c)
              (inheritContextualIdentityToNewChildTab c))) \/
  (exists opener rest,
     getOpenerTab r tab = Some opener /\ duplicatedInternally info = false /\
     snd (fst (onCreating c r tab info tst)) = tst /\
     snd (onCreating c r tab info tst) = SetOriginalOpener tab (uniqueId opener) :: rest /\
     (rest = [] \/
      (isPinned r opener = true /\ parentNode opener = parentNode tab /\
       rest = [MoveTabAfter tab (getLastTab r (windowId tab))]) \/
      (maybeOrphan info = false /\ autoAttach c = true /\
       (isPinned r opener = false \/ parentNode opener <> parentNode tab) /\
       rest = [BehaveAutoAttachedTab tab (Some opener) (autoAttachOnOpenedWithOwner c)
                 (positionedBySelf info)]))) \/
  (snd (onCreating c r tab info tst) = [] /\
   (duplicatedInternally info = true \/ getOpenerTab r tab = None) /\
   (snd (fst (onCreating c r tab info tst)) = tst \/
    (fst (fst (onCreating c r tab info tst)) = Now true /\
     isNewTab (snd (fst (onCreating c r tab info tst))) = true /\
     duplicatedInternally info = false /\ maybeOrphan info = false /\
     isNewTabCommandTab r tab = false))).
Proof.
  unfold onCreating.
  destruct (duplicatedInternally info); [right; right; auto|].
  destruct (getOpenerTab r tab) as [opener|] eqn:Hopener.
  - right. left. exists opener.
    destruct (isPinned r opener) eqn:Hpinned; simpl.
    + destruct (parentNode opener =? parentNode tab) eqn:Hnode; simpl.
      * apply Nat.eqb_eq in Hnode.
        destruct (autoGroupNewTabsFromPinned c); [eexists; repeat split; auto|].
        destruct (insertNewTabFromPinnedTabAtEnd c); eexists; repeat split; auto.
      * apply Nat.eqb_neq in Hnode.
        destruct (maybeOrphan info); simpl; [eexists; repeat split; auto|].
        destruct (autoAttach c) eqn:Hauto; eexists; repeat split; auto.
        right. right. repeat split; auto.
    + destruct (maybeOrphan info); simpl; [eexists; repeat split; auto|].
      destruct (autoAttach c) eqn:Hauto; eexists; repeat split; auto.
      right. right. repeat split; auto.
  - destruct (possibleOpener r tab info) as [candidate|] eqn:Hcandidate;
      [|right; right; auto].
    destruct (getNextTab r tab) as [next|]; [right; right; auto|].
    destruct (maybeOrphan info); [right; right; auto|].
    destruct (isNewTabCommandTab r tab) eqn:Hcommand.
    + destruct (positionedBySelf info); simpl; [right; right; auto|].
      left. exists candidate.
      destruct (handleNewTabFromActiveTab r tab candidate (autoAttachOnNewTabCommand c)
                  (inheritContextualIdentityToNewChildTab c)) as [moved actions].
      repeat split; auto.
    + right. right. simpl. repeat split; auto. right. repeat split; auto.
Qed.

(** Neither at the creation of a tab nor at one of its updates is the tab
    removed unless its replacement has just been opened: a removal comes
    right after the request to open a tab under the parent the tab has got
    by the attachment, in front of the tab, and only for a tab of the
    default container whose parent is in another one, with the inheritance
    switched on.  And the update listener does remove the tab then: a
    new-tab-command tab that had no parent when the update arrived, is
    attached to its recorded opener and finds itself under a parent of
    another container is replaced, the inheritance being switched on. *)
Theorem tab_is_removed_only_for_its_replacement
    (c : Configs) (r : Registry) (tab : Tab) :
  (forall (info : CreatingInfo) (ch : ChangeInfo) (tst : TST)
          (actions : list Action) (t : Tab),
     actions = snd (onCreating c r tab info tst) \/
     actions = snd (onUpdated c r tab ch tst) ->
     In (RemoveTab t) actions ->
     t = tab /\
     cookieStoreId tab = "firefox-default" /\
     (inheritContextualIdentityToNewChildTab c = true \/
      inheritContextualIdentityToSameSiteOrphan c = true) /\
     exists parent opener before after,
       parentAfterAttach r tab = Some parent /\
       cookieStoreId parent <> "firefox-default" /\
       actions = (before ++ OpenNewTab parent tab (cookieStoreId opener)
                         :: RemoveTab tab :: after)%list) /\
  (forall (ch : ChangeInfo) (tst : TST) oid opener grouped parent,
     navigated ch = true -> isNewTab tst = true ->
     possibleOpenerTab tst = Some oid -> getTabElementById r oid = Some opener ->
     trackedWindows r !! windowId tab = Some grouped -> ~ In (id tab) grouped ->
     getParentTab r tab = None -> isNewTabCommandTab r tab = true ->
     inheritContextualIdentityToNewChildTab c = true ->
     cookieStoreId tab = "firefox-default" ->
     parentAfterAttach r tab = Some parent ->
     cookieStoreId parent <> "firefox-default" ->
     snd (onUpdated c r tab ch tst)
     = ([BehaveAutoAttachedTab tab (Some opener) (autoAttachOnNewTabCommand c) false;
         OpenNewTab parent tab (cookieStoreId opener);
         RemoveTab tab] ++ syncParentAndOpener c r tab ch)%list).
Proof.
  split.
  - intros info ch tst actions t.
    assert (Hhandle : forall opener behavior inherit after,
      In (RemoveTab t)
         (snd (handleNewTabFromActiveTab r tab opener behavior inherit)) ->
      t = tab /\ cookieStoreId tab = "firefox-default" /\ inherit = true /\
      exists parent before,
        parentAfterAttach r tab = Some parent /\
        cookieStoreId parent <> "firefox-default" /\
        (snd (handleNewTabFromActiveTab r tab opener behavior inherit) ++ after)%list
        = (before ++ OpenNewTab parent tab (cookieStoreId opener)
                  :: RemoveTab tab :: after)%list).
    { intros opener behavior inherit after Hin.
      destruct (handleNewTab_cases r tab opener behavior inherit)
        as [Hone|(parent & Hparent & Hinherit & Hdefault & Hother & Hthree)].
      - rewrite Hone in Hin. destruct Hin as [Hin|[]]. discriminate.
      - rewrite Hthree in Hin |- *.
        destruct Hin as [Hin|[Hin|[Hin|[]]]]; try discriminate.
        injection Hin as <-. repeat split; auto.
        exists parent, [BehaveAutoAttachedTab tab (Some opener) behavior false].
        repeat split; auto. }
    intros [->| ->] Hin.
    + destruct (onCreating_cases c r tab info tst)
        as [(candidate & _ & _ & _ & _ & _ & _ & Hact)
           |[(opener & rest & _ & _ & _ & Hact & Hrest)|(Hact & _)]].
      * rewrite Hact in Hin |- *.
        destruct (Hhandle _ _ _ [] Hin)
          as (Ht & Hd & Hi & parent & before & Hp & Hc & Heq).
        rewrite app_nil_r in Heq.
        repeat split; auto. exists parent, candidate, before, []. auto.
      * rewrite Hact in Hin. exfalso.
        destruct Hin as [Hin|Hin]; [discriminate|].
        destruct Hrest as [->|[(_ & _ & ->)|(_ & _ & _ & ->)]];
          simpl in Hin; intuition discriminate.
      * rewrite Hact in Hin. contradiction.
    + rewrite onUpdated_actions in Hin |- *.
      apply in_app_or in Hin as [Hin|Hin].
      2:{ apply sync_cases in Hin as (parent & Hin & _). discriminate. }
      destruct (navigated ch && isNewTab tst); [|contradiction].
      destruct (resolveNewTab_cases c r tab tst)
        as [Hnone|(oid & opener & grouped & _ & _ & _ & _ & _ & Hcase)].
      { rewrite Hnone in Hin. contradiction. }
      destruct Hcase as [(_ & Hact)|(_ & _ & Hact)]; rewrite Hact in Hin |- *;
        destruct (Hhandle _ _ _ (syncParentAndOpener c r tab ch) Hin)
          as (Ht & Hd & Hi & parent & before & Hp & Hc & Heq);
        (repeat split; auto);
        exists parent, opener, before, (syncParentAndOpener c r tab ch); auto.
  - intros ch tst oid opener grouped parent Hnav Hnew Hoid Hopener Hwin Hnot
           Hnone Hcommand Hinherit Hdefault Hparent Hother.
    rewrite onUpdated_actions, Hnav, Hnew. cbn [andb]. f_equal.
    unfold resolveNewTab. rewrite Hoid, Hopener, Hwin, Hnone, Hcommand.
    assert (Hgrouped : existsb (Nat.eqb (id tab)) grouped = false).
    { apply not_true_iff_false. intros Hex. apply Hnot.
      apply existsb_exists in Hex as (x & Hx & Heq).
      apply Nat.eqb_eq in Heq. now subst x. }
    rewrite Hgrouped. cbn [snd].
    unfold handleNewTabFromActiveTab.
    rewrite Hparent, Hinherit, Hdefault. cbn [negb orb].
    assert (Hdiffer : String.eqb "firefox-default" (cookieStoreId parent) = false).
    { apply String.eqb_neq. congruence. }
    rewrite String.eqb_refl, Hdiffer. reflexivity.
Qed.

(** *** Updated tabs *)

(** An update attaches a new tab automatically only when the tab is still
    marked as new, the update reports a navigation, the tab has no parent,
    the recorded opener still exists and the tab was not opened in a group:
    then to that opener, without [dontMove], with the behavior configured
    for the new-tab command when the tab is one, and with the behavior for
    same-site orphans when both URLs have the same site. *)
Theorem onUpdated_attaches_only_to_the_recorded_opener
    (c : Configs) (r : Registry) (tab : Tab) (ch : ChangeInfo) (tst : TST)
    (a : Action) :
  In a (snd (onUpdated c r tab ch tst)) -> isAttachment a = true ->
  navigated ch = true /\ isNewTab tst = true /\ getParentTab r tab = None /\
  exists oid opener grouped,
    possibleOpenerTab tst = Some oid /\ getTabElementById r oid = Some opener /\
    trackedWindows r !! windowId tab = Some grouped /\ ~ In (id tab) grouped /\
    ((isNewTabCommandTab r tab = true /\
      a = BehaveAutoAttachedTab tab (Some opener) (autoAttachOnNewTabCommand c) false) \/
     (isNewTabCommandTab r tab = false /\
      (exists site, siteOf (url opener) = Some site /\ siteOf (url tab) = Some site) /\
      a = BehaveAutoAttachedTab tab (Some opener) (autoAttachSameSiteOrphan c) false)).
Proof.
  intros Hin Ha. rewrite onUpdated_actions in Hin.
  apply in_app_or in Hin as [Hin|Hin].
  2:{ apply sync_cases in Hin as (parent & -> & _). discriminate. }
  destruct (navigated ch) eqn:Hnav; [|contradiction].
  destruct (isNewTab tst) eqn:Hnew; [|contradiction]. simpl in Hin.
  assert (Hattach : forall opener behavior inherit,
    In a (snd (handleNewTabFromActiveTab r tab opener behavior inherit)) ->
    a = BehaveAutoAttachedTab tab (Some opener) behavior false).
  { intros opener behavior inherit Hin'.
    destruct (handleNewTab_cases r tab opener behavior inherit)
      as [Hone|(parent & _ & _ & _ & _ & Hthree)].
    - rewrite Hone in Hin'. destruct Hin' as [<-|[]]. reflexivity.
    - rewrite Hthree in Hin'.
      destruct Hin' as [<-|[<-|[<-|[]]]]; try reflexivity; discriminate. }
  destruct (resolveNewTab_cases c r tab tst)
    as [Hnone|(oid & opener & grouped & Hoid & Hopener & Hwin & Hnot & Hparent & Hcase)].
  { rewrite Hnone in Hin. contradiction. }
  repeat split; auto. exists oid, opener, grouped. repeat split; auto.
  destruct Hcase as [(Hcommand & Hact)|(Hcommand & Hsite & Hact)];
    rewrite Hact in Hin; apply Hattach in Hin; auto.
Qed.


(** *** Created tabs *)

(** A tab that may be an orphan is left where it is unless it was opened
    from a pinned tab: the creation listener asks for no attachment and
    leaves the markers as they are. *)
Theorem onCreating_leaves_possible_orphans_alone
    (c : Configs) (r : Registry) (tab : Tab) (info : CreatingInfo) (tst : TST) :
  maybeOrphan info = true ->
  snd (fst (onCreating c r tab info tst)) = tst /\
  attachments (snd (onCreating c r tab info tst)) = 0 /\
  forall a, In a (snd (onCreating c r tab info tst)) ->
    (exists opener,
       getOpenerTab r tab = Some opener /\ a = SetOriginalOpener tab (uniqueId opener)) \/
    (exists opener,
       getOpenerTab r tab = Some opener /\ isPinned r opener = true /\
       parentNode opener = parentNode tab /\
       a = MoveTabAfter tab (getLastTab r (windowId tab))).
Proof.
  intros Horphan.
  destruct (onCreating_cases c r tab info tst)
    as [(candidate & _ & _ & Hno & _)
       |[(opener & rest & Hopener & _ & Htst & Hact & Hrest)|(Hact & _ & Htst)]].
  - congruence.
  - rewrite Hact. split; [assumption|].
    destruct Hrest as [->|[(Hpinned & Hnode & ->)|(Hno & _)]]; [| |congruence].
    + split; [reflexivity|]. intros a [<-|[]]. left. eauto.
    + split; [reflexivity|]. intros a [<-|[<-|[]]]; [left | right]; eauto.
  - rewrite Hact. split; [|split; [reflexivity | contradiction]].
    destruct Htst as [Htst|(_ & _ & _ & Hno & _)]; [assumption | congruence].
Qed.

(** The original opener is noted on the tab exactly when the tab has an
    opener and was not duplicated by an internal operation, whatever
    happens to the tab afterwards; the note is then the first thing done,
    it is made once, on the created tab, with the unique id of the opener. *)
Theorem onCreating_notes_the_original_opener
    (c : Configs) (r : Registry) (tab : Tab) (info : CreatingInfo) (tst : TST) :
  (forall (t : Tab) (u : string),
     In (SetOriginalOpener t u) (snd (onCreating c r tab info tst)) <->
     duplicatedInternally info = false /\ t = tab /\
     exists opener, getOpenerTab r tab = Some opener /\ u = uniqueId opener) /\
  (forall opener,
     duplicatedInternally info = false -> getOpenerTab r tab = Some opener ->
     exists rest,
       snd (onCreating c r tab info tst)
       = SetOriginalOpener tab (uniqueId opener) :: rest /\
       forall t u, ~ In (SetOriginalOpener t u) rest).
Proof.
  assert (Hplain : forall candidate t u,
    ~ In (SetOriginalOpener t u)
         (snd (handleNewTabFromActiveTab r tab candidate (autoAttachOnNewTabCommand c)
                 (inheritContextualIdentityToNewChildTab c)))).
  { intros candidate t u Hin.
    destruct (handleNewTab_cases r tab candidate (autoAttachOnNewTabCommand c)
                (inheritContextualIdentityToNewChildTab c))
      as [Hone|(p & _ & _ & _ & _ & Hthree)].
    - rewrite Hone in Hin. destruct Hin as [?|[]]. discriminate.
    - rewrite Hthree in Hin. destruct Hin as [?|[?|[?|[]]]]; discriminate. }
  assert (Hrest : forall opener rest t u,
    rest = [] \/
    (isPinned r opener = true /\ parentNode opener = parentNode tab /\
     rest = [MoveTabAfter tab (getLastTab r (windowId tab))]) \/
    (maybeOrphan info = false /\ autoAttach c = true /\
     (isPinned r opener = false \/ parentNode opener <> parentNode tab) /\
     rest = [BehaveAutoAttachedTab tab (Some opener) (autoAttachOnOpenedWithOwner c)
               (positionedBySelf info)]) ->
    ~ In (SetOriginalOpener t u) rest).
  { intros opener rest t u [->|[(_ & _ & ->)|(_ & _ & _ & ->)]] Hin;
      simpl in Hin; intuition discriminate. }
  destruct (onCreating_cases c r tab info tst)
    as [(candidate & Hnone & _ & _ & Hdup & _ & _ & Hact)
       |[(opener & rest & Hopener & Hdup & _ & Hact & Hshape)
        |(Hact & Hwhy & _)]].
  - split.
    + intros t u. split.
      * intros Hin. rewrite Hact in Hin. now apply Hplain in Hin.
      * intros (_ & _ & opener & Hopener & _). congruence.
    + intros opener _ Hopener. congruence.
  - split.
    + intros t u. rewrite Hact. split.
      * intros [Hin|Hin].
        -- injection Hin as <- <-. repeat split; auto. exists opener. auto.
        -- exfalso. revert Hin. now apply (Hrest opener).
      * intros (_ & -> & opener' & Hopener' & ->).
        left. congruence.
    + intros opener' _ Hopener'. exists rest.
      assert (opener' = opener) by congruence. subst opener'.
      split; [exact Hact|]. intros t u. now apply (Hrest opener).
  - split.
    + intros t u. rewrite Hact. split; [contradiction|].
      intros (Hdup & _ & opener & Hopener & _).
      destruct Hwhy; congruence.
    + intros opener Hdup Hopener. destruct Hwhy; congruence.
Qed.

(** The markers of a tab are changed by the creation listener only when it
    answers at once that the tab stays and asks for nothing: the tab then
    has no opener, is no new-tab-command tab, and is marked as new. *)
Theorem onCreating_marks_only_tabs_it_leaves_in_place
    (c : Configs) (r : Registry) (tab : Tab) (info : CreatingInfo) (tst : TST) :
  snd (fst (onCreating c r tab info tst)) <> tst ->
  fst (fst (onCreating c r tab info tst)) = Now true /\
  snd (onCreating c r tab info tst) = [] /\
  isNewTab (snd (fst (onCreating c r tab info tst))) = true /\
  getOpenerTab r tab = None /\ isNewTabCommandTab r tab = false /\
  maybeOrphan info = false /\ duplicatedInternally info = false.
Proof.
  intros Hchanged.
  destruct (onCreating_cases c r tab info tst)
    as [(candidate & _ & _ & _ & _ & _ & Htst & _)
       |[(opener & rest & _ & _ & Htst & _)|(Hact & Hwhy & Htst)]];
    try contradiction.
  destruct Htst as [Htst|(Hnow & Hnew & Hdup & Horphan & Hcommand)];
    [contradiction|].
  destruct Hwhy as [Hwhy|Hwhy]; [congruence|].
  repeat split; auto.
Qed.

(** *** Duplicated tabs *)

(** The listener for created tabs acts on duplicated tabs only, and makes
    one call at most: a tab duplicated by an internal operation only gets
    the duplicating state, and neither listener attaches or marks it; any
    other duplicate is attached to its original, with the configured
    behavior, and is not moved when it was positioned by its creator. *)
Theorem duplicate_is_attached_to_its_original_unless_internal
    (c : Configs) (r : Registry) (behavior : Behavior) (tab : Tab)
    (info : CreatingInfo) (created : CreatedInfo) (tst : TST) :
  List.length (onCreated behavior tab created) <= 1 /\
  (forall a,
     In (Ask a) (onCreated behavior tab created) <->
     duplicated created = true /\ byInternalOperation created = false /\
     a = BehaveAutoAttachedTab tab (originalTab created) behavior
           (keepsPosition created)) /\
  (forall t,
     In (AddDuplicatingState t) (onCreated behavior tab created) <->
     duplicated created = true /\ byInternalOperation created = true /\ t = tab) /\
  (duplicatedInternally info = true -> byInternalOperation created = true ->
   onCreating c r tab info tst = (Now true, tst, []) /\
   existsb asksToAttach (onCreated behavior tab created) = false).
Proof.
  unfold onCreated.
  destruct (duplicated created), (byInternalOperation created); simpl;
    (split; [lia|]); (split; [|split]).
  all: try (intros x; split;
            [intros [H|[]]; try discriminate; injection H as <-; auto
            |intros (H1 & H2 & H3); try discriminate; subst; auto]).
  all: try (intros x; split; [contradiction | intros (H1 & H2 & H3); discriminate]).
  all: try (intros Hdup Hint; try discriminate;
            unfold onCreating; rewrite Hdup; auto).
Qed.

(** *** Further properties on concrete events *)

Lemma siteOf_matches_the_pattern_witness :
  siteOf "https://example.org/news" = Some "example.org".
Proof.
  apply siteOf_matches_the_pattern. exists "https", "/news".
  split; [reflexivity|]. split; [discriminate|]. split; [reflexivity|].
  split; [discriminate|]. split; [reflexivity|].
  right. exists "news". split; reflexivity.
Defined.

Lemma tab_is_removed_only_for_its_replacement_witness :
  let c := mkConfigs true 1 2 3 false false true true false in
  let parent := mkTab 4 1 "https://example.org/" "firefox-container-1" "unique-4" 0 in
  let r := mkRegistry (fun _ => Some activePage) (fun _ => None) (fun _ => None)
             (fun _ => None) (fun _ => Some parent) (fun _ => None)
             (fun n => if n =? 1 then Some activePage else None)
             (fun _ => true) (fun _ => false) {[ 1 := [] ]}
             (fun _ _ _ _ => true) (fun _ _ => true) in
  (exists before after,
     snd (onCreating c r newPage plainInfo fresh)
     = (before ++ OpenNewTab parent newPage "firefox-default"
               :: RemoveTab newPage :: after)%list) /\
  snd (onUpdated c r newPage (mkChangeInfo false None (Some "complete"))
         (mkTST true (Some 1)))
  = [BehaveAutoAttachedTab newPage (Some activePage) 1 false;
     OpenNewTab parent newPage "firefox-default";
     RemoveTab newPage].
Proof.
  intros c parent r.
  destruct (tab_is_removed_only_for_its_replacement c r newPage) as [Honly Hdoes].
  split.
  - destruct (Honly plainInfo (mkChangeInfo false None None) fresh
                (snd (onCreating c r newPage plainInfo fresh)) newPage)
      as (_ & _ & _ & p & opener & before & after & Hparent & _ & Hactions).
    + left. reflexivity.
    + simpl. auto.
    + exists before, after. injection Hparent as <-.
      rewrite Hactions.
      assert (Hcookie : cookieStoreId opener = "firefox-default").
      { assert (Hin : In (OpenNewTab parent newPage (cookieStoreId opener))
                         (snd (onCreating c r newPage plainInfo fresh))).
        { rewrite Hactions. apply in_or_app. right. now left. }
        simpl in Hin. destruct Hin as [Hin|[Hin|[Hin|[]]]]; try discriminate.
        injection Hin as Hin. now symmetry. }
      now rewrite Hcookie.
  - rewrite (Hdoes (mkChangeInfo false None (Some "complete")) (mkTST true (Some 1))
               1 activePage [] parent); try reflexivity.
    + intros [].
    + discriminate.
Defined.

Lemma onUpdated_attaches_only_to_the_recorded_opener_witness :
  navigated (mkChangeInfo false None (Some "complete")) = true /\
  getParentTab (registryWith None None true) newPage = None.
Proof.
  destruct (onUpdated_attaches_only_to_the_recorded_opener someConfigs
              (registryWith None None true) newPage
              (mkChangeInfo false None (Some "complete")) (mkTST true (Some 1))
              (BehaveAutoAttachedTab newPage (Some activePage) 3 false))
    as (Hnav & _ & Hparent & _).
  - vm_compute. left. reflexivity.
  - reflexivity.
  - split; assumption.
Defined.


Lemma onCreating_leaves_possible_orphans_alone_witness :
  attachments
    (snd (onCreating someConfigs (registryWith (Some activePage) None true) newPage
            (mkCreatingInfo false None true false) fresh)) = 0.
Proof.
  destruct (onCreating_leaves_possible_orphans_alone someConfigs
              (registryWith (Some activePage) None true) newPage
              (mkCreatingInfo false None true false) fresh)
    as (_ & Hnone & _).
  - reflexivity.
  - exact Hnone.
Defined.

Lemma onCreating_notes_the_original_opener_witness :
  In (SetOriginalOpener newPage "unique-1")
     (snd (onCreating someConfigs (registryWith (Some activePage) None true) newPage
             plainInfo fresh)) /\
  exists rest,
    snd (onCreating someConfigs (registryWith (Some activePage) None true) newPage
           plainInfo fresh)
    = SetOriginalOpener newPage "unique-1" :: rest.
Proof.
  destruct (onCreating_notes_the_original_opener someConfigs
              (registryWith (Some activePage) None true) newPage plainInfo fresh)
    as [Hiff Hfirst].
  split.
  - apply Hiff. split; [reflexivity|]. split; [reflexivity|].
    exists activePage. split; reflexivity.
  - destruct (Hfirst activePage eq_refl eq_refl) as (rest & Hactions & _).
    exists rest. exact Hactions.
Defined.

Lemma onCreating_marks_only_tabs_it_leaves_in_place_witness :
  fst (fst (onCreating someConfigs (registryWith None None false) newPage plainInfo fresh))
  = Now true.
Proof.
  refine (proj1 (onCreating_marks_only_tabs_it_leaves_in_place someConfigs
                   (registryWith None None false) newPage plainInfo fresh _)).
  simpl. discriminate.
Defined.

Lemma duplicate_is_attached_to_its_original_unless_internal_witness :
  onCreating someConfigs (registryWith (Some activePage) None true) newPage
    (mkCreatingInfo true None false false) fresh
  = (Now true, fresh, []) /\
  In (Ask (BehaveAutoAttachedTab newPage (Some activePage) 5 true))
     (onCreated 5 newPage (mkCreatedInfo true (Some activePage) false true)).
Proof.
  split.
  - destruct (duplicate_is_attached_to_its_original_unless_internal someConfigs
                (registryWith (Some activePage) None true) 5 newPage
                (mkCreatingInfo true None false false)
                (mkCreatedInfo true (Some activePage) true false) fresh)
      as (_ & _ & _ & Hinternal).
    now destruct Hinternal.
  - destruct (duplicate_is_attached_to_its_original_unless_internal someConfigs
                (registryWith (Some activePage) None true) 5 newPage
                (mkCreatingInfo true None false false)
                (mkCreatedInfo true (Some activePage) false true) fresh)
      as (_ & Hask & _).
    apply Hask. repeat split.
Defined.

End NewTabsFacts.
